(** * Duplicate-event detector of the CampusEvents backend

    A shallow embedding of [utils/duplicateDetection.js] (class
    [DuplicateEventDetector]), of the routes of [routes/events.js] that
    create an event, check a draft for duplicates and register a user
    ([router.post('/')], [router.post('/check-duplicates')] and
    [router.post('/:id/register')]) and of the virtuals and methods of
    [models/Event.js] that these read, followed by the properties of the
    detector that the design document states and by further properties
    of the code.

    Conventions of the embedding.

    - JavaScript numbers are modelled as exact rationals ([Q]); equalities
      between computed numbers are stated with [==].  Instants are the
      millisecond counts that [new Date(x)] denotes ([Z]).
    - JavaScript strings are modelled as [string], read as sequences of
      code units below 256 (the Latin-1 range), on which [toLowerCase]
      acts unit by unit.  Outside of that range lower-casing can lengthen
      a text; a statement that depends on the lengths of the words of a
      text is made on the lower-cased text, from which the code takes
      the words, or uses only that a word is not shortened.
    - [calculateDistance] (the haversine formula) is built from
      [Math.sin], [Math.cos], [Math.atan2] and [Math.sqrt]; it has no
      rational model and is a parameter of the development.
    - A JavaScript exception is a value of [Exn]; a computation that may
      throw has type [result A].
    - An object field that the code dereferences and that a stored
      document may lack ([venue], [dateTime], [organizer]) is an
      [option]; dereferencing [None] throws a [TypeError].  A text field
      that is missing behaves like the empty string in every function
      below (both are falsy), so text fields are plain strings. *)

From Stdlib Require Import QArith Qround Qabs ZArith Arith List String Ascii Bool.
From Stdlib Require Import Lia Lqa Sorted Permutation DecimalString.
Import ListNotations.

Local Open Scope string_scope.

(** ** JavaScript built-ins used by the detector *)

Module JS.

(** White space in the sense of [\s] and of [String.prototype.trim]:
    TAB, LF, VT, FF, CR, SPACE and NO-BREAK SPACE. *)
Definition is_space (c : ascii) : bool :=
  let n := nat_of_ascii c in
  (((9 <=? n) && (n <=? 13)) || (n =? 32) || (n =? 160))%nat.

(** Word characters in the sense of [\w]: [A-Za-z0-9_]. *)
Definition is_word (c : ascii) : bool :=
  let n := nat_of_ascii c in
  (((48 <=? n) && (n <=? 57)) || ((65 <=? n) && (n <=? 90))
   || (n =? 95) || ((97 <=? n) && (n <=? 122)))%nat.

(** The lower case of a code unit: [A-Z] and the capital letters of
    Latin-1 (U+00C0 to U+00DE but for the sign U+00D7) lie 32 below
    their small letters. *)
Definition lower_char (c : ascii) : ascii :=
  let n := nat_of_ascii c in
  if (((65 <=? n) && (n <=? 90))
      || ((192 <=? n) && (n <=? 222) && negb (n =? 215)))%nat
  then ascii_of_nat (n + 32) else c.

(** [s.toLowerCase()] *)
Fixpoint toLowerCase (s : string) : string :=
  match s with
  | EmptyString => EmptyString
  | String c s' => String (lower_char c) (toLowerCase s')
  end.

Fixpoint trimStart (s : string) : string :=
  match s with
  | EmptyString => EmptyString
  | String c s' => if is_space c then trimStart s' else s
  end.

Fixpoint trimEnd (s : string) : string :=
  match s with
  | EmptyString => EmptyString
  | String c s' =>
      match trimEnd s' with
      | EmptyString => if is_space c then EmptyString else String c EmptyString
      | t => String c t
      end
  end.

(** [s.trim()] *)
Definition trim (s : string) : string := trimEnd (trimStart s).

(** [s.replace(/[^\w\s]/g, '')]: every character that is neither a word
    character nor white space is deleted. *)
Fixpoint strip_non_word (s : string) : string :=
  match s with
  | EmptyString => EmptyString
  | String c s' =>
      if is_word c || is_space c then String c (strip_non_word s')
      else strip_non_word s'
  end.

(** [s.split(/\s+/)]: the pieces between maximal runs of white space.
    [cur] is the piece being read, [in_run] tells that the previous
    character was white space.  A run at either end of [s] leaves an
    empty piece there, and the empty string splits into one empty
    piece. *)
Fixpoint split_from (cur : string) (in_run : bool) (s : string) : list string :=
  match s with
  | EmptyString => [cur]
  | String c s' =>
      if is_space c then
        if in_run then split_from EmptyString true s'
        else cur :: split_from EmptyString true s'
      else split_from (cur ++ String c EmptyString) false s'
  end.

Definition split_ws (s : string) : list string :=
  split_from EmptyString false s.

(** [set.has(x)] for a [Set] of strings kept as the list of its members
    in insertion order. *)
Definition has (set : list string) (x : string) : bool :=
  existsb (String.eqb x) set.

Definition add (set : list string) (x : string) : list string :=
  if has set x then set else (set ++ [x])%list.

(** [new Set(xs)] *)
Definition new_Set (xs : list string) : list string :=
  fold_left add xs [].

(** [set.size] *)
Definition size (set : list string) : nat := List.length set.

(** A string is falsy exactly when it is empty. *)
Definition falsy (s : string) : bool :=
  match s with EmptyString => true | _ => false end.

(** A number is falsy exactly when it is zero. *)
Definition falsy_num (x : Q) : bool := Qeq_bool x 0.

(** The number of a [length] or [size]. *)
Definition num (n : nat) : Q := inject_Z (Z.of_nat n).

(** [Math.round(x)]: the nearest integer, halves rounded up. *)
Definition Math_round (x : Q) : Z := Qfloor (x + (1 # 2)).

(** [Math.ceil(x)] *)
Definition Math_ceil (x : Q) : Z := Qceiling x.

(** The text of an integral number inside a template literal. *)
Definition show_int (z : Z) : string :=
  NilZero.string_of_int (Z.to_int z).

(** [xs.join(sep)] *)
Fixpoint join (sep : string) (xs : list string) : string :=
  match xs with
  | [] => EmptyString
  | [x] => x
  | x :: rest => x ++ sep ++ join sep rest
  end.

(** [a >= b] and [a > b] on numbers. *)
Definition ge (a b : Q) : bool := Qle_bool b a.
Definition gt (a b : Q) : bool := negb (Qle_bool a b).

(** [Math.max(a, b)] *)
Definition Math_max (a b : Q) : Q := if Qle_bool a b then b else a.

End JS.

(** ** Exceptions *)

Inductive Exn : Type :=
| TypeError (msg : string)
| Error (msg : string).

Inductive result (A : Type) : Type :=
| Ok (a : A)
| Throw (e : Exn).

Arguments Ok {A} a.
Arguments Throw {A} e.

Definition bind {A B : Type} (r : result A) (k : A -> result B) : result B :=
match r with
| Ok a => k a
| Throw e => Throw e
end.

Notation "x <- r ;; k" := (bind r (fun x => k))
(at level 61, r at next level, right associativity).

(** [try { body } catch (error) { handler(error) }] *)
Definition try_catch {A : Type} (body : result A) (handler : Exn -> result A) : result A :=
match body with
| Ok a => Ok a
| Throw e => handler e
end.

(** Reading a property of [o.field] when [o.field] may be [undefined] or
  [null]. *)
Definition deref {A : Type} (field : string) (o : option A) : result A :=
match o with
| Some a => Ok a
| None => Throw (TypeError ("Cannot read properties of undefined: " ++ field))
end.

(** ** Data model *)

Record Coordinates : Type := {
latitude : Q;
longitude : Q
}.

(** [street] and [city] have no [required] flag in the schema; a missing
  one is rendered as ["undefined"] by the template literal. *)
Record Address : Type := {
street : option string;
city : option string
}.

Record Venue : Type := {
name : string;
address : option Address;
coordinates : option Coordinates
}.

Record DateTime : Type := {
start : Z;
finish : Z
}.

(** The fields of an event document that the detector and the creation
  route read.  [organizer] holds the text that [organizer.toString()]
  yields. *)
Record Event : Type := {
event_id : string;
status : string;
title : string;
description : string;
category : string;
venue : option Venue;
dateTime : option DateTime;
organizer : option string
}.

Inductive ConfidenceLevel : Type :=
| VERY_HIGH | HIGH | MEDIUM | LOW | VERY_LOW.

Definition ConfidenceLevel_eqb (a b : ConfidenceLevel) : bool :=
match a, b with
| VERY_HIGH, VERY_HIGH | HIGH, HIGH | MEDIUM, MEDIUM
| LOW, LOW | VERY_LOW, VERY_LOW => true
| _, _ => false
end.

Record Factors : Type := {
titleSimilarity : Q;
descriptionSimilarity : Q;
dateProximity : Q;
venueProximity : Q;
categoryMatch : Q;
organizerMatch : Q
}.

(** What [calculateDuplicateProbability] returns. *)
Record Analysis : Type := {
probability : Q;
factors : Factors
}.

(** An element of the [duplicates] and [suggestions] arrays. *)
Record Verdict : Type := {
event : Event;
v_probability : Q;
v_factors : Factors;
confidence : ConfidenceLevel
}.

Record AnalysisSummary : Type := {
totalChecked : nat;
threshold_used : Q;
highConfidenceDuplicates : nat;
mediumConfidenceDuplicates : nat
}.

Record AnalysisResult : Type := {
isDuplicate : bool;
duplicates : list Verdict;
suggestions : list Verdict;
analysis : AnalysisSummary
}.

Record Options : Type := {
threshold : option Q;
limit : option nat;
excludeEventId : option string
}.

(** ** The detector *)

Section Detector.

(** [calculateDistance(lat1, lon1, lat2, lon2)], in kilometres. *)
Variable calculateDistance : Q -> Q -> Q -> Q -> Q.

Definition similarityThreshold : Q := 8 # 10.
Definition dateProximityDays : Z := 7.
Definition venueProximityKm : Q := 5.

(** *** levenshteinDistance

    The matrix is kept as the list of its rows.  [fill_row c str2 up
    left] computes the cells [matrix[i][j..]] of row [i], where [c] is
    [str1.charAt(i - 1)], [str2] holds the characters from index
    [j - 1] on, [up] holds [matrix[i-1][j-1..]] and [left] is
    [matrix[i][j-1]]. *)
Fixpoint fill_row (c : ascii) (str2 : string) (up : list nat) (left : nat) : list nat :=
  match str2, up with
  | String c2 str2', diag :: ((above :: _) as up') =>
      let cell :=
        if Ascii.eqb c c2 then diag
        else Nat.min (diag + 1) (Nat.min (left + 1) (above + 1)) in
      cell :: fill_row c str2' up' cell
  | _, _ => []
  end.

(** Rows [i], [i+1], ... of the matrix; [prev] is row [i - 1] and
    [str1] holds the characters from index [i - 1] on. *)
Fixpoint fill_rows (str1 str2 : string) (prev : list nat) (i : nat) : list (list nat) :=
  match str1 with
  | EmptyString => []
  | String c str1' =>
      let row := i :: fill_row c str2 prev i in
      row :: fill_rows str1' str2 row (S i)
  end.

Definition levenshtein_matrix (str1 str2 : string) : list (list nat) :=
  let row0 := seq 0 (S (String.length str2)) in
  row0 :: fill_rows str1 str2 row0 1.

Definition levenshteinDistance (str1 str2 : string) : nat :=
  let len1 := String.length str1 in
  let len2 := String.length str2 in
  nth len2 (nth len1 (levenshtein_matrix str1 str2) []) 0%nat.

(** *** calculateTextSimilarity *)
Definition normalize (text : string) : string :=
  JS.strip_non_word (JS.trim (JS.toLowerCase text)).

Definition calculateTextSimilarity (text1 text2 : string) : Q :=
  if JS.falsy text1 || JS.falsy text2 then 0
  else
    let normalized1 := normalize text1 in
    let normalized2 := normalize text2 in
    if String.eqb normalized1 normalized2 then 1
    else
      let maxLength := Nat.max (String.length normalized1) (String.length normalized2) in
      if (maxLength =? 0)%nat then 1
      else
        let distance := levenshteinDistance normalized1 normalized2 in
        1 - (JS.num distance / JS.num maxLength).

(** *** calculateJaccardSimilarity *)
Definition words (text : string) : list string :=
  JS.new_Set
    (filter (fun word => (2 <? String.length word)%nat)
            (JS.split_ws (JS.toLowerCase text))).

Definition calculateJaccardSimilarity (text1 text2 : string) : Q :=
  if JS.falsy text1 || JS.falsy text2 then 0
  else
    let words1 := words text1 in
    let words2 := words text2 in
    let intersection := JS.new_Set (filter (JS.has words2) words1) in
    let union := JS.new_Set (words1 ++ words2)%list in
    if (JS.size union =? 0)%nat then 0
    else JS.num (JS.size intersection) / JS.num (JS.size union).

(** *** calculateCombinedSimilarity *)
Definition calculateCombinedSimilarity (text1 text2 : string) : Q :=
  let levenshtein := calculateTextSimilarity text1 text2 in
  let jaccard := calculateJaccardSimilarity text1 text2 in
  (levenshtein * (6 # 10)) + (jaccard * (4 # 10)).


(** *** calculateDateProximity

    [date1] and [date2] are the instants of [new Date(date1)] and
    [new Date(date2)], in milliseconds. *)
Definition calculateDateProximity (date1 date2 : Z) : Q :=
  let diffTime := Z.abs (date1 - date2) in
  let diffDays := JS.Math_ceil (inject_Z diffTime / inject_Z (1000 * 60 * 60 * 24)) in
  if (diffDays =? 0)%Z then 1
  else if (diffDays >? dateProximityDays)%Z then 0
  else 1 - (inject_Z diffDays / inject_Z dateProximityDays).

(** *** calculateVenueProximity *)

(** [`${address.street} ${address.city}`] *)
Definition show_field (o : option string) : string :=
  match o with
  | Some s => s
  | None => "undefined"
  end.

Definition address_line (a : Address) : string :=
  show_field (street a) ++ " " ++ show_field (city a).

(** [c.latitude && c.longitude] as a condition. *)
Definition truthy_coordinates (c : Coordinates) : bool :=
  negb (JS.falsy_num (latitude c)) && negb (JS.falsy_num (longitude c)).

(** The value of [geoProximity] when [calculateVenueProximity] reaches
    its weighted sum. *)
Definition geoProximity (venue1 venue2 : Venue) : Q :=
  match coordinates venue1, coordinates venue2 with
  | Some c1, Some c2 =>
      if truthy_coordinates c1 && truthy_coordinates c2 then
        let distance :=
          calculateDistance (latitude c1) (longitude c1) (latitude c2) (longitude c2) in
        if Qle_bool distance venueProximityKm
        then 1 - (distance / venueProximityKm)
        else 0
      else 0
  | _, _ => 0
  end.

(** The value of [addressSimilarity] there. *)
Definition addressSimilarity (venue1 venue2 : Venue) : Q :=
  match address venue1, address venue2 with
  | Some a1, Some a2 =>
      calculateCombinedSimilarity (address_line a1) (address_line a2)
  | _, _ => 0
  end.

Definition calculateVenueProximity (venue1 venue2 : Venue) : Q :=
  let nameSimilarity := calculateCombinedSimilarity (name venue1) (name venue2) in
  (nameSimilarity * (5 # 10))
  + (geoProximity venue1 venue2 * (3 # 10))
  + (addressSimilarity venue1 venue2 * (2 # 10)).

(** *** calculateDuplicateProbability *)

Definition w_title : Q := 35 # 100.
Definition w_description : Q := 20 # 100.
Definition w_date : Q := 15 # 100.
Definition w_venue : Q := 15 # 100.
Definition w_category : Q := 10 # 100.
Definition w_organizer : Q := 5 # 100.

Definition calculateDuplicateProbability (event1 event2 : Event) : result Analysis :=
  let titleSimilarity := calculateCombinedSimilarity (title event1) (title event2) in
  let descriptionSimilarity :=
    calculateCombinedSimilarity (description event1) (description event2) in
  dt1 <- deref "dateTime" (dateTime event1) ;;
  dt2 <- deref "dateTime" (dateTime event2) ;;
  let dateProximity := calculateDateProximity (start dt1) (start dt2) in
  venue1 <- deref "venue" (venue event1) ;;
  venue2 <- deref "venue" (venue event2) ;;
  let venueProximity := calculateVenueProximity venue1 venue2 in
  let categoryMatch : Q :=
    if String.eqb (category event1) (category event2) then 1 else 0 in
  organizer1 <- deref "organizer" (organizer event1) ;;
  organizer2 <- deref "organizer" (organizer event2) ;;
  let organizerMatch : Q := if String.eqb organizer1 organizer2 then 1 else 0 in
  let probability :=
    (titleSimilarity * w_title) +
    (descriptionSimilarity * w_description) +
    (dateProximity * w_date) +
    (venueProximity * w_venue) +
    (categoryMatch * w_category) +
    (organizerMatch * w_organizer) in
  Ok {| probability := probability;
        factors := {| titleSimilarity := titleSimilarity;
                      descriptionSimilarity := descriptionSimilarity;
                      dateProximity := dateProximity;
                      venueProximity := venueProximity;
                      categoryMatch := categoryMatch;
                      organizerMatch := organizerMatch |} |}.

(** *** getConfidenceLevel *)
Definition getConfidenceLevel (probability : Q) : ConfidenceLevel :=
  if JS.ge probability (9 # 10) then VERY_HIGH
  else if JS.ge probability (8 # 10) then HIGH
  else if JS.ge probability (6 # 10) then MEDIUM
  else if JS.ge probability (4 # 10) then LOW
  else VERY_LOW.

(** *** generateExplanation *)
Definition percent (x : Q) : string := JS.show_int (JS.Math_round (x * 100)).

(** One [if (cond) { explanations.push(text) }]. *)
Definition push_if (cond : bool) (text : string) : list string :=
  if cond then [text] else [].

Definition generateExplanation (analysis : Verdict) : string :=
  let factors := v_factors analysis in
  let explanations :=
    List.concat
      [ push_if (JS.gt (titleSimilarity factors) (8 # 10))
          ("Event titles are " ++ percent (titleSimilarity factors) ++ "% similar");
        push_if (JS.gt (descriptionSimilarity factors) (7 # 10))
          ("Event descriptions are " ++ percent (descriptionSimilarity factors)
           ++ "% similar");
        push_if (JS.gt (dateProximity factors) (8 # 10))
          "Events are scheduled very close in time";
        push_if (JS.gt (venueProximity factors) (8 # 10))
          "Events are at the same or very similar venue";
        push_if (Qeq_bool (categoryMatch factors) 1)
          "Events are in the same category";
        push_if (Qeq_bool (organizerMatch factors) 1)
          "Events have the same organizer" ] in
  if (0 <? List.length explanations)%nat
  then JS.join ", " explanations
  else "General similarity detected".

(** ** The event store

    The collection behind the [Event] model, with the documents in the
    order in which a query returns them, and the counter
    [stats.eventsCreated] of each user.  [find_rejects],
    [create_rejects], [populate_rejects] and [stats_update_rejects] say
    whether the promise of the next [Event.find], [Event.create],
    [event.populate] or [req.user.updateOne] rejects (lost connection,
    time-out, validation); [fresh_id] is the identifier the store gives
    to the next document that comes without one. *)
Record Store : Type := {
  docs : list Event;
  eventsCreated : string -> Z;
  find_rejects : bool;
  create_rejects : bool;
  populate_rejects : bool;
  stats_update_rejects : bool;
  fresh_id : string
}.

Record Query : Type := {
  q_status_in : list string;
  q_category : string;
  q_start_gte : Z;
  q_start_lte : Z;
  q_id_ne : option string
}.

Definition matches (q : Query) (doc : Event) : bool :=
  existsb (String.eqb (status doc)) (q_status_in q)
  && String.eqb (category doc) (q_category q)
  && match dateTime doc with
     | Some dt => ((q_start_gte q <=? start dt) && (start dt <=? q_start_lte q))%Z
     | None => false
     end
  && match q_id_ne q with
     | Some id => negb (String.eqb (event_id doc) id)
     | None => true
     end.

(** [.limit(n)]; a limit of zero means no limit. *)
Definition apply_limit (n : nat) (l : list Event) : list Event :=
  if (n =? 0)%nat then l else firstn n l.

(** [await Event.find(query).populate(...).limit(limit).lean()] *)
Definition Event_find (query : Query) (limit : nat) (store : Store) : result (list Event) :=
  if find_rejects store then Throw (Error "Event.find rejected")
  else Ok (apply_limit limit (filter (matches query) (docs store))).

(** ** checkForDuplicates *)

Definition make_verdict (existingEvent : Event) (analysis : Analysis) : Verdict :=
  {| event := existingEvent;
     v_probability := probability analysis;
     v_factors := factors analysis;
     confidence := getConfidenceLevel (probability analysis) |}.

(** The [for ... of] loop over [existingEvents]; the state is the pair
    of arrays [duplicates] and [suggestions], [push] appends. *)
Fixpoint score_loop (newEvent : Event) (threshold : Q) (existingEvents : list Event)
  (duplicates suggestions : list Verdict) : result (list Verdict * list Verdict) :=
  match existingEvents with
  | [] => Ok (duplicates, suggestions)
  | existingEvent :: rest =>
      analysis <- calculateDuplicateProbability newEvent existingEvent ;;
      if JS.ge (probability analysis) threshold then
        score_loop newEvent threshold rest
                   (duplicates ++ [make_verdict existingEvent analysis])%list suggestions
      else if JS.ge (probability analysis) (5 # 10) then
        score_loop newEvent threshold rest
                   duplicates (suggestions ++ [make_verdict existingEvent analysis])%list
      else
        score_loop newEvent threshold rest duplicates suggestions
  end.

(** [xs.sort((a, b) => b.probability - a.probability)].  The comparator
    puts [a] after [b] when its result is positive; the sort is stable,
    and a stable sort has one possible outcome, computed here by
    insertion. *)
Definition comes_after (a b : Verdict) : bool :=
  JS.gt (v_probability b - v_probability a) 0.

Fixpoint insert_verdict (a : Verdict) (sorted : list Verdict) : list Verdict :=
  match sorted with
  | [] => [a]
  | b :: rest =>
      if comes_after a b then b :: insert_verdict a rest
      else a :: b :: rest
  end.

Definition sort_by_probability (xs : list Verdict) : list Verdict :=
  fold_right insert_verdict [] xs.

Definition count_confidence (c : ConfidenceLevel) (xs : list Verdict) : nat :=
  List.length (filter (fun d => ConfidenceLevel_eqb (confidence d) c) xs).

Definition default_options : Options :=
  {| threshold := None; limit := None; excludeEventId := None |}.

Definition build_query (newEvent : Event) (excludeEventId : option string) : result Query :=
  dt <- deref "dateTime" (dateTime newEvent) ;;
  let window := (dateProximityDays * 24 * 60 * 60 * 1000)%Z in
  Ok {| q_status_in := ["draft"; "published"];
        q_category := category newEvent;
        q_start_gte := (start dt - window)%Z;
        q_start_lte := (start dt + window)%Z;
        q_id_ne := match excludeEventId with
                   | Some id => if JS.falsy id then None else Some id
                   | None => None
                   end |}.

(** The defaults of the destructured [options]. *)
Definition threshold_of (options : Options) : Q :=
  match threshold options with
  | Some t => t
  | None => similarityThreshold
  end.

Definition limit_of (options : Options) : nat :=
  match limit options with
  | Some n => n
  | None => 50%nat
  end.

(** The first half of the [try] block: the query and the look-up, which
    yield [existingEvents]. *)
Definition retrieve (newEvent : Event) (options : Options) (store : Store)
  : result (list Event) :=
  query <- build_query newEvent (excludeEventId options) ;;
  Event_find query (limit_of options) store.

(** The second half of the [try] block, from the declaration of
    [duplicates] and [suggestions] to [return result]; the call of the
    logger is left out. *)
Definition analyse (newEvent : Event) (threshold : Q) (existingEvents : list Event)
  : result AnalysisResult :=
  buckets <- score_loop newEvent threshold existingEvents [] [] ;;
  let duplicates := sort_by_probability (fst buckets) in
  let suggestions := sort_by_probability (snd buckets) in
  Ok {| isDuplicate := (0 <? List.length duplicates)%nat;
        duplicates := firstn 5 duplicates;
        suggestions := firstn 3 suggestions;
        analysis :=
          {| totalChecked := List.length existingEvents;
             threshold_used := threshold;
             highConfidenceDuplicates := count_confidence HIGH duplicates;
             mediumConfidenceDuplicates := count_confidence MEDIUM duplicates |} |}.

Definition checkForDuplicates (newEvent : Event) (options : Options) (store : Store)
  : result AnalysisResult :=
  try_catch
    (existingEvents <- retrieve newEvent options store ;;
     analyse newEvent (threshold_of options) existingEvents)
    (fun error => Throw (Error "Failed to check for duplicate events")).

(** ** The creation route [router.post('/')]

    [body] is [req.body] as the handler reads it, [validation_errors] is
    the outcome of [!errors.isEmpty()] for the express-validator chain,
    [user_id] is [req.user._id].  No validator names [_id] or [status]:
    [body_has_id] and [body_has_status] say whether the body carries
    them; where it does not, the fields [event_id] and [status] of
    [body] are read by nothing.  [body_sets_maxAttendees] says whether
    [req.body.registration.maxAttendees] is there and truthy. *)
Record Request : Type := {
  body : Event;
  body_has_id : bool;
  body_has_status : bool;
  body_sets_maxAttendees : bool;
  skipDuplicateCheck : bool;
  user_id : string;
  validation_errors : bool
}.

Inductive Response : Type :=
| ValidationFailed
| BadRequest (message : string)
| DuplicateDetected (duplicates : list (Verdict * string))
| Created (event : Event)
| ServerError (message : string).

Definition status_code (r : Response) : nat :=
  match r with
  | ValidationFailed => 400
  | BadRequest _ => 400
  | DuplicateDetected _ => 409
  | Created _ => 201
  | ServerError _ => 500
  end.

(** The values that the schema admits for [status]. *)
Definition status_enum : list string :=
  ["draft"; "published"; "cancelled"; "completed"; "postponed"].

(** What the schema makes of a venue: the name is trimmed, and the nested
    path [venue.address] always carries the default of its [country], so
    that a stored venue has an address even where the data had none. *)
Definition stored_venue (v : Venue) : Venue :=
  {| name := JS.trim (name v);
     address := Some match address v with
                     | Some a => a
                     | None => {| street := None; city := None |}
                     end;
     coordinates := coordinates v |}.

(** [await Event.create(eventData)].  [own_id] and [own_status] say
    whether [eventData] carries [_id] and [status]: an [_id] of its own
    must be new to the collection and a [status] of its own must be one
    of the enumeration, or the promise rejects; without them the store
    gives the identifier and the schema the status ['draft'].  The
    schema trims the title and lower-cases the category. *)
Definition Event_create (eventData : Event) (own_id own_status : bool) (store : Store)
  : result (Event * Store) :=
  if create_rejects store
     || (own_id && existsb (String.eqb (event_id eventData)) (map event_id (docs store)))
     || (own_status && negb (existsb (String.eqb (status eventData)) status_enum))
  then Throw (Error "Event.create rejected")
  else
    let doc := {| event_id := if own_id then event_id eventData else fresh_id store;
                  status := if own_status then status eventData else "draft";
                  title := JS.trim (title eventData);
                  description := description eventData;
                  category := JS.toLowerCase (category eventData);
                  venue := option_map stored_venue (venue eventData);
                  dateTime := dateTime eventData;
                  organizer := organizer eventData |} in
    Ok (doc, {| docs := (docs store ++ [doc])%list;
                eventsCreated := eventsCreated store;
                find_rejects := find_rejects store;
                create_rejects := create_rejects store;
                populate_rejects := populate_rejects store;
                stats_update_rejects := stats_update_rejects store;
                fresh_id := if own_id then fresh_id store else fresh_id store ++ "'" |}).

(** [await event.populate('organizer', ...)]: the document itself is left
    as it is stored; the answer identifies the organizer by [_id]. *)
Definition Event_populate (event : Event) (store : Store) : result Event :=
  if populate_rejects store then Throw (Error "populate rejected")
  else Ok event.

(** [await req.user.updateOne({ $inc: { 'stats.eventsCreated': 1 } })] *)
Definition User_count_created (user : string) (store : Store) : result Store :=
  if stats_update_rejects store then Throw (Error "updateOne rejected")
  else Ok {| docs := docs store;
             eventsCreated :=
               (fun u => if String.eqb u user
                         then (eventsCreated store u + 1)%Z
                         else eventsCreated store u);
             find_rejects := find_rejects store;
             create_rejects := create_rejects store;
             populate_rejects := populate_rejects store;
             stats_update_rejects := stats_update_rejects store;
             fresh_id := fresh_id store |}.

(** [{ ...req.body, organizer: req.user._id }] *)
Definition with_organizer (req : Request) : Event :=
  {| event_id := event_id (body req);
     status := status (body req);
     title := title (body req);
     description := description (body req);
     category := category (body req);
     venue := venue (body req);
     dateTime := dateTime (body req);
     organizer := Some (user_id req) |}.

(** The part of the handler from the comment [// Create event] on; the
    call of the logger is left out.  Where the body sets no
    [registration.maxAttendees], the handler reads
    [eventData.venue.capacity] for it, which throws without a venue; the
    value itself goes to a field that [Event] does not hold.  A rejection
    of [Event.create] leaves the store as it was.  A rejection of
    [populate] or of [updateOne] reaches the same [catch] block, which
    answers 500, with the document already stored. *)
Definition create_event (req : Request) (store : Store) : result (Response * Store) :=
  _ <- (if body_sets_maxAttendees req then Ok tt
        else venue <- deref "venue" (venue (body req)) ;; Ok tt) ;;
  created <- Event_create (with_organizer req) (body_has_id req) (body_has_status req)
                          store ;;
  let stored := snd created in
  Ok match Event_populate (fst created) stored with
     | Throw error => (ServerError "Server error creating event", stored)
     | Ok event =>
         match User_count_created (user_id req) stored with
         | Throw error => (ServerError "Server error creating event", stored)
         | Ok counted => (Created event, counted)
         end
     end.

(** The options of the gate: [{ threshold: 0.8 }]. *)
Definition gate_options : Options :=
  {| threshold := Some (8 # 10); limit := None; excludeEventId := None |}.

(** The duplicate gate: [Some response] when the handler returns from
    inside the gate, [None] when control reaches [// Create event]. *)
Definition duplicate_gate (req : Request) (store : Store) : result (option Response) :=
  if negb (skipDuplicateCheck req) then
    let tempEvent := with_organizer req in
    duplicateAnalysis <- checkForDuplicates tempEvent gate_options store ;;
    let veryHighConfidenceDuplicates :=
      filter (fun d => ConfidenceLevel_eqb (confidence d) VERY_HIGH)
             (duplicates duplicateAnalysis) in
    if (0 <? List.length veryHighConfidenceDuplicates)%nat then
      Ok (Some (DuplicateDetected
                  (map (fun d => (d, generateExplanation d))
                       veryHighConfidenceDuplicates)))
    else Ok None
  else Ok None.

Definition post_event (now : Z) (req : Request) (store : Store) : Response * Store :=
  match
    (if validation_errors req then Ok (ValidationFailed, store)
     else
       dt <- deref "dateTime" (dateTime (body req)) ;;
       let startDate := start dt in
       let endDate := finish dt in
       if (startDate <=? now)%Z then
         Ok (BadRequest "Event start date must be in the future", store)
       else if (endDate <=? startDate)%Z then
         Ok (BadRequest "Event end date must be after start date", store)
       else
         gate <- duplicate_gate req store ;;
         match gate with
         | Some response => Ok (response, store)
         | None => create_event req store
         end)
  with
  | Ok out => out
  | Throw error => (ServerError "Server error creating event", store)
  end.

End Detector.

(** ** Vocabulary of the statements *)

(** The text has a white-space delimited piece of more than two
    characters. *)
Definition has_long_word (text : string) : bool :=
  existsb (fun word => (2 <? String.length word)%nat) (JS.split_ws text).

(** The document carries the three objects that scoring dereferences. *)
Definition well_formed (e : Event) : bool :=
  match venue e, dateTime e, organizer e with
  | Some _, Some _, Some _ => true
  | _, _, _ => false
  end.

(** A retrieved event paired with its analysis, and the two tests of the
    scoring loop on such a pair. *)
Definition verdict_of (p : Event * Analysis) : Verdict :=
  make_verdict (fst p) (snd p).

Definition goes_to_duplicates (threshold : Q) (p : Event * Analysis) : bool :=
  JS.ge (probability (snd p)) threshold.

Definition goes_to_suggestions (threshold : Q) (p : Event * Analysis) : bool :=
  negb (JS.ge (probability (snd p)) threshold) && JS.ge (probability (snd p)) (5 # 10).

(** [calculateDuplicateProbability] returns [a] for the candidate and
    [e]. *)
Definition scores (calculateDistance : Q -> Q -> Q -> Q -> Q) (newEvent e : Event)
  (a : Analysis) : Prop :=
  calculateDuplicateProbability calculateDistance newEvent e = Ok a.

(** The verdicts of the retrieved events that pass [test], in the order
    of retrieval. *)
Definition bucket (test : Q -> Event * Analysis -> bool) (threshold : Q)
  (pool : list Event) (analyses : list Analysis) : list Verdict :=
  map verdict_of (filter (test threshold) (combine pool analyses)).

(** The probabilities along the list never increase. *)
Definition descending (xs : list Verdict) : Prop :=
  StronglySorted (fun a b => v_probability b <= v_probability a) xs.

(** ** Vocabulary of the proofs *)

(** Row [i] of the matrix from column [j] on: every cell [matrix[i][j]]
    is at most [max i j]. *)
Fixpoint bounded (i j : nat) (row : list nat) : Prop :=
  match row with
  | [] => True
  | cell :: rest => (cell <= Nat.max i j)%nat /\ bounded i (S j) rest
  end.

Definition ms_per_day : Z := 86400000.

(** ** Concrete events, stores and requests *)

Definition scenario_venue : Venue :=
  {| name := "Tech Auditorium"; address := None; coordinates := None |}.

(** The candidate of the end-to-end scenario, starting at [D] and
    organised by [o]. *)
Definition scenario_candidate (D : Z) (o : string) : Event :=
  {| event_id := EmptyString;
     status := EmptyString;
     title := "AI Workshop 2024";
     description := "Learn about AI and ML for 2 hours";
     category := "technology";
     venue := Some scenario_venue;
     dateTime := Some {| start := D; finish := D + 7200000 |};
     organizer := Some o |}.

(** The stored event of the scenario: the same but for the title. *)
Definition scenario_stored (D : Z) (o : string) : Event :=
  {| event_id := "stored";
     status := "published";
     title := "AI Workshop 2024!";
     description := "Learn about AI and ML for 2 hours";
     category := "technology";
     venue := Some scenario_venue;
     dateTime := Some {| start := D; finish := D + 7200000 |};
     organizer := Some o |}.

(** A pair of events that agree on every scored field, with a title that
    has no word of more than two characters. *)
Definition short_titled : Event :=
  {| event_id := EmptyString;
     status := "published";
     title := "AI ML";
     description := "Learn about AI and ML for 2 hours";
     category := "technology";
     venue := Some scenario_venue;
     dateTime := Some {| start := 0; finish := 7200000 |};
     organizer := Some "u1" |}.

(** A distance function for closed examples: the distance of a place to
    itself. *)
Definition no_distance : Q -> Q -> Q -> Q -> Q := fun _ _ _ _ => 0.

(** A stored document whose organizer reference is dangling: [populate]
    leaves [null] in its place. *)
Definition orphaned_stored : Event :=
  {| event_id := "orphan";
     status := "published";
     title := "AI Workshop 2024";
     description := "Learn about AI and ML for 2 hours";
     category := "technology";
     venue := Some scenario_venue;
     dateTime := Some {| start := 0; finish := 7200000 |};
     organizer := None |}.

Definition healthy_store : Store :=
  {| docs := [scenario_stored 0 "u2"; scenario_candidate 0 "u1"; scenario_stored 0 "u1"];
     eventsCreated := fun _ => 0%Z;
     find_rejects := false;
     create_rejects := false;
     populate_rejects := false;
     stats_update_rejects := false;
     fresh_id := "new" |}.

Definition store_with_orphan : Store :=
  {| docs := [scenario_stored 0 "u2"; orphaned_stored];
     eventsCreated := fun _ => 0%Z;
     find_rejects := false;
     create_rejects := false;
     populate_rejects := false;
     stats_update_rejects := false;
     fresh_id := "new" |}.

(** A store whose look-ups reject while its insertions succeed. *)
Definition store_without_find : Store :=
  {| docs := [];
     eventsCreated := fun _ => 0%Z;
     find_rejects := true;
     create_rejects := false;
     populate_rejects := false;
     stats_update_rejects := false;
     fresh_id := "new" |}.

Definition empty_store : Store :=
  {| docs := [];
     eventsCreated := fun _ => 0%Z;
     find_rejects := false;
     create_rejects := false;
     populate_rejects := false;
     stats_update_rejects := false;
     fresh_id := "new" |}.

(** A valid request, received at instant 0, for an event that starts
    later. *)
Definition scenario_request : Request :=
  {| body := scenario_candidate 1000 EmptyString;
     body_has_id := false;
     body_has_status := false;
     body_sets_maxAttendees := false;
     skipDuplicateCheck := false;
     user_id := "u1";
     validation_errors := false |}.

(** ** The advisory route [router.post('/check-duplicates')]

    [check_excludeEventId] is [req.body.excludeEventId]. *)
Record CheckRequest : Type := {
  check_body : Event;
  check_excludeEventId : option string;
  check_user_id : string;
  check_validation_errors : bool
}.

Record Recommendations : Type := {
  shouldBlock : bool;
  shouldWarn : bool;
  recommendation : string
}.

Inductive CheckResponse : Type :=
| CheckValidationFailed
| CheckReport (isDuplicate : bool) (duplicates suggestions : list (Verdict * string))
    (analysis : AnalysisSummary) (recommendations : Recommendations)
| CheckServerError (message : string).

(** [{ ...req.body, organizer: req.user._id }] *)
Definition temp_event (body : Event) (user : string) : Event :=
  {| event_id := event_id body;
     status := status body;
     title := title body;
     description := description body;
     category := category body;
     venue := venue body;
     dateTime := dateTime body;
     organizer := Some user |}.

(** [{ threshold: 0.7, excludeEventId: req.body.excludeEventId || null }] *)
Definition check_options (req : CheckRequest) : Options :=
  {| threshold := Some (7 # 10);
     limit := None;
     excludeEventId := match check_excludeEventId req with
                       | Some id => if JS.falsy id then None else Some id
                       | None => None
                       end |}.

Definition post_check_duplicates (calculateDistance : Q -> Q -> Q -> Q -> Q)
  (req : CheckRequest) (store : Store) : CheckResponse :=
  match
    (if check_validation_errors req then Ok CheckValidationFailed
     else
       let tempEvent := temp_event (check_body req) (check_user_id req) in
       duplicateAnalysis <-
         checkForDuplicates calculateDistance tempEvent (check_options req) store ;;
       let duplicatesWithExplanations :=
         map (fun duplicate => (duplicate, generateExplanation duplicate))
             (duplicates duplicateAnalysis) in
       let suggestionsWithExplanations :=
         map (fun suggestion => (suggestion, generateExplanation suggestion))
             (suggestions duplicateAnalysis) in
       Ok (CheckReport
             (isDuplicate duplicateAnalysis)
             duplicatesWithExplanations
             suggestionsWithExplanations
             (analysis duplicateAnalysis)
             {| shouldBlock :=
                  existsb (fun d => ConfidenceLevel_eqb (confidence d) VERY_HIGH)
                          (duplicates duplicateAnalysis);
                shouldWarn :=
                  (0 <? List.length (duplicates duplicateAnalysis))%nat
                  || (0 <? List.length (suggestions duplicateAnalysis))%nat;
                recommendation :=
                  if isDuplicate duplicateAnalysis
                  then "Similar events found. Please review before creating."
                  else if (0 <? List.length (suggestions duplicateAnalysis))%nat
                  then "Some similar events found. You may want to review them."
                  else "No similar events found. You can proceed with creating this event."
             |}))
  with
  | Ok response => response
  | Throw error => CheckServerError "Server error during duplicate check"
  end.

(** ** Registration: the virtuals and methods of the Event model and the
    route [router.post('/:id/register')]

    The fields of an event document that registration reads.  A date is
    its instant in milliseconds; a date that is set is truthy.  The two
    counts are of type [Number] in the schema, which asks for nothing
    more: they need not be whole. *)
Record RegistrationInfo : Type := {
  deadline : option Z;
  currentAttendees : Q;
  maxAttendees : Q;
  waitingList : bool;
  approvalRequired : bool
}.

Record Pricing : Type := {
  pricing_type : string;
  amount : Q;
  currency : string
}.

Record EventDoc : Type := {
  doc_id : string;
  doc_status : string;
  registration : RegistrationInfo;
  pricing : Pricing
}.

(** The virtual [registrationStatus] at the instant [now]; the helper
    [getRegistrationStatus] of the routes has the same body. *)
Definition registrationStatus (now : Z) (this : EventDoc) : string :=
  if match deadline (registration this) with
     | Some d => (d <? now)%Z
     | None => false
     end
  then "closed"
  else if JS.ge (currentAttendees (registration this)) (maxAttendees (registration this))
  then (if waitingList (registration this) then "waitlist" else "full")
  else "open".

(** The virtual [availableSpots]. *)
Definition availableSpots (this : EventDoc) : Q :=
  JS.Math_max 0 (maxAttendees (registration this) - currentAttendees (registration this)).

(** The method [canRegister]; [now] is the instant it reads itself and
    [now'] the instant that the getter of [registrationStatus] reads. *)
Definition canRegister (now now' : Z) (this : EventDoc) : bool :=
  String.eqb (doc_status this) "published"
  && String.eqb (registrationStatus now' this) "open"
  && match deadline (registration this) with
     | Some d => (now <=? d)%Z
     | None => true
     end.

(** A registration document; the data that the route hands to
    [Registration.create] sets neither [paymentStatus] nor
    [paymentDetails] for the waiting list.  The student details of the
    request are carried along unread. *)
Record Registration : Type := {
  reg_event : string;
  reg_user : string;
  reg_status : string;
  paymentStatus : option string;
  paymentDetails : option (Q * string);
  studentDetails : string
}.

(** Which of the awaited store operations of the route reject. *)
Record Faults : Type := {
  event_findById_rejects : bool;
  registration_findOne_rejects : bool;
  registration_create_rejects : bool;
  event_update_rejects : bool;
  user_update_rejects : bool
}.

(** The collections that the route touches; [eventsAttended] is the
    counter [stats.eventsAttended] of each user. *)
Record Campus : Type := {
  events : list EventDoc;
  registrations : list Registration;
  eventsAttended : string -> Z;
  faults : Faults
}.

Record RegisterRequest : Type := {
  param_id : string;
  register_user : string;
  register_details : string;
  register_validation_errors : bool
}.

(** The answers of the route, by status and message; the text of the
    message of a 201 is left out. *)
Inductive RegisterResponse : Type :=
| RegisterValidationFailed
| EventNotFound
| RegistrationNotAvailable
| AlreadyRegistered
| AddedToWaitingList (registration : Registration)
| EventIsFull
| RegistrationSuccessful (registration : Registration) (paymentRequired : bool)
    (paymentAmount : Q) (paymentCurrency : string)
| RegisterServerError.

Definition register_status_code (r : RegisterResponse) : nat :=
  match r with
  | RegisterValidationFailed => 400
  | EventNotFound => 404
  | RegistrationNotAvailable => 400
  | AlreadyRegistered => 400
  | AddedToWaitingList _ => 200
  | EventIsFull => 400
  | RegistrationSuccessful _ _ _ _ => 201
  | RegisterServerError => 500
  end.

(** An awaited operation on the collections: it yields a value or
    throws, and leaves the collections in some state either way. *)
Definition action (A : Type) : Type := Campus -> result A * Campus.

(** [await Event.findById(id)] *)
Definition Event_findById (id : string) : action (option EventDoc) :=
  fun campus =>
    if event_findById_rejects (faults campus)
    then (Throw (Error "Event.findById rejected"), campus)
    else (Ok (find (fun e => String.eqb (doc_id e) id) (events campus)), campus).

(** The registration of [user] for [event], as a test on a document. *)
Definition registration_of (event user : string) (r : Registration) : bool :=
  String.eqb (reg_event r) event && String.eqb (reg_user r) user.

(** [await Registration.findOne({ event, user })] *)
Definition Registration_findOne (event user : string) : action (option Registration) :=
  fun campus =>
    if registration_findOne_rejects (faults campus)
    then (Throw (Error "Registration.findOne rejected"), campus)
    else (Ok (find (registration_of event user) (registrations campus)), campus).

(** What the schema makes of the data of a registration: a missing
    [paymentStatus] becomes ['not-required'], and missing payment details
    the amount 0 in ['INR']. *)
Definition stored_registration (data : Registration) : Registration :=
  {| reg_event := reg_event data;
     reg_user := reg_user data;
     reg_status := reg_status data;
     paymentStatus := Some match paymentStatus data with
                           | Some s => s
                           | None => "not-required"
                           end;
     paymentDetails := Some match paymentDetails data with
                            | Some d => d
                            | None => (0, "INR")
                            end;
     studentDetails := studentDetails data |}.

(** [await Registration.create(data)].  The schema declares the compound
    index [{ event: 1, user: 1 }] unique: the collection rejects a second
    registration of one user for one event. *)
Definition Registration_create (data : Registration) : action Registration :=
  fun campus =>
    if registration_create_rejects (faults campus)
       || existsb (registration_of (reg_event data) (reg_user data)) (registrations campus)
    then (Throw (Error "Registration.create rejected"), campus)
    else (Ok (stored_registration data),
          {| events := events campus;
             registrations := (registrations campus ++ [stored_registration data])%list;
             eventsAttended := eventsAttended campus;
             faults := faults campus |}).

Definition increment_attendees (e : EventDoc) : EventDoc :=
  {| doc_id := doc_id e;
     doc_status := doc_status e;
     registration :=
       {| deadline := deadline (registration e);
          currentAttendees := currentAttendees (registration e) + 1;
          maxAttendees := maxAttendees (registration e);
          waitingList := waitingList (registration e);
          approvalRequired := approvalRequired (registration e) |};
     pricing := pricing e |}.

(** The first document with the identifier is updated. *)
Fixpoint update_first (id : string) (es : list EventDoc) : list EventDoc :=
  match es with
  | [] => []
  | e :: rest =>
      if String.eqb (doc_id e) id then increment_attendees e :: rest
      else e :: update_first id rest
  end.

(** [await Event.findByIdAndUpdate(id,
      { $inc: { 'registration.currentAttendees': 1, ... } })]: the
    increment applies to the document as the collection holds it at that
    moment, whatever the handler has read before. *)
Definition Event_increment (id : string) : action unit :=
  fun campus =>
    if event_update_rejects (faults campus)
    then (Throw (Error "Event.findByIdAndUpdate rejected"), campus)
    else (Ok tt,
          {| events := update_first id (events campus);
             registrations := registrations campus;
             eventsAttended := eventsAttended campus;
             faults := faults campus |}).

(** [await req.user.updateOne({ $inc: { 'stats.eventsAttended': 1 } })] *)
Definition User_increment (user : string) : action unit :=
  fun campus =>
    if user_update_rejects (faults campus)
    then (Throw (Error "updateOne rejected"), campus)
    else (Ok tt,
          {| events := events campus;
             registrations := registrations campus;
             eventsAttended :=
               (fun u => if String.eqb u user
                         then (eventsAttended campus u + 1)%Z
                         else eventsAttended campus u);
             faults := faults campus |}).

(** [await emailService.send...(...)]: the collections are not touched. *)
Definition send_email : action unit :=
  fun campus => (Ok tt, campus).

(** *** The handler as a tree of awaited operations

    Between two [await]s a handler runs alone; while it waits, the
    handlers of other requests may run.  A handler is therefore given as
    the tree of its awaited operations, each with the code that resumes
    on the outcome of the operation, down to the answer. *)
Inductive Handler : Type :=
| Respond (response : RegisterResponse)
| Await {A : Type} (operation : action A) (resume : result A -> Handler).

(** [await operation] inside the [try] block of the route: a rejection is
    answered by its [catch] block, whatever has been written before. *)
Definition await {A : Type} (operation : action A) (k : A -> Handler) : Handler :=
  Await operation
        (fun outcome =>
           match outcome with
           | Ok a => k a
           | Throw error => Respond RegisterServerError
           end).

(** [await operation] inside a [try] of its own whose [catch] only
    logs. *)
Definition await_logged (operation : action unit) (k : Handler) : Handler :=
  Await operation (fun outcome => k).

Notation "x <~ m ;; k" := (await m (fun x => k))
  (at level 61, m at next level, right associativity).

(** The registration that the route creates for a free place. *)
Definition registration_data (req : RegisterRequest) (event : EventDoc) : Registration :=
  {| reg_event := doc_id event;
     reg_user := register_user req;
     reg_status := if approvalRequired (registration event) then "pending" else "confirmed";
     paymentStatus :=
       Some (if String.eqb (pricing_type (pricing event)) "free"
             then "not-required" else "pending");
     paymentDetails :=
       Some (if String.eqb (pricing_type (pricing event)) "free"
             then 0 else amount (pricing event),
             currency (pricing event));
     studentDetails := register_details req |}.

(** The handler of the route; [now] and [now'] are the two instants that
    [event.canRegister()] reads.  [event] is the document as
    [Event.findById] returned it: the later tests read this copy. *)
Definition register_handler (now now' : Z) (req : RegisterRequest) : Handler :=
  if register_validation_errors req then Respond RegisterValidationFailed
  else
    found <~ Event_findById (param_id req) ;;
    match found with
    | None => Respond EventNotFound
    | Some event =>
        if negb (canRegister now now' event) then Respond RegistrationNotAvailable
        else
          existingRegistration <~
            Registration_findOne (doc_id event) (register_user req) ;;
          match existingRegistration with
          | Some _ => Respond AlreadyRegistered
          | None =>
              if JS.ge (currentAttendees (registration event))
                       (maxAttendees (registration event))
              then
                if waitingList (registration event) then
                  registration <~
                    Registration_create
                      {| reg_event := doc_id event;
                         reg_user := register_user req;
                         reg_status := "waitlisted";
                         paymentStatus := None;
                         paymentDetails := None;
                         studentDetails := register_details req |} ;;
                  Respond (AddedToWaitingList registration)
                else Respond EventIsFull
              else
                registration <~ Registration_create (registration_data req event) ;;
                _ <~ Event_increment (doc_id event) ;;
                _ <~ User_increment (register_user req) ;;
                await_logged send_email
                  (await_logged send_email
                     (Respond
                        (RegistrationSuccessful registration
                           (negb (String.eqb (pricing_type (pricing event)) "free"))
                           (amount (pricing event)) (currency (pricing event)))))
          end
    end.

(** One turn of a handler: the operation it waits for takes effect on
    the collections as they are now, and the handler runs on to its next
    [await] or to its answer. *)
Definition step (h : Handler) (campus : Campus) : Handler * Campus :=
  match h with
  | Respond response => (Respond response, campus)
  | Await operation resume =>
      let (outcome, campus') := operation campus in (resume outcome, campus')
  end.

(** A handler that no other request interrupts. *)
Fixpoint run_alone (h : Handler) (campus : Campus) : RegisterResponse * Campus :=
  match h with
  | Respond response => (response, campus)
  | Await operation resume =>
      let (outcome, campus') := operation campus in run_alone (resume outcome) campus'
  end.

(** The route serving one request with no other request in between. *)
Definition post_register (now now' : Z) (req : RegisterRequest) (campus : Campus)
  : RegisterResponse * Campus :=
  run_alone (register_handler now now' req) campus.

(** Two handlers served together: the schedule says whose turn each
    turn is, [true] for the first handler. *)
Fixpoint interleave (schedule : list bool) (h1 h2 : Handler) (campus : Campus)
  : Handler * Handler * Campus :=
  match schedule with
  | [] => (h1, h2, campus)
  | true :: rest =>
      let (h1', campus') := step h1 campus in interleave rest h1' h2 campus'
  | false :: rest =>
      let (h2', campus') := step h2 campus in interleave rest h1 h2' campus'
  end.

(** The schedule of [n] rounds in which the two handlers take turns. *)
Fixpoint turn_by_turn (n : nat) : list bool :=
  match n with
  | O => []
  | S n' => true :: false :: turn_by_turn n'
  end.

(** ** Vocabulary of the further properties *)

(** The recurrence that the matrix of [levenshteinDistance] tabulates,
    read on the two texts from their last characters backwards: [lev p q]
    is the cell of the prefixes whose reversals are [p] and [q]. *)
Fixpoint lev (p : string) : string -> nat :=
  fix lev_p (q : string) : nat :=
    match p, q with
    | EmptyString, _ => String.length q
    | _, EmptyString => String.length p
    | String c p', String d q' =>
        if Ascii.eqb c d then lev p' q'
        else Nat.min (lev p' q' + 1) (Nat.min (lev_p q' + 1) (lev p' q + 1))
    end.

(** [rev_onto s acc] is the reversal of [s] followed by [acc]. *)
Fixpoint rev_onto (s acc : string) : string :=
  match s with
  | EmptyString => acc
  | String c s' => rev_onto s' (String c acc)
  end.

(** Row [i] of the matrix from the column of [q] on, where [p] is the
    reversed prefix of length [i] of the first text and [rest] holds the
    characters of the second text that follow the prefix reversed in
    [q]. *)
Fixpoint row_of (p q rest : string) : list nat :=
  lev p q ::
  match rest with
  | EmptyString => []
  | String d rest' => row_of p (String d q) rest'
  end.

(** The tiers in ascending order. *)
Definition tier_rank (c : ConfidenceLevel) : nat :=
  match c with
  | VERY_LOW => 0
  | LOW => 1
  | MEDIUM => 2
  | HIGH => 3
  | VERY_HIGH => 4
  end.

(** The venue carries coordinates that pass the test
    [coordinates && coordinates.latitude && coordinates.longitude]. *)
Definition has_coordinates (v : Venue) : bool :=
  match coordinates v with
  | Some c => truthy_coordinates c
  | None => false
  end.

(** The collections after each of the three writes of the route. *)
Definition with_registration (data : Registration) (campus : Campus) : Campus :=
  {| events := events campus;
     registrations := (registrations campus ++ [data])%list;
     eventsAttended := eventsAttended campus;
     faults := faults campus |}.

Definition with_attendee (id : string) (campus : Campus) : Campus :=
  {| events := update_first id (events campus);
     registrations := registrations campus;
     eventsAttended := eventsAttended campus;
     faults := faults campus |}.

Definition with_attended (user : string) (campus : Campus) : Campus :=
  {| events := events campus;
     registrations := registrations campus;
     eventsAttended :=
       (fun u => if String.eqb u user
                 then (eventsAttended campus u + 1)%Z
                 else eventsAttended campus u);
     faults := faults campus |}.

(** The event and the user of a registration. *)
Definition registered_pair (r : Registration) : string * string :=
  (reg_event r, reg_user r).

(** No event has more attendees than places. *)
Definition within_capacity (campus : Campus) : Prop :=
  Forall (fun e => currentAttendees (registration e) <= maxAttendees (registration e))
         (events campus).

(** A number is whole. *)
Definition whole (x : Q) : Prop := inject_Z (Qfloor x) == x.

(** The counts of every event are whole. *)
Definition whole_counts (campus : Campus) : Prop :=
  Forall (fun e => whole (currentAttendees (registration e))
                   /\ whole (maxAttendees (registration e)))
         (events campus).

(** Every operation that the handler may still await keeps [P]. *)
Fixpoint keeps (P : Campus -> Prop) (h : Handler) : Prop :=
  match h with
  | Respond _ => True
  | Await operation resume =>
      (forall campus, P campus -> P (snd (operation campus)))
      /\ forall outcome, keeps P (resume outcome)
  end.

(** No user is registered twice for one event. *)
Definition registered_once (campus : Campus) : Prop :=
  NoDup (map registered_pair (registrations campus)).

(** ** Concrete requests and collections for the further properties *)

Definition scenario_check : CheckRequest :=
  {| check_body := scenario_candidate 1000 EmptyString;
     check_excludeEventId := None;
     check_user_id := "u1";
     check_validation_errors := false |}.

(** A published event with one of its two places taken, and one with
    both taken and a waiting list. *)
Definition open_event : EventDoc :=
  {| doc_id := "e1";
     doc_status := "published";
     registration :=
       {| deadline := Some 1000%Z;
          currentAttendees := 1;
          maxAttendees := 2;
          waitingList := true;
          approvalRequired := false |};
     pricing := {| pricing_type := "paid"; amount := 250; currency := "INR" |} |}.

Definition full_event : EventDoc :=
  {| doc_id := "e2";
     doc_status := "published";
     registration :=
       {| deadline := Some 1000%Z;
          currentAttendees := 2;
          maxAttendees := 2;
          waitingList := true;
          approvalRequired := false |};
     pricing := {| pricing_type := "free"; amount := 0; currency := "INR" |} |}.

Definition no_faults : Faults :=
  {| event_findById_rejects := false;
     registration_findOne_rejects := false;
     registration_create_rejects := false;
     event_update_rejects := false;
     user_update_rejects := false |}.

Definition update_fault : Faults :=
  {| event_findById_rejects := false;
     registration_findOne_rejects := false;
     registration_create_rejects := false;
     event_update_rejects := true;
     user_update_rejects := false |}.

Definition example_campus (f : Faults) : Campus :=
  {| events := [open_event; full_event];
     registrations := [];
     eventsAttended := fun _ => 0%Z;
     faults := f |}.

Definition register_request (id : string) : RegisterRequest :=
  {| param_id := id;
     register_user := "u1";
     register_details := "details";
     register_validation_errors := false |}.

(** The request of another user. *)
Definition second_request (id : string) : RegisterRequest :=
  {| param_id := id;
     register_user := "u2";
     register_details := "details";
     register_validation_errors := false |}.

(** An event whose capacity is not whole: two of its two and a half
    places are taken. *)
Definition fractional_event : EventDoc :=
  {| doc_id := "e3";
     doc_status := "published";
     registration :=
       {| deadline := Some 1000%Z;
          currentAttendees := 2;
          maxAttendees := 5 # 2;
          waitingList := false;
          approvalRequired := false |};
     pricing := {| pricing_type := "free"; amount := 0; currency := "INR" |} |}.

Definition fractional_campus : Campus :=
  {| events := [fractional_event];
     registrations := [];
     eventsAttended := fun _ => 0%Z;
     faults := no_faults |}.

(** A stored event that agrees with the candidate of [scenario_request]
    on every scored field, and a store that holds it. *)
Definition twin_stored : Event :=
  {| event_id := "twin";
     status := "published";
     title := "AI Workshop 2024";
     description := "Learn about AI and ML for 2 hours";
     category := "technology";
     venue := Some scenario_venue;
     dateTime := Some {| start := 1000; finish := 1000 + 7200000 |};
     organizer := Some "u1" |}.

Definition store_with_twin : Store :=
  {| docs := [scenario_stored 0 "u2"; twin_stored];
     eventsCreated := fun _ => 0%Z;
     find_rejects := false;
     create_rejects := false;
     populate_rejects := false;
     stats_update_rejects := false;
     fresh_id := "new" |}.

(** A store on which [populate] rejects. *)
Definition store_without_populate : Store :=
  {| docs := [];
     eventsCreated := fun _ => 0%Z;
     find_rejects := false;
     create_rejects := false;
     populate_rejects := true;
     stats_update_rejects := false;
     fresh_id := "new" |}.

(** A valid request that skips the check and asks for the status
    ['published']. *)
Definition skipping_request : Request :=
  {| body := twin_stored;
     body_has_id := false;
     body_has_status := true;
     body_sets_maxAttendees := false;
     skipDuplicateCheck := true;
     user_id := "u1";
     validation_errors := false |}.

(** What the answers of the two routes say about blocking. *)
Definition advisory_blocks (response : CheckResponse) : bool :=
  match response with
  | CheckReport _ _ _ _ recommendations => shouldBlock recommendations
  | _ => false
  end.

(** * Properties *)

(** ** The built-ins on small inputs *)

Example normalize_strips_punctuation :
  normalize "  AI Workshop 2024! " = "ai workshop 2024".
Proof. reflexivity. Qed.

Example split_keeps_empty_ends :
  JS.split_ws " a  b " = [EmptyString; "a"; "b"; EmptyString].
Proof. reflexivity. Qed.

Example words_keep_punctuation :
  words "AI Workshop 2024! workshop" = ["workshop"; "2024!"].
Proof. reflexivity. Qed.

Example round_half_up : JS.Math_round (5 # 2) = 3%Z /\ JS.Math_round (-5 # 2) = (-2)%Z.
Proof. split; reflexivity. Qed.

Example matrix_ab_abc :
  levenshtein_matrix "ab" "abc" = [[0; 1; 2; 3]; [1; 0; 1; 2]; [2; 1; 0; 1]]%nat.
Proof. reflexivity. Qed.

(** ** Sets of strings *)

Lemma has_In (set : list string) (x : string) :
  JS.has set x = true <-> In x set.
Proof.
  unfold JS.has. rewrite existsb_exists. split.
  - intros [y [Hy Heq]]. apply String.eqb_eq in Heq. now subst.
  - intros H. exists x. split; [assumption | apply String.eqb_refl].
Qed.

Lemma add_In (set : list string) (x y : string) :
  In y (JS.add set x) <-> In y set \/ y = x.
Proof.
  unfold JS.add. destruct (JS.has set x) eqn:E.
  - apply has_In in E. split; [tauto | intros [H | ->]; assumption].
  - rewrite in_app_iff. simpl. intuition (subst; auto).
Qed.

Lemma add_NoDup (set : list string) (x : string) :
  NoDup set -> NoDup (JS.add set x).
Proof.
  intros H. unfold JS.add. destruct (JS.has set x) eqn:E; [assumption |].
  assert (Hx : ~ In x set).
  { intros Hin. apply has_In in Hin. congruence. }
  clear E. induction H as [| y l Hy Hl IH]; simpl.
  - constructor; [intros [] | constructor].
  - constructor.
    + rewrite in_app_iff. simpl. intros [Hin | [-> | []]].
      * contradiction.
      * apply Hx. now left.
    + apply IH. intros Hin. apply Hx. now right.
Qed.

Lemma fold_add_In (xs acc : list string) (y : string) :
  In y (fold_left JS.add xs acc) <-> In y acc \/ In y xs.
Proof.
  revert acc. induction xs as [| x xs IH]; intros acc; simpl.
  - tauto.
  - rewrite IH, add_In. split; intros H; intuition (subst; auto).
Qed.

Lemma fold_add_NoDup (xs acc : list string) :
  NoDup acc -> NoDup (fold_left JS.add xs acc).
Proof.
  revert acc. induction xs as [| x xs IH]; intros acc H; simpl.
  - assumption.
  - apply IH. now apply add_NoDup.
Qed.

Lemma new_Set_In (xs : list string) (y : string) :
  In y (JS.new_Set xs) <-> In y xs.
Proof.
  unfold JS.new_Set. rewrite fold_add_In. simpl. tauto.
Qed.

Lemma new_Set_NoDup (xs : list string) : NoDup (JS.new_Set xs).
Proof. unfold JS.new_Set. apply fold_add_NoDup. constructor. Qed.

Lemma new_Set_same_size (xs ys : list string) :
  (forall y, In y xs <-> In y ys) ->
  JS.size (JS.new_Set xs) = JS.size (JS.new_Set ys).
Proof.
  intros H. unfold JS.size. apply Nat.le_antisymm;
    apply NoDup_incl_length; try apply new_Set_NoDup;
    intros y Hy; rewrite new_Set_In in *.
  - now apply (proj1 (H y)).
  - now apply (proj2 (H y)).
Qed.

Lemma new_Set_size_le (xs ys : list string) :
  incl xs ys -> (JS.size (JS.new_Set xs) <= JS.size (JS.new_Set ys))%nat.
Proof.
  intros H. unfold JS.size. apply NoDup_incl_length.
  - apply new_Set_NoDup.
  - intros y Hy. rewrite new_Set_In in *. now apply H.
Qed.

(** ** Arithmetic on sizes *)

Lemma num_nonneg (n : nat) : 0 <= JS.num n.
Proof.
  unfold JS.num. change 0 with (inject_Z 0). rewrite <- Zle_Qle. lia.
Qed.

Lemma num_pos (n : nat) : (0 < n)%nat -> 0 < JS.num n.
Proof.
  intros H. unfold JS.num. change 0 with (inject_Z 0). rewrite <- Zlt_Qlt. lia.
Qed.

Lemma num_le (a b : nat) : (a <= b)%nat -> JS.num a <= JS.num b.
Proof. intros H. unfold JS.num. rewrite <- Zle_Qle. lia. Qed.

Lemma ratio_bounds (a b : nat) :
  (a <= b)%nat -> (0 < b)%nat -> 0 <= JS.num a / JS.num b <= 1.
Proof.
  intros Hab Hb. pose proof (num_pos b Hb) as Hpos. split.
  - apply Qle_shift_div_l; [assumption |]. rewrite Qmult_0_l. apply num_nonneg.
  - apply Qle_shift_div_r; [assumption |]. rewrite Qmult_1_l. now apply num_le.
Qed.

Lemma ratio_self (b : nat) : (0 < b)%nat -> JS.num b / JS.num b == 1.
Proof.
  intros Hb. apply Qmult_inv_r. intros H.
  pose proof (num_pos b Hb) as Hpos. rewrite H in Hpos. discriminate.
Qed.

(** ** Every cell [matrix[i][j]] is at most [max i j] *)

Lemma bounded_nth (i j k : nat) (row : list nat) :
  bounded i j row -> (k < List.length row)%nat ->
  (nth k row 0%nat <= Nat.max i (j + k))%nat.
Proof.
  revert j k. induction row as [| cell rest IH]; intros j k Hb Hk; simpl in *.
  - lia.
  - destruct Hb as [Hc Hr]. destruct k as [| k].
    + now rewrite Nat.add_0_r.
    + replace (j + S k)%nat with (S j + k)%nat by lia. apply IH; [assumption | lia].
Qed.

Lemma bounded_seq (j n : nat) : bounded 0 j (seq j n).
Proof.
  revert j. induction n as [| n IH]; intros j; simpl; [exact I |].
  split; [lia | apply IH].
Qed.

Lemma fill_row_length (c : ascii) (str2 : string) (up : list nat) (left : nat) :
  List.length up = S (String.length str2) ->
  List.length (fill_row c str2 up left) = String.length str2.
Proof.
  revert up left. induction str2 as [| c2 str2 IH]; intros up left Hlen; simpl in *.
  - reflexivity.
  - destruct up as [| diag [| above up']]; simpl in *; try discriminate.
    f_equal. apply IH. simpl. lia.
Qed.

Lemma fill_row_bounded (c : ascii) (str2 : string) (up : list nat) (left i j : nat) :
  List.length up = S (String.length str2) ->
  bounded i j up ->
  (left <= Nat.max (S i) j)%nat ->
  bounded (S i) (S j) (fill_row c str2 up left).
Proof.
  revert up left j. induction str2 as [| c2 str2 IH]; intros up left j Hlen Hup Hleft;
    simpl in *.
  - exact I.
  - destruct up as [| diag [| above up']]; simpl in *; try discriminate.
    destruct Hup as [Hdiag Hup'].
    assert (Hcell : ((if Ascii.eqb c c2 then diag
                      else Nat.min (diag + 1) (Nat.min (left + 1) (above + 1)))
                     <= Nat.max (S i) (S j))%nat).
    { destruct (Ascii.eqb c c2); lia. }
    split; [exact Hcell |].
    apply IH; [simpl; lia | exact Hup' | exact Hcell].
Qed.

Lemma fill_rows_nth (str1 str2 : string) (prev : list nat) (i k : nat) :
  List.length prev = S (String.length str2) ->
  bounded i 0 prev ->
  (k < String.length str1)%nat ->
  List.length (nth k (fill_rows str1 str2 prev (S i)) []) = S (String.length str2)
  /\ bounded (S i + k) 0 (nth k (fill_rows str1 str2 prev (S i)) []).
Proof.
  revert prev i k. induction str1 as [| c str1 IH]; intros prev i k Hlen Hprev Hk;
    simpl in *; [lia |].
  assert (Hrow_len : List.length (S i :: fill_row c str2 prev (S i))
                     = S (String.length str2)).
  { simpl. f_equal. now apply fill_row_length. }
  assert (Hrow : bounded (S i) 0 (S i :: fill_row c str2 prev (S i))).
  { simpl. split; [lia |]. apply fill_row_bounded; [assumption | assumption | lia]. }
  destruct k as [| k].
  - rewrite Nat.add_0_r. split; assumption.
  - replace (S (i + S k)) with (S (S i) + k)%nat by lia.
    apply IH; [assumption | assumption | lia].
Qed.

Lemma levenshteinDistance_le_max (str1 str2 : string) :
  (levenshteinDistance str1 str2
   <= Nat.max (String.length str1) (String.length str2))%nat.
Proof.
  unfold levenshteinDistance, levenshtein_matrix.
  destruct (String.length str1) as [| k] eqn:E1.
  - cbn [nth]. rewrite seq_nth by lia. lia.
  - cbn [nth].
    destruct (fill_rows_nth str1 str2 (seq 0 (S (String.length str2))) 0 k)
      as [Hlen Hb].
    + now rewrite length_seq.
    + apply bounded_seq.
    + lia.
    + pose proof (bounded_nth _ _ (String.length str2) _ Hb) as H.
      rewrite Hlen in H. specialize (H (Nat.lt_succ_diag_r _)).
      simpl in H. exact H.
Qed.

Example levenshtein_kitten_sitting : levenshteinDistance "kitten" "sitting" = 3%nat.
Proof. reflexivity. Qed.

(** ** Comparisons *)

Lemma ge_spec (a b : Q) : JS.ge a b = true <-> b <= a.
Proof. unfold JS.ge. apply Qle_bool_iff. Qed.

Lemma ge_false (a b : Q) : JS.ge a b = false <-> a < b.
Proof.
  unfold JS.ge. split; intros H.
  - apply Qnot_le_lt. intros Hle. apply Qle_bool_iff in Hle. congruence.
  - destruct (Qle_bool b a) eqn:E; [| reflexivity].
    apply Qle_bool_iff in E. exfalso. exact (Qlt_not_le _ _ H E).
Qed.

Lemma gt_spec (a b : Q) : JS.gt a b = true <-> b < a.
Proof.
  unfold JS.gt. rewrite negb_true_iff. exact (ge_false b a).
Qed.

(** ** Words of a text *)

Lemma lower_char_is_space (c : ascii) :
  JS.is_space (JS.lower_char c) = JS.is_space c.
Proof. destruct c as [[] [] [] [] [] [] [] []]; reflexivity. Qed.

(** Lower-casing does not shorten a text. *)
Lemma toLowerCase_not_shorter (s : string) :
  (String.length s <= String.length (JS.toLowerCase s))%nat.
Proof. induction s as [| c s IH]; simpl; lia. Qed.

Lemma toLowerCase_app (a b : string) :
  JS.toLowerCase (a ++ b) = JS.toLowerCase a ++ JS.toLowerCase b.
Proof. induction a as [| c a IH]; simpl; congruence. Qed.

Lemma split_from_toLowerCase (cur : string) (in_run : bool) (s : string) :
  JS.split_from (JS.toLowerCase cur) in_run (JS.toLowerCase s)
  = map JS.toLowerCase (JS.split_from cur in_run s).
Proof.
  revert cur in_run. induction s as [| c s IH]; intros cur in_run; simpl.
  - reflexivity.
  - rewrite lower_char_is_space. destruct (JS.is_space c).
    + destruct in_run; simpl; [apply (IH EmptyString) | f_equal; apply (IH EmptyString)].
    + rewrite <- IH. f_equal. now rewrite toLowerCase_app.
Qed.

Lemma long_pieces_survive (pieces : list string) :
  existsb (fun word => (2 <? String.length word)%nat) pieces = true ->
  existsb (fun word => (2 <? String.length word)%nat) (map JS.toLowerCase pieces) = true.
Proof.
  induction pieces as [| w pieces IH]; cbn [existsb map]; [discriminate |].
  intros H. apply orb_true_iff in H. apply orb_true_iff. destruct H as [H | H].
  - left. apply Nat.ltb_lt in H. apply Nat.ltb_lt.
    pose proof (toLowerCase_not_shorter w). lia.
  - right. now apply IH.
Qed.

Lemma new_Set_nil (xs : list string) : JS.new_Set xs = [] <-> xs = [].
Proof.
  split.
  - intros H. destruct xs as [| x xs]; [reflexivity |].
    assert (Hx : In x (JS.new_Set (x :: xs))) by (apply new_Set_In; now left).
    rewrite H in Hx. destruct Hx.
  - intros ->. reflexivity.
Qed.

(** A piece of more than two characters is still one in the lower-cased
    text. *)
Lemma long_word_survives (text : string) :
  has_long_word text = true -> has_long_word (JS.toLowerCase text) = true.
Proof.
  unfold has_long_word, JS.split_ws. intros H.
  change EmptyString with (JS.toLowerCase EmptyString) at 1.
  rewrite split_from_toLowerCase. now apply long_pieces_survive.
Qed.

Lemma no_long_piece (pieces : list string) :
  filter (fun word => (2 <? String.length word)%nat) pieces = []
  <-> existsb (fun word => (2 <? String.length word)%nat) pieces = false.
Proof.
  induction pieces as [| w pieces IH]; cbn [filter existsb]; [tauto |].
  destruct (2 <? String.length w)%nat; cbn [orb]; [split; discriminate | exact IH].
Qed.

(** The word set of a text is empty exactly when its lower-cased form has
    no piece of more than two characters; nothing is used of what
    lower-casing does. *)
Lemma words_nil_lowered (text : string) :
  words text = [] <-> has_long_word (JS.toLowerCase text) = false.
Proof.
  unfold words, has_long_word. rewrite new_Set_nil. apply no_long_piece.
Qed.

Lemma words_NoDup (text : string) : NoDup (words text).
Proof. apply new_Set_NoDup. Qed.

(** ** calculateTextSimilarity *)

Lemma calculateTextSimilarity_bounds (text1 text2 : string) :
  0 <= calculateTextSimilarity text1 text2 <= 1.
Proof.
  unfold calculateTextSimilarity.
  destruct (JS.falsy text1 || JS.falsy text2); [split; discriminate |].
  destruct (String.eqb (normalize text1) (normalize text2)); [split; discriminate |].
  destruct (Nat.eqb_spec
              (Nat.max (String.length (normalize text1)) (String.length (normalize text2)))
              0) as [_ | Hmax]; [split; discriminate |].
  pose proof (levenshteinDistance_le_max (normalize text1) (normalize text2)) as Hd.
  pose proof (ratio_bounds _ _ Hd ltac:(lia)) as [Hlo Hhi].
  split; lra.
Qed.

Lemma calculateTextSimilarity_self (text : string) :
  calculateTextSimilarity text text = if JS.falsy text then 0 else 1.
Proof.
  unfold calculateTextSimilarity. destruct (JS.falsy text); simpl; [reflexivity |].
  now rewrite String.eqb_refl.
Qed.

(** ** calculateJaccardSimilarity *)

Lemma calculateJaccardSimilarity_bounds (text1 text2 : string) :
  0 <= calculateJaccardSimilarity text1 text2 <= 1.
Proof.
  unfold calculateJaccardSimilarity.
  destruct (JS.falsy text1 || JS.falsy text2); [split; discriminate |].
  destruct (Nat.eqb_spec (JS.size (JS.new_Set (words text1 ++ words text2))) 0)
    as [_ | Hu]; [split; discriminate |].
  apply ratio_bounds; [| lia].
  apply new_Set_size_le. intros w Hw. apply filter_In in Hw.
  apply in_or_app. left. tauto.
Qed.

Lemma jaccard_self_sizes (ws : list string) :
  JS.size (JS.new_Set (filter (JS.has ws) ws)) = JS.size (JS.new_Set (ws ++ ws)).
Proof.
  apply new_Set_same_size. intros w. rewrite filter_In, in_app_iff, has_In. tauto.
Qed.

Lemma calculateJaccardSimilarity_self_lowered (text : string) :
  calculateJaccardSimilarity text text
  == if JS.falsy text then 0
     else if has_long_word (JS.toLowerCase text) then 1 else 0.
Proof.
  unfold calculateJaccardSimilarity.
  destruct (JS.falsy text); cbn [orb]; [reflexivity |].
  rewrite jaccard_self_sizes.
  destruct (has_long_word (JS.toLowerCase text)) eqn:Hlong.
  - destruct (Nat.eqb_spec (JS.size (JS.new_Set (words text ++ words text))) 0)
      as [Hz | Hnz].
    + exfalso. unfold JS.size in Hz. apply length_zero_iff_nil in Hz.
      apply (proj1 (new_Set_nil _)) in Hz. apply app_eq_nil in Hz.
      destruct Hz as [Hz _]. apply (proj1 (words_nil_lowered _)) in Hz. congruence.
    + apply ratio_self. lia.
  - apply (proj2 (words_nil_lowered _)) in Hlong. rewrite Hlong. reflexivity.
Qed.

(** ** calculateCombinedSimilarity *)

Lemma calculateCombinedSimilarity_bounds (text1 text2 : string) :
  0 <= calculateCombinedSimilarity text1 text2 <= 1.
Proof.
  unfold calculateCombinedSimilarity.
  pose proof (calculateTextSimilarity_bounds text1 text2) as [? ?].
  pose proof (calculateJaccardSimilarity_bounds text1 text2) as [? ?].
  split; lra.
Qed.

Lemma calculateCombinedSimilarity_long_word (text : string) :
  has_long_word text = true -> calculateCombinedSimilarity text text == 1.
Proof.
  intros Hlong. unfold calculateCombinedSimilarity.
  rewrite calculateTextSimilarity_self, calculateJaccardSimilarity_self_lowered.
  rewrite (long_word_survives _ Hlong).
  destruct text as [| c text]; [discriminate |]. reflexivity.
Qed.

(** C6 (as the code has it): the similarity of a text with itself is 1
    when the lower-cased text, from which the code takes the words, has a
    white-space delimited piece of more than two characters; it is 0.6
    for any other non-empty text, whose word set is empty, and 0 for the
    empty text, which the guard [!text1 || !text2] answers before any
    normalisation. *)
Theorem combined_similarity_of_a_text_with_itself (s : string) :
  calculateCombinedSimilarity s s
  == if JS.falsy s then 0
     else if has_long_word (JS.toLowerCase s) then 1 else 6 # 10.
Proof.
  unfold calculateCombinedSimilarity.
  rewrite calculateTextSimilarity_self, calculateJaccardSimilarity_self_lowered.
  destruct (JS.falsy s); [reflexivity |].
  destruct (has_long_word (JS.toLowerCase s)); reflexivity.
Qed.

(** C6 fails as stated: the empty text and the text ["AI"] are not at
    similarity 1 with themselves. *)
Lemma combined_similarity_self_not_always_one :
  calculateCombinedSimilarity EmptyString EmptyString == 0
  /\ calculateCombinedSimilarity "AI" "AI" == 6 # 10
  /\ ~ (forall s : string, calculateCombinedSimilarity s s == 1).
Proof.
  split; [reflexivity | split; [reflexivity |]].
  intros H. specialize (H EmptyString). discriminate H.
Qed.

(** ** getConfidenceLevel *)

Ltac by_breakpoints :=
  repeat match goal with
         | H : JS.ge _ _ = true |- _ => apply ge_spec in H
         | H : JS.ge _ _ = false |- _ => apply ge_false in H
         end;
  split; intros; try discriminate; try reflexivity; try lra.

(** C7: the tier of a probability is fixed by the breakpoints 0.9, 0.8,
    0.6 and 0.4, each of which belongs to the tier above it. *)
Theorem confidence_level_breakpoints (p : Q) :
  (getConfidenceLevel p = VERY_HIGH <-> 9 # 10 <= p)
  /\ (getConfidenceLevel p = HIGH <-> 8 # 10 <= p /\ p < 9 # 10)
  /\ (getConfidenceLevel p = MEDIUM <-> 6 # 10 <= p /\ p < 8 # 10)
  /\ (getConfidenceLevel p = LOW <-> 4 # 10 <= p /\ p < 6 # 10)
  /\ (getConfidenceLevel p = VERY_LOW <-> p < 4 # 10)
  /\ getConfidenceLevel (9 # 10) = VERY_HIGH
  /\ getConfidenceLevel (89999 # 100000) = HIGH
  /\ getConfidenceLevel (8 # 10) = HIGH
  /\ getConfidenceLevel (6 # 10) = MEDIUM
  /\ getConfidenceLevel (4 # 10) = LOW
  /\ getConfidenceLevel (39999 # 100000) = VERY_LOW.
Proof.
  unfold getConfidenceLevel.
  destruct (JS.ge p (9 # 10)) eqn:E9;
    [| destruct (JS.ge p (8 # 10)) eqn:E8;
       [| destruct (JS.ge p (6 # 10)) eqn:E6;
          [| destruct (JS.ge p (4 # 10)) eqn:E4 ] ] ];
    repeat match goal with
           | |- _ /\ _ => split
           end;
    try reflexivity; by_breakpoints.
Qed.

Lemma getConfidenceLevel_very_high (p : Q) :
  9 # 10 <= p -> getConfidenceLevel p = VERY_HIGH.
Proof.
  intros H. unfold getConfidenceLevel.
  now rewrite (proj2 (ge_spec p (9 # 10)) H).
Qed.

(** ** calculateDateProximity *)

Lemma diffDays_as_quotient (diffTime : Z) :
  JS.Math_ceil (inject_Z diffTime / inject_Z (1000 * 60 * 60 * 24))
  = (- ((- diffTime) / ms_per_day))%Z.
Proof.
  unfold JS.Math_ceil, Qceiling, Qfloor, ms_per_day. cbn.
  rewrite Z.mul_1_r. reflexivity.
Qed.

Lemma calculateDateProximity_bounds (date1 date2 : Z) :
  0 <= calculateDateProximity date1 date2 <= 1.
Proof.
  unfold calculateDateProximity. rewrite diffDays_as_quotient.
  set (days := (- ((- Z.abs (date1 - date2)) / ms_per_day))%Z).
  assert (Hdays : (0 <= days)%Z).
  { subst days. unfold ms_per_day. pose proof (Z.abs_nonneg (date1 - date2)).
    Z.to_euclidean_division_equations. lia. }
  destruct (Z.eqb_spec days 0) as [_ | Hnz]; [split; discriminate |].
  unfold dateProximityDays.
  destruct (Z.gtb_spec days 7) as [_ | Hle]; [split; discriminate |].
  assert (H0 : 0 <= inject_Z days) by (change 0 with (inject_Z 0); rewrite <- Zle_Qle; lia).
  assert (H7 : inject_Z days <= 7) by (change 7 with (inject_Z 7); rewrite <- Zle_Qle; lia).
  change (inject_Z 7) with 7.
  assert (Hlo : 0 <= inject_Z days / 7) by (apply Qle_shift_div_l; lra).
  assert (Hhi : inject_Z days / 7 <= 1) by (apply Qle_shift_div_r; lra).
  split; lra.
Qed.

Lemma calculateDateProximity_shift (t delta : Z) :
  (0 <= delta)%Z ->
  calculateDateProximity t (t + delta) = calculateDateProximity 0 delta.
Proof.
  intros H. unfold calculateDateProximity.
  replace (Z.abs (t - (t + delta))) with delta by lia.
  replace (Z.abs (0 - delta)) with delta by lia.
  reflexivity.
Qed.

Lemma calculateDateProximity_same (t : Z) : calculateDateProximity t t = 1.
Proof.
  unfold calculateDateProximity. rewrite Z.sub_diag. reflexivity.
Qed.

(** C9 (as the code has it): with [days] the number of started days
    between the two instants, the proximity is 1 for no day, 0 for more
    than seven days and [1 - days/7] in between.  Two equal instants are
    at proximity 1, instants eight days apart at proximity 0, and
    instants three and a half days apart at proximity 3/7, because the
    half day counts as a fourth day. *)
Theorem date_proximity_by_days (t1 t2 : Z) :
  let days := JS.Math_ceil (inject_Z (Z.abs (t1 - t2)) / inject_Z 86400000) in
  calculateDateProximity t1 t2
  == (if (days =? 0)%Z then 1
      else if (7 <? days)%Z then 0
      else 1 - inject_Z days / 7)
  /\ ((days - 1) * 86400000 < Z.abs (t1 - t2) <= days * 86400000)%Z
  /\ calculateDateProximity t1 t1 == 1
  /\ calculateDateProximity t1 (t1 + 8 * 86400000) == 0
  /\ calculateDateProximity t1 (t1 + 302400000) == 3 # 7.
Proof.
  intros days. repeat split.
  - unfold calculateDateProximity, dateProximityDays. fold days.
    rewrite Z.gtb_ltb. change (inject_Z 7) with 7. reflexivity.
  - subst days. change 86400000%Z with (1000 * 60 * 60 * 24)%Z at 1.
    rewrite diffDays_as_quotient. unfold ms_per_day.
    Z.to_euclidean_division_equations. lia.
  - subst days. change 86400000%Z with (1000 * 60 * 60 * 24)%Z at 1.
    rewrite diffDays_as_quotient. unfold ms_per_day.
    Z.to_euclidean_division_equations. lia.
  - rewrite calculateDateProximity_same. reflexivity.
  - rewrite calculateDateProximity_shift by lia. reflexivity.
  - rewrite calculateDateProximity_shift by lia. reflexivity.
Qed.

(** C9 fails as stated: three and a half days apart the proximity is
    3/7, which is not 1/2 and misses it by more than 0.05. *)
Lemma date_proximity_half_week_is_not_a_half :
  calculateDateProximity 0 302400000 == 3 # 7
  /\ ~ calculateDateProximity 0 302400000 == 1 # 2
  /\ 5 # 100 < Qabs (calculateDateProximity 0 302400000 - (1 # 2)).
Proof.
  split; [reflexivity | split; [| reflexivity]].
  intros H. discriminate H.
Qed.

(** ** Scoring a pair *)

Section Scoring.

Variable calculateDistance : Q -> Q -> Q -> Q -> Q.

Hypothesis calculateDistance_nonneg :
  forall lat1 lon1 lat2 lon2, 0 <= calculateDistance lat1 lon1 lat2 lon2.

Lemma geoProximity_bounds (venue1 venue2 : Venue) :
  0 <= geoProximity calculateDistance venue1 venue2 <= 1.
Proof.
  unfold geoProximity.
  destruct (coordinates venue1) as [c1 |]; [| split; discriminate].
  destruct (coordinates venue2) as [c2 |]; [| split; discriminate].
  destruct (truthy_coordinates c1 && truthy_coordinates c2); [| split; discriminate].
  set (d := calculateDistance _ _ _ _).
  pose proof (calculateDistance_nonneg (latitude c1) (longitude c1)
                (latitude c2) (longitude c2)) as Hd. fold d in Hd.
  unfold venueProximityKm.
  destruct (Qle_bool d 5) eqn:E; [| split; discriminate].
  apply Qle_bool_iff in E.
  assert (Hlo : 0 <= d / 5) by (apply Qle_shift_div_l; lra).
  assert (Hhi : d / 5 <= 1) by (apply Qle_shift_div_r; lra).
  split; lra.
Qed.

Lemma addressSimilarity_bounds (venue1 venue2 : Venue) :
  0 <= addressSimilarity venue1 venue2 <= 1.
Proof.
  unfold addressSimilarity.
  destruct (address venue1); [| split; discriminate].
  destruct (address venue2); [| split; discriminate].
  apply calculateCombinedSimilarity_bounds.
Qed.

Lemma calculateVenueProximity_bounds (venue1 venue2 : Venue) :
  0 <= calculateVenueProximity calculateDistance venue1 venue2 <= 1.
Proof.
  unfold calculateVenueProximity.
  pose proof (calculateCombinedSimilarity_bounds (name venue1) (name venue2)) as [? ?].
  pose proof (geoProximity_bounds venue1 venue2) as [? ?].
  pose proof (addressSimilarity_bounds venue1 venue2) as [? ?].
  split; lra.
Qed.

Lemma well_formed_fields (e : Event) :
  well_formed e = true ->
  exists v dt o, venue e = Some v /\ dateTime e = Some dt /\ organizer e = Some o.
Proof.
  unfold well_formed. intros H.
  destruct (venue e) as [v |]; [| discriminate].
  destruct (dateTime e) as [dt |]; [| discriminate].
  destruct (organizer e) as [o |]; [| discriminate].
  now exists v, dt, o.
Qed.

(** C8: for two events that carry a venue, a start and an organizer, the
    pair is scored, the probability and the six factors lie between 0 and
    1, the category and organizer factors are 0 or 1, and the probability
    is the sum of the factors under weights 0.35, 0.20, 0.15, 0.15, 0.10
    and 0.05, which add up to 1. *)
Theorem probability_within_unit_interval (event1 event2 : Event) :
  well_formed event1 = true ->
  well_formed event2 = true ->
  exists a,
    calculateDuplicateProbability calculateDistance event1 event2 = Ok a
    /\ 0 <= probability a <= 1
    /\ 0 <= titleSimilarity (factors a) <= 1
    /\ 0 <= descriptionSimilarity (factors a) <= 1
    /\ 0 <= dateProximity (factors a) <= 1
    /\ 0 <= venueProximity (factors a) <= 1
    /\ (categoryMatch (factors a) = 0 \/ categoryMatch (factors a) = 1)
    /\ (organizerMatch (factors a) = 0 \/ organizerMatch (factors a) = 1)
    /\ probability a
       == (35 # 100) * titleSimilarity (factors a)
          + (20 # 100) * descriptionSimilarity (factors a)
          + (15 # 100) * dateProximity (factors a)
          + (15 # 100) * venueProximity (factors a)
          + (10 # 100) * categoryMatch (factors a)
          + (5 # 100) * organizerMatch (factors a)
    /\ (35 # 100) + (20 # 100) + (15 # 100) + (15 # 100) + (10 # 100) + (5 # 100) == 1.
Proof.
  intros H1 H2.
  destruct (well_formed_fields _ H1) as (v1 & dt1 & o1 & Hv1 & Hdt1 & Ho1).
  destruct (well_formed_fields _ H2) as (v2 & dt2 & o2 & Hv2 & Hdt2 & Ho2).
  unfold calculateDuplicateProbability.
  rewrite Hv1, Hv2, Hdt1, Hdt2, Ho1, Ho2. cbn [deref bind].
  eexists. split; [reflexivity |]. cbn [probability factors titleSimilarity
    descriptionSimilarity dateProximity venueProximity categoryMatch organizerMatch].
  pose proof (calculateCombinedSimilarity_bounds (title event1) (title event2)) as [? ?].
  pose proof (calculateCombinedSimilarity_bounds (description event1)
                (description event2)) as [? ?].
  pose proof (calculateDateProximity_bounds (start dt1) (start dt2)) as [? ?].
  pose proof (calculateVenueProximity_bounds v1 v2) as [? ?].
  unfold w_title, w_description, w_date, w_venue, w_category, w_organizer.
  destruct (String.eqb (category event1) (category event2));
    destruct (String.eqb o1 o2);
    repeat split; try lra; try (left; reflexivity); try (right; reflexivity);
    try reflexivity.
Qed.

(** C1 (as the code has it): two events with the same title, description
    and venue name, each of which has a word of more than two characters,
    and with the same start, category and organizer, are scored
    [0.925 + 0.045 * geoProximity + 0.03 * addressSimilarity]: at least
    0.925, at most 1, and exactly 0.925 when the first venue has neither
    coordinates nor address.  The tier of that probability is
    VERY_HIGH. *)
Theorem identical_events_score (event1 event2 : Event) (venue1 venue2 : Venue)
  (dt1 dt2 : DateTime) (o : string) :
  venue event1 = Some venue1 -> venue event2 = Some venue2 ->
  dateTime event1 = Some dt1 -> dateTime event2 = Some dt2 ->
  organizer event1 = Some o -> organizer event2 = Some o ->
  title event1 = title event2 ->
  description event1 = description event2 ->
  name venue1 = name venue2 ->
  start dt1 = start dt2 ->
  category event1 = category event2 ->
  has_long_word (title event1) = true ->
  has_long_word (description event1) = true ->
  has_long_word (name venue1) = true ->
  exists a,
    calculateDuplicateProbability calculateDistance event1 event2 = Ok a
    /\ probability a
       == (37 # 40)
          + (9 # 200) * geoProximity calculateDistance venue1 venue2
          + (3 # 100) * addressSimilarity venue1 venue2
    /\ 37 # 40 <= probability a <= 1
    /\ (coordinates venue1 = None -> address venue1 = None -> probability a == 37 # 40)
    /\ getConfidenceLevel (probability a) = VERY_HIGH.
Proof.
  intros Hv1 Hv2 Hdt1 Hdt2 Ho1 Ho2 Ht Hd Hn Hs Hc Lt Ld Ln.
  unfold calculateDuplicateProbability.
  rewrite Hv1, Hv2, Hdt1, Hdt2, Ho1, Ho2. cbn [deref bind].
  eexists. split; [reflexivity |]. cbn [probability].
  rewrite <- Ht, <- Hd, <- Hs, <- Hc.
  rewrite calculateDateProximity_same, !String.eqb_refl.
  unfold calculateVenueProximity. rewrite <- Hn.
  pose proof (calculateCombinedSimilarity_long_word _ Lt) as Et.
  pose proof (calculateCombinedSimilarity_long_word _ Ld) as Ed.
  pose proof (calculateCombinedSimilarity_long_word _ Ln) as En.
  pose proof (geoProximity_bounds venue1 venue2) as [? ?].
  pose proof (addressSimilarity_bounds venue1 venue2) as [? ?].
  unfold w_title, w_description, w_date, w_venue, w_category, w_organizer.
  set (p := _ + _ + _ + _ + _ + _).
  assert (Hp : p == (37 # 40)
                    + (9 # 200) * geoProximity calculateDistance venue1 venue2
                    + (3 # 100) * addressSimilarity venue1 venue2).
  { subst p. lra. }
  split; [exact Hp |]. split; [split; lra |]. split.
  - intros Hc1 Ha1. rewrite Hp. unfold geoProximity, addressSimilarity.
    rewrite Hc1, Ha1. reflexivity.
  - apply getConfidenceLevel_very_high. lra.
Qed.

End Scoring.

Lemma no_distance_nonneg (lat1 lon1 lat2 lon2 : Q) :
  0 <= no_distance lat1 lon1 lat2 lon2.
Proof. apply Qle_refl. Defined.

Lemma probability_within_unit_interval_witness :
  well_formed (scenario_candidate 0 "u1") = true
  /\ well_formed (scenario_stored 0 "u2") = true
  /\ exists a,
       calculateDuplicateProbability no_distance
         (scenario_candidate 0 "u1") (scenario_stored 0 "u2") = Ok a
       /\ 0 <= probability a <= 1.
Proof.
  split; [reflexivity | split; [reflexivity |]].
  destruct (probability_within_unit_interval no_distance no_distance_nonneg
              (scenario_candidate 0 "u1") (scenario_stored 0 "u2")
              eq_refl eq_refl) as (a & Ha & Hp & _).
  exists a. split; assumption.
Defined.

Lemma identical_events_score_witness :
  has_long_word (title (scenario_candidate 0 "u1")) = true
  /\ exists a,
       calculateDuplicateProbability no_distance
         (scenario_candidate 0 "u1") (scenario_candidate 0 "u1") = Ok a
       /\ probability a == 37 # 40
       /\ getConfidenceLevel (probability a) = VERY_HIGH.
Proof.
  split; [reflexivity |].
  destruct (identical_events_score no_distance no_distance_nonneg
              (scenario_candidate 0 "u1") (scenario_candidate 0 "u1")
              scenario_venue scenario_venue
              {| start := 0; finish := 0 + 7200000 |}
              {| start := 0; finish := 0 + 7200000 |} "u1"
              eq_refl eq_refl eq_refl eq_refl eq_refl eq_refl
              eq_refl eq_refl eq_refl eq_refl eq_refl
              eq_refl eq_refl eq_refl)
    as (a & Ha & _ & _ & Hp & Hc).
  exists a. split; [exact Ha |]. split; [| exact Hc].
  apply Hp; reflexivity.
Defined.

(** C1 fails as stated: without coordinates and address, two events that
    agree on every scored field are scored 0.925, not 1; and when the
    common title has no word of more than two characters, the tier is not
    even VERY_HIGH. *)
Lemma identical_events_not_scored_one :
  (exists a,
     calculateDuplicateProbability no_distance
       (scenario_candidate 0 "u1") (scenario_candidate 0 "u1") = Ok a
     /\ probability a == 37 # 40
     /\ ~ probability a == 1)
  /\ (exists a,
        calculateDuplicateProbability no_distance short_titled short_titled = Ok a
        /\ probability a == 157 # 200
        /\ getConfidenceLevel (probability a) = MEDIUM).
Proof.
  split; eexists; (split; [vm_compute; reflexivity |]).
  - split; [vm_compute; reflexivity |]. intros H. vm_compute in H. discriminate H.
  - split; vm_compute; reflexivity.
Qed.

(** C2 (as the code has it): in the end-to-end scenario the title
    similarity is 11/15, because the word sets share one word out of
    three; the probability is 469/600 when the organizers differ and
    499/600 when they are the same, below 0.95 in both cases; the tier is
    MEDIUM or HIGH; the explanation has the description, date and
    category clauses (and the organizer clause for a common organizer),
    and no title clause. *)
Theorem scenario_score (calculateDistance : Q -> Q -> Q -> Q -> Q) (D : Z)
  (o1 o2 : string) :
  exists a,
    calculateDuplicateProbability calculateDistance
      (scenario_candidate D o1) (scenario_stored D o2) = Ok a
    /\ titleSimilarity (factors a) == 11 # 15
    /\ probability a == (if String.eqb o1 o2 then 499 # 600 else 469 # 600)
    /\ probability a < 95 # 100
    /\ getConfidenceLevel (probability a) = (if String.eqb o1 o2 then HIGH else MEDIUM)
    /\ generateExplanation (make_verdict (scenario_stored D o2) a)
       = (if String.eqb o1 o2
          then "Event descriptions are 100% similar, Events are scheduled very close in time, Events are in the same category, Events have the same organizer"
          else "Event descriptions are 100% similar, Events are scheduled very close in time, Events are in the same category").
Proof.
  unfold calculateDuplicateProbability, scenario_candidate, scenario_stored.
  cbn [deref bind dateTime venue organizer start title description category].
  rewrite calculateDateProximity_same.
  eexists. split; [reflexivity |].
  unfold make_verdict, generateExplanation.
  cbn [probability factors v_factors titleSimilarity descriptionSimilarity
       dateProximity venueProximity categoryMatch organizerMatch].
  destruct (String.eqb o1 o2); repeat split; vm_compute; reflexivity.
Qed.

(** C2 fails as stated: with one organizer for both events, the most
    favourable case, the probability is 499/600, the tier is HIGH, and
    the explanation has no clause on the titles. *)
Lemma scenario_not_very_high :
  exists a,
    calculateDuplicateProbability no_distance
      (scenario_candidate 0 "u1") (scenario_stored 0 "u1") = Ok a
    /\ probability a == 499 # 600
    /\ ~ 95 # 100 <= probability a
    /\ getConfidenceLevel (probability a) = HIGH
    /\ JS.gt (titleSimilarity (factors a)) (8 # 10) = false
    /\ generateExplanation (make_verdict (scenario_stored 0 "u1") a)
       = "Event descriptions are 100% similar, Events are scheduled very close in time, Events are in the same category, Events have the same organizer".
Proof.
  eexists. split; [vm_compute; reflexivity |].
  repeat split; try (vm_compute; reflexivity).
  intros H. vm_compute in H. apply H. reflexivity.
Qed.

(** ** Sorting by probability *)

Lemma comes_after_spec (a b : Verdict) :
  comes_after a b = true <-> v_probability a < v_probability b.
Proof.
  unfold comes_after. rewrite gt_spec. split; intros H; lra.
Qed.

Lemma insert_verdict_perm (a : Verdict) (xs : list Verdict) :
  Permutation (insert_verdict a xs) (a :: xs).
Proof.
  induction xs as [| b xs IH]; simpl.
  - apply Permutation_refl.
  - destruct (comes_after a b).
    + apply Permutation_trans with (b :: a :: xs).
      * now apply perm_skip.
      * apply perm_swap.
    + apply Permutation_refl.
Qed.

Lemma sort_by_probability_perm (xs : list Verdict) :
  Permutation (sort_by_probability xs) xs.
Proof.
  induction xs as [| a xs IH]; simpl.
  - apply Permutation_refl.
  - apply Permutation_trans with (a :: sort_by_probability xs).
    + apply insert_verdict_perm.
    + now apply perm_skip.
Qed.

Lemma insert_verdict_descending (a : Verdict) (xs : list Verdict) :
  descending xs -> descending (insert_verdict a xs).
Proof.
  unfold descending. intros H. induction H as [| b xs Hxs IH Hb]; simpl.
  - constructor; constructor.
  - destruct (comes_after a b) eqn:E.
    + apply comes_after_spec in E. constructor; [exact IH |].
      apply Forall_forall. intros x Hx.
      apply (Permutation_in _ (insert_verdict_perm a xs)) in Hx.
      destruct Hx as [<- | Hx].
      * now apply Qlt_le_weak.
      * rewrite Forall_forall in Hb. now apply Hb.
    + assert (Hba : v_probability b <= v_probability a).
      { apply Qnot_lt_le. intros Hlt. apply comes_after_spec in Hlt. congruence. }
      constructor; [now constructor |].
      constructor; [exact Hba |].
      apply Forall_forall. intros x Hx. rewrite Forall_forall in Hb.
      apply Qle_trans with (v_probability b); [now apply Hb | exact Hba].
Qed.

Lemma sort_by_probability_descending (xs : list Verdict) :
  descending (sort_by_probability xs).
Proof.
  induction xs as [| a xs IH]; simpl.
  - constructor.
  - now apply insert_verdict_descending.
Qed.

Lemma firstn_incl (n : nat) (xs : list Verdict) (x : Verdict) :
  In x (firstn n xs) -> In x xs.
Proof.
  revert n. induction xs as [| y xs IH]; intros [| n]; simpl; try tauto.
  intros [-> | H]; [now left | right; now apply (IH n)].
Qed.

Lemma firstn_descending (n : nat) (xs : list Verdict) :
  descending xs -> descending (firstn n xs).
Proof.
  unfold descending. intros H. revert n.
  induction H as [| b xs Hxs IH Hb]; intros [| n]; simpl; try constructor.
  - apply IH.
  - apply Forall_forall. intros x Hx. rewrite Forall_forall in Hb.
    apply Hb. now apply firstn_incl in Hx.
Qed.

(** ** The scoring loop *)

Section Buckets.

Variable calculateDistance : Q -> Q -> Q -> Q -> Q.
Variable newEvent : Event.
Variable threshold : Q.


Lemma well_formed_scored (e : Event) :
  well_formed newEvent = true ->
  well_formed e = true ->
  exists a, scores calculateDistance newEvent e a.
Proof.
  intros Hn He.
  destruct (well_formed_fields newEvent Hn) as (v1 & dt1 & o1 & Hv1 & Hdt1 & Ho1).
  destruct (well_formed_fields e He) as (v2 & dt2 & o2 & Hv2 & Hdt2 & Ho2).
  unfold scores, calculateDuplicateProbability.
  rewrite Hv1, Hv2, Hdt1, Hdt2, Ho1, Ho2. cbn [deref bind].
  eexists. reflexivity.
Qed.

Lemma pool_scored (pool : list Event) :
  well_formed newEvent = true ->
  Forall (fun e => well_formed e = true) pool ->
  exists analyses, Forall2 (scores calculateDistance newEvent) pool analyses.
Proof.
  intros Hn Hpool. induction Hpool as [| e pool He _ IH].
  - exists []. constructor.
  - destruct IH as [analyses IH].
    destruct (well_formed_scored e Hn He) as [a Ha].
    exists (a :: analyses). now constructor.
Qed.

Lemma scored_combine (pool : list Event) (analyses : list Analysis) (e : Event)
  (a : Analysis) :
  Forall2 (scores calculateDistance newEvent) pool analyses ->
  In (e, a) (combine pool analyses) ->
  scores calculateDistance newEvent e a.
Proof.
  intros H. induction H as [| e' a' pool analyses Hea _ IH]; simpl.
  - intros [].
  - intros [Heq | Hin]; [now inversion Heq; subst | now apply IH].
Qed.

Lemma scored_in_combine (pool : list Event) (analyses : list Analysis) (e : Event)
  (a : Analysis) :
  Forall2 (scores calculateDistance newEvent) pool analyses ->
  In e pool ->
  scores calculateDistance newEvent e a ->
  In (e, a) (combine pool analyses).
Proof.
  intros H. induction H as [| e' a' pool analyses Hea _ IH]; simpl.
  - intros [].
  - intros [-> | Hin] Ha.
    + left. unfold scores in *. congruence.
    + right. now apply IH.
Qed.

Lemma score_loop_buckets (pool : list Event) (analyses : list Analysis)
  (duplicates0 suggestions0 : list Verdict) :
  Forall2 (scores calculateDistance newEvent) pool analyses ->
  score_loop calculateDistance newEvent threshold pool duplicates0 suggestions0
  = Ok ((duplicates0 ++ bucket goes_to_duplicates threshold pool analyses)%list,
        (suggestions0 ++ bucket goes_to_suggestions threshold pool analyses)%list).
Proof.
  intros H. revert duplicates0 suggestions0. unfold bucket.
  induction H as [| e a pool analyses Hea _ IH]; intros duplicates0 suggestions0.
  - simpl. now rewrite !app_nil_r.
  - cbn [score_loop combine filter]. unfold scores in Hea. rewrite Hea. cbn [bind].
    unfold goes_to_duplicates at 1, goes_to_suggestions at 1. cbn [snd].
    destruct (JS.ge (probability a) threshold); cbn [negb andb].
    + rewrite IH. cbn [map]. unfold verdict_of at 2. cbn [fst snd].
      now rewrite <- app_assoc.
    + destruct (JS.ge (probability a) (5 # 10)).
      * rewrite IH. cbn [map]. unfold verdict_of at 3. cbn [fst snd].
        now rewrite <- app_assoc.
      * apply IH.
Qed.

Lemma score_loop_throws (pool : list Event) (e : Event) (err : Exn)
  (duplicates0 suggestions0 : list Verdict) :
  In e pool ->
  calculateDuplicateProbability calculateDistance newEvent e = Throw err ->
  exists err',
    score_loop calculateDistance newEvent threshold pool duplicates0 suggestions0
    = Throw err'.
Proof.
  intros Hin He. revert duplicates0 suggestions0.
  induction pool as [| e' pool IH]; intros duplicates0 suggestions0; [destruct Hin |].
  cbn [score_loop].
  destruct (calculateDuplicateProbability calculateDistance newEvent e') as [a | err']
    eqn:E; cbn [bind].
  - destruct Hin as [-> | Hin]; [congruence |].
    destruct (JS.ge (probability a) threshold);
      [| destruct (JS.ge (probability a) (5 # 10))]; now apply IH.
  - now exists err'.
Qed.

End Buckets.

(** ** checkForDuplicates *)

Lemma make_verdict_inj (e e' : Event) (a a' : Analysis) :
  make_verdict e a = make_verdict e' a' -> e = e' /\ a = a'.
Proof.
  unfold make_verdict. intros H. injection H as He Hp Hf _.
  destruct a, a'. simpl in *. now subst.
Qed.

Lemma filter_none {A : Type} (f : A -> bool) (xs : list A) :
  (forall x, In x xs -> f x = false) -> filter f xs = [].
Proof.
  induction xs as [| x xs IH]; intros H; simpl; [reflexivity |].
  rewrite (H x (or_introl eq_refl)). apply IH. intros y Hy. apply H. now right.
Qed.

Section Check.

Variable calculateDistance : Q -> Q -> Q -> Q -> Q.
Variable newEvent : Event.
Variable options : Options.
Variable store : Store.
Variable pool : list Event.
Variable analyses : list Analysis.

Hypothesis retrieved : retrieve newEvent options store = Ok pool.

Hypothesis pool_is_scored : Forall2 (scores calculateDistance newEvent) pool analyses.


Lemma score_loop_result :
  score_loop calculateDistance newEvent (threshold_of options) pool [] []
  = Ok (bucket goes_to_duplicates (threshold_of options) pool analyses,
        bucket goes_to_suggestions (threshold_of options) pool analyses).
Proof.
  apply (score_loop_buckets calculateDistance newEvent (threshold_of options)
           pool analyses [] [] pool_is_scored).
Qed.

Lemma checkForDuplicates_result :
  exists r,
    checkForDuplicates calculateDistance newEvent options store = Ok r
    /\ isDuplicate r
       = (0 <? List.length
                 (sort_by_probability
                    (bucket goes_to_duplicates (threshold_of options) pool analyses)))%nat
    /\ duplicates r
       = firstn 5 (sort_by_probability
                     (bucket goes_to_duplicates (threshold_of options) pool analyses))
    /\ suggestions r
       = firstn 3 (sort_by_probability
                     (bucket goes_to_suggestions (threshold_of options) pool analyses)).
Proof.
  unfold checkForDuplicates, analyse. rewrite retrieved. cbn [bind].
  rewrite score_loop_result. cbn [bind try_catch fst snd].
  eexists. split; [reflexivity |]. cbn [isDuplicate duplicates suggestions].
  repeat split.
Qed.

Lemma in_bucket (test : Q -> Event * Analysis -> bool) (v : Verdict) :
  In v (bucket test (threshold_of options) pool analyses)
  <-> exists e a,
        In e pool
        /\ calculateDuplicateProbability calculateDistance newEvent e = Ok a
        /\ test (threshold_of options) (e, a) = true
        /\ v = make_verdict e a.
Proof.
  unfold bucket. rewrite in_map_iff. split.
  - intros [[e a] [Hv Hin]]. apply filter_In in Hin. destruct Hin as [Hin Htest].
    exists e, a. repeat split.
    + now apply in_combine_l in Hin.
    + exact (scored_combine calculateDistance newEvent pool analyses e a
               pool_is_scored Hin).
    + exact Htest.
    + now rewrite <- Hv.
  - intros (e & a & Hin & Ha & Htest & ->). exists (e, a). split; [reflexivity |].
    apply filter_In. split; [| exact Htest].
    exact (scored_in_combine calculateDistance newEvent pool analyses e a
             pool_is_scored Hin Ha).
Qed.

Lemma verdict_in_bucket (test : Q -> Event * Analysis -> bool) (e : Event) (a : Analysis) :
  In e pool ->
  calculateDuplicateProbability calculateDistance newEvent e = Ok a ->
  (In (make_verdict e a) (bucket test (threshold_of options) pool analyses)
   <-> test (threshold_of options) (e, a) = true).
Proof.
  intros Hin Ha. rewrite in_bucket. split.
  - intros (e' & a' & _ & _ & Htest & Heq). apply make_verdict_inj in Heq.
    destruct Heq as [-> ->]. exact Htest.
  - intros Htest. now exists e, a.
Qed.

Lemma goes_to_duplicates_spec (t : Q) (p : Event * Analysis) :
  goes_to_duplicates t p = true <-> t <= probability (snd p).
Proof. unfold goes_to_duplicates. apply ge_spec. Qed.

Lemma goes_to_suggestions_spec (t : Q) (p : Event * Analysis) :
  goes_to_suggestions t p = true
  <-> 5 # 10 <= probability (snd p) /\ probability (snd p) < t.
Proof.
  unfold goes_to_suggestions. rewrite andb_true_iff, negb_true_iff, ge_false, ge_spec.
  tauto.
Qed.

End Check.

(** C3: when the look-up yields [pool] and every document of it can be
    scored, the loop puts the verdict of a document in [duplicates]
    exactly when its probability is at least the threshold, in
    [suggestions] exactly when it is at least 0.5 and below the
    threshold, and in neither when it is below both, and the two arrays
    hold nothing else; the returned lists are the first five and the first three
    entries of the arrays sorted by descending probability, and
    [isDuplicate] tells whether [duplicates] is non-empty. *)
Theorem buckets_partition_by_threshold (calculateDistance : Q -> Q -> Q -> Q -> Q)
  (newEvent : Event) (options : Options) (store : Store) (pool : list Event) :
  well_formed newEvent = true ->
  retrieve newEvent options store = Ok pool ->
  Forall (fun e => well_formed e = true) pool ->
  exists dups suggs r,
    score_loop calculateDistance newEvent (threshold_of options) pool [] []
    = Ok (dups, suggs)
    /\ checkForDuplicates calculateDistance newEvent options store = Ok r
    /\ (forall e a,
          In e pool ->
          calculateDuplicateProbability calculateDistance newEvent e = Ok a ->
          (In (make_verdict e a) dups <-> threshold_of options <= probability a)
          /\ (In (make_verdict e a) suggs
              <-> 5 # 10 <= probability a /\ probability a < threshold_of options)
          /\ (In (make_verdict e a) dups \/ In (make_verdict e a) suggs
              <-> threshold_of options <= probability a \/ 5 # 10 <= probability a))
    /\ (forall v,
          In v dups \/ In v suggs ->
          exists e a,
            In e pool
            /\ calculateDuplicateProbability calculateDistance newEvent e = Ok a
            /\ v = make_verdict e a)
    /\ duplicates r = firstn 5 (sort_by_probability dups)
    /\ suggestions r = firstn 3 (sort_by_probability suggs)
    /\ Permutation (sort_by_probability dups) dups
    /\ Permutation (sort_by_probability suggs) suggs
    /\ descending (duplicates r)
    /\ descending (suggestions r)
    /\ (List.length (duplicates r) <= 5)%nat
    /\ (List.length (suggestions r) <= 3)%nat
    /\ (isDuplicate r = true <-> dups <> []).
Proof.
  intros Hnew Hret Hpool.
  destruct (pool_scored calculateDistance newEvent pool Hnew Hpool) as [analyses Hsc].
  destruct (checkForDuplicates_result calculateDistance newEvent options store pool
              analyses Hret Hsc) as (r & Hr & His & Hd & Hs).
  eexists _, _, r.
  split; [exact (score_loop_result calculateDistance newEvent options pool analyses Hsc) |].
  split; [exact Hr |].
  split.
  { intros e a Hin Ha.
    rewrite (verdict_in_bucket calculateDistance newEvent options pool analyses Hsc
               goes_to_duplicates e a Hin Ha).
    rewrite (verdict_in_bucket calculateDistance newEvent options pool analyses Hsc
               goes_to_suggestions e a Hin Ha).
    rewrite goes_to_duplicates_spec, goes_to_suggestions_spec. cbn [snd].
    repeat split; try tauto.
    intros [H | H]; [now left |].
    destruct (Qlt_le_dec (probability a) (threshold_of options)); [right | left];
      tauto. }
  split.
  { intros v [Hv | Hv];
      apply (proj1 (in_bucket calculateDistance newEvent options pool analyses Hsc _ v))
        in Hv;
      destruct Hv as (e & a & Hin & Ha & _ & Hv); now exists e, a. }
  split; [exact Hd |]. split; [exact Hs |].
  split; [apply sort_by_probability_perm |].
  split; [apply sort_by_probability_perm |].
  split; [rewrite Hd; apply firstn_descending, sort_by_probability_descending |].
  split; [rewrite Hs; apply firstn_descending, sort_by_probability_descending |].
  split; [rewrite Hd; apply firstn_le_length |].
  split; [rewrite Hs; apply firstn_le_length |].
  rewrite His, (Permutation_length (sort_by_probability_perm _)), Nat.ltb_lt.
  split.
  - intros Hlen Hnil. rewrite Hnil in Hlen. simpl in Hlen. lia.
  - intros Hne. destruct (bucket _ _ _ _); [congruence | simpl; lia].
Qed.

(** C10: in every result of [checkForDuplicates] no event is both among
    the duplicates and among the suggestions: a suggestion is scored
    below the threshold and a duplicate at or above it; and a threshold
    of at most 0.5 leaves no suggestion. *)
Theorem duplicates_and_suggestions_disjoint (calculateDistance : Q -> Q -> Q -> Q -> Q)
  (newEvent : Event) (options : Options) (store : Store) (pool : list Event) :
  well_formed newEvent = true ->
  retrieve newEvent options store = Ok pool ->
  Forall (fun e => well_formed e = true) pool ->
  exists r,
    checkForDuplicates calculateDistance newEvent options store = Ok r
    /\ (forall d s, In d (duplicates r) -> In s (suggestions r) -> event d <> event s)
    /\ (forall s, In s (suggestions r) -> v_probability s < threshold_of options)
    /\ (forall d, In d (duplicates r) -> threshold_of options <= v_probability d)
    /\ (threshold_of options <= 5 # 10 -> suggestions r = []).
Proof.
  intros Hnew Hret Hpool.
  destruct (pool_scored calculateDistance newEvent pool Hnew Hpool) as [analyses Hsc].
  destruct (checkForDuplicates_result calculateDistance newEvent options store pool
              analyses Hret Hsc) as (r & Hr & _ & Hd & Hs).
  pose proof (in_bucket calculateDistance newEvent options pool analyses Hsc) as Hin.
  assert (Hdup : forall d, In d (duplicates r) ->
                 exists e a,
                   calculateDuplicateProbability calculateDistance newEvent e = Ok a
                   /\ threshold_of options <= probability a /\ d = make_verdict e a).
  { intros d Hdin. rewrite Hd in Hdin. apply firstn_incl in Hdin.
    apply (Permutation_in _ (sort_by_probability_perm _)) in Hdin.
    apply Hin in Hdin. destruct Hdin as (e & a & _ & Ha & Ht & ->).
    apply goes_to_duplicates_spec in Ht. now exists e, a. }
  assert (Hsug : forall s, In s (suggestions r) ->
                 exists e a,
                   calculateDuplicateProbability calculateDistance newEvent e = Ok a
                   /\ probability a < threshold_of options /\ s = make_verdict e a).
  { intros s Hsin. rewrite Hs in Hsin. apply firstn_incl in Hsin.
    apply (Permutation_in _ (sort_by_probability_perm _)) in Hsin.
    apply Hin in Hsin. destruct Hsin as (e & a & _ & Ha & Ht & ->).
    apply goes_to_suggestions_spec in Ht. exists e, a. tauto. }
  exists r. split; [exact Hr |]. repeat split.
  - intros d s Hdin Hsin Heq.
    destruct (Hdup d Hdin) as (e & a & Ha & Hge & ->).
    destruct (Hsug s Hsin) as (e' & a' & Ha' & Hlt & ->).
    simpl in Heq. subst e'. rewrite Ha in Ha'. injection Ha' as <-.
    exact (Qlt_not_le _ _ Hlt Hge).
  - intros s Hsin. destruct (Hsug s Hsin) as (e & a & _ & Hlt & ->). exact Hlt.
  - intros d Hdin. destruct (Hdup d Hdin) as (e & a & _ & Hge & ->). exact Hge.
  - intros Hthr. rewrite Hs. unfold bucket. rewrite filter_none; [reflexivity |].
    intros p _. apply not_true_is_false. intros Ht.
    apply goes_to_suggestions_spec in Ht. lra.
Qed.

(** ** Failures *)

(** C5 (as the code has it): when the scoring of one retrieved document
    throws, [checkForDuplicates] throws too, with the message of its
    [catch] block; no result is returned. *)
Theorem one_failing_pair_fails_the_check (calculateDistance : Q -> Q -> Q -> Q -> Q)
  (newEvent : Event) (options : Options) (store : Store) (pool : list Event)
  (e : Event) (err : Exn) :
  retrieve newEvent options store = Ok pool ->
  In e pool ->
  calculateDuplicateProbability calculateDistance newEvent e = Throw err ->
  checkForDuplicates calculateDistance newEvent options store
  = Throw (Error "Failed to check for duplicate events").
Proof.
  intros Hret Hin He. unfold checkForDuplicates, analyse. rewrite Hret. cbn [bind].
  destruct (score_loop_throws calculateDistance newEvent (threshold_of options)
              pool e err [] [] Hin He) as [err' Hloop].
  rewrite Hloop. reflexivity.
Qed.

Lemma one_failing_pair_fails_the_check_witness :
  retrieve (scenario_candidate 0 "u1") default_options store_with_orphan
  = Ok [scenario_stored 0 "u2"; orphaned_stored]
  /\ calculateDuplicateProbability no_distance (scenario_candidate 0 "u1") orphaned_stored
     = Throw (TypeError "Cannot read properties of undefined: organizer")
  /\ checkForDuplicates no_distance (scenario_candidate 0 "u1") default_options
       store_with_orphan
     = Throw (Error "Failed to check for duplicate events").
Proof.
  split; [reflexivity | split; [reflexivity |]].
  apply (one_failing_pair_fails_the_check no_distance (scenario_candidate 0 "u1")
           default_options store_with_orphan
           [scenario_stored 0 "u2"; orphaned_stored] orphaned_stored
           (TypeError "Cannot read properties of undefined: organizer")).
  - reflexivity.
  - right. left. reflexivity.
  - reflexivity.
Defined.

(** C5 fails as stated: with one document that can be scored and one
    that cannot, the check returns no result at all, although the first
    document alone is scored and reported. *)
Lemma orphan_aborts_the_batch :
  checkForDuplicates no_distance (scenario_candidate 0 "u1") default_options
    store_with_orphan
  = Throw (Error "Failed to check for duplicate events")
  /\ ~ (exists r,
          checkForDuplicates no_distance (scenario_candidate 0 "u1") default_options
            store_with_orphan = Ok r)
  /\ (exists a,
        calculateDuplicateProbability no_distance (scenario_candidate 0 "u1")
          (scenario_stored 0 "u2") = Ok a).
Proof.
  split; [vm_compute; reflexivity |]. split.
  - intros [r Hr]. vm_compute in Hr. discriminate Hr.
  - eexists. vm_compute. reflexivity.
Qed.

(** C4 (as the code has it): when [checkForDuplicates] throws inside the
    gate of a valid creation request, the handler answers with status 500
    and the message of its [catch] block, and the store is left as it
    was: no event is created. *)
Theorem creation_gate_fails_closed (calculateDistance : Q -> Q -> Q -> Q -> Q)
  (now : Z) (req : Request) (store : Store) (dt : DateTime) (err : Exn) :
  validation_errors req = false ->
  dateTime (body req) = Some dt ->
  (now < start dt)%Z ->
  (start dt < finish dt)%Z ->
  skipDuplicateCheck req = false ->
  checkForDuplicates calculateDistance (with_organizer req) gate_options store
  = Throw err ->
  post_event calculateDistance now req store
  = (ServerError "Server error creating event", store)
  /\ status_code (fst (post_event calculateDistance now req store)) = 500%nat.
Proof.
  intros Hval Hdt Hstart Hend Hskip Hcheck.
  assert (H : post_event calculateDistance now req store
              = (ServerError "Server error creating event", store)).
  { unfold post_event, duplicate_gate. rewrite Hval, Hdt, Hskip. cbn [deref bind negb].
    rewrite (proj2 (Z.leb_gt (start dt) now) Hstart).
    rewrite (proj2 (Z.leb_gt (finish dt) (start dt)) Hend).
    rewrite Hcheck. reflexivity. }
  split; [exact H |]. now rewrite H.
Qed.

Lemma creation_gate_fails_closed_witness :
  checkForDuplicates no_distance (with_organizer scenario_request) gate_options
    store_without_find
  = Throw (Error "Failed to check for duplicate events")
  /\ post_event no_distance 0 scenario_request store_without_find
     = (ServerError "Server error creating event", store_without_find).
Proof.
  split; [reflexivity |].
  apply (creation_gate_fails_closed no_distance 0 scenario_request store_without_find
           {| start := 1000; finish := 1000 + 7200000 |}
           (Error "Failed to check for duplicate events")).
  - reflexivity.
  - reflexivity.
  - reflexivity.
  - reflexivity.
  - reflexivity.
  - reflexivity.
Defined.

(** C4 fails as stated: when the look-up rejects, the creation request is
    answered with status 500 and nothing is stored, whereas the same
    request is answered with status 201 when the check finds nothing and
    when the check is skipped. *)
Lemma detector_failure_rejects_creation :
  checkForDuplicates no_distance (with_organizer scenario_request) gate_options
    store_without_find
  = Throw (Error "Failed to check for duplicate events")
  /\ status_code (fst (post_event no_distance 0 scenario_request store_without_find))
     = 500%nat
  /\ docs (snd (post_event no_distance 0 scenario_request store_without_find)) = []
  /\ status_code (fst (post_event no_distance 0 scenario_request empty_store)) = 201%nat
  /\ (exists created store',
        create_event scenario_request store_without_find = Ok (Created created, store')
        /\ docs store' = [created]).
Proof.
  repeat split; try (vm_compute; reflexivity).
  eexists _, _. split; vm_compute; reflexivity.
Qed.

Lemma buckets_partition_by_threshold_witness :
  retrieve (scenario_candidate 0 "u1") default_options healthy_store
  = Ok [scenario_stored 0 "u2"; scenario_stored 0 "u1"]
  /\ exists r,
       checkForDuplicates no_distance (scenario_candidate 0 "u1") default_options
         healthy_store = Ok r
       /\ (List.length (duplicates r) <= 5)%nat
       /\ (List.length (suggestions r) <= 3)%nat.
Proof.
  split; [reflexivity |].
  assert (Hpool : Forall (fun e => well_formed e = true)
                    [scenario_stored 0 "u2"; scenario_stored 0 "u1"])
    by (repeat constructor).
  destruct (buckets_partition_by_threshold no_distance (scenario_candidate 0 "u1")
              default_options healthy_store
              [scenario_stored 0 "u2"; scenario_stored 0 "u1"]
              eq_refl eq_refl Hpool)
    as (dups & suggs & r & _ & Hr & _ & _ & _ & _ & _ & _ & _ & _ & Hd & Hs & _).
  exists r. repeat split; assumption.
Defined.

Lemma duplicates_and_suggestions_disjoint_witness :
  retrieve (scenario_candidate 0 "u1") default_options healthy_store
  = Ok [scenario_stored 0 "u2"; scenario_stored 0 "u1"]
  /\ exists r,
       checkForDuplicates no_distance (scenario_candidate 0 "u1") default_options
         healthy_store = Ok r
       /\ (forall d s, In d (duplicates r) -> In s (suggestions r) -> event d <> event s).
Proof.
  split; [reflexivity |].
  assert (Hpool : Forall (fun e => well_formed e = true)
                    [scenario_stored 0 "u2"; scenario_stored 0 "u1"])
    by (repeat constructor).
  destruct (duplicates_and_suggestions_disjoint no_distance (scenario_candidate 0 "u1")
              default_options healthy_store
              [scenario_stored 0 "u2"; scenario_stored 0 "u1"]
              eq_refl eq_refl Hpool)
    as (r & Hr & Hdisj & _).
  exists r. split; assumption.
Defined.

Example healthy_store_check :
  exists r,
    checkForDuplicates no_distance (scenario_candidate 0 "u1") default_options
      healthy_store = Ok r
    /\ isDuplicate r = true
    /\ map event (duplicates r) = [scenario_stored 0 "u1"]
    /\ map event (suggestions r) = [scenario_stored 0 "u2"]
    /\ totalChecked (analysis r) = 2%nat.
Proof.
  eexists. split; [vm_compute; reflexivity |]. repeat split.
Qed.


(** * Further properties of the detector and of the routes *)

(** ** levenshteinDistance and the recurrence it tabulates *)

Lemma lev_nil_l (q : string) : lev EmptyString q = String.length q.
Proof. destruct q; reflexivity. Qed.

Lemma lev_nil_r (p : string) : lev p EmptyString = String.length p.
Proof. destruct p; reflexivity. Qed.

Lemma lev_cons_cons (c d : ascii) (p q : string) :
  lev (String c p) (String d q)
  = if Ascii.eqb c d then lev p q
    else Nat.min (lev p q + 1)
                 (Nat.min (lev (String c p) q + 1) (lev p (String d q) + 1)).
Proof. reflexivity. Qed.

Lemma row_of_nil (q rest : string) :
  row_of EmptyString q rest = seq (String.length q) (S (String.length rest)).
Proof.
  revert q. induction rest as [| d rest IH]; intros q.
  - cbn [row_of String.length seq]. now rewrite lev_nil_l.
  - cbn [row_of String.length seq]. rewrite lev_nil_l. f_equal.
    apply (IH (String d q)).
Qed.

Lemma row_of_unfold (p q rest : string) :
  row_of p q rest
  = lev p q :: match rest with
               | EmptyString => []
               | String d rest' => row_of p (String d q) rest'
               end.
Proof. destruct rest; reflexivity. Qed.

Lemma fill_row_row_of (c : ascii) (p q rest : string) :
  fill_row c rest (row_of p q rest) (lev (String c p) q)
  = match rest with
    | EmptyString => []
    | String d rest' => row_of (String c p) (String d q) rest'
    end.
Proof.
  revert q. induction rest as [| d rest IH]; intros q.
  - reflexivity.
  - rewrite (row_of_unfold p q). rewrite (row_of_unfold p (String d q)).
    cbn [fill_row]. rewrite <- (row_of_unfold p (String d q)).
    rewrite <- lev_cons_cons. rewrite IH.
    rewrite (row_of_unfold (String c p) (String d q)). reflexivity.
Qed.

Lemma next_row_row_of (c : ascii) (p str2 : string) :
  S (String.length p) :: fill_row c str2 (row_of p EmptyString str2) (S (String.length p))
  = row_of (String c p) EmptyString str2.
Proof.
  rewrite (row_of_unfold (String c p)).
  change (lev (String c p) EmptyString) with (S (String.length p)).
  f_equal.
  change (S (String.length p)) with (lev (String c p) EmptyString).
  apply fill_row_row_of.
Qed.

Lemma fill_rows_last (str1 str2 p : string) :
  nth (String.length str1)
      (row_of p EmptyString str2
       :: fill_rows str1 str2 (row_of p EmptyString str2) (S (String.length p)))
      []
  = row_of (rev_onto str1 p) EmptyString str2.
Proof.
  revert p. induction str1 as [| c str1 IH]; intros p.
  - reflexivity.
  - cbn [String.length fill_rows nth rev_onto].
    rewrite next_row_row_of. apply (IH (String c p)).
Qed.

Lemma row_of_last (p q rest : string) :
  nth (String.length rest) (row_of p q rest) 0%nat = lev p (rev_onto rest q).
Proof.
  revert q. induction rest as [| d rest IH]; intros q.
  - reflexivity.
  - rewrite row_of_unfold. cbn [String.length nth rev_onto]. apply IH.
Qed.

Lemma levenshteinDistance_lev (str1 str2 : string) :
  levenshteinDistance str1 str2
  = lev (rev_onto str1 EmptyString) (rev_onto str2 EmptyString).
Proof.
  unfold levenshteinDistance, levenshtein_matrix. cbv zeta.
  pose proof (row_of_nil EmptyString str2) as H0. cbn [String.length] in H0.
  rewrite <- H0. change 1%nat with (S (String.length EmptyString)).
  rewrite fill_rows_last. apply row_of_last.
Qed.

Lemma lev_sym (p q : string) : lev p q = lev q p.
Proof.
  revert q. induction p as [| c p IHp]; intros q.
  - now rewrite lev_nil_l, lev_nil_r.
  - induction q as [| d q IHq].
    + now rewrite lev_nil_l, lev_nil_r.
    + rewrite !lev_cons_cons, (Ascii.eqb_sym d c), (IHp q), IHq, (IHp (String d q)).
      destruct (Ascii.eqb c d); lia.
Qed.

Lemma lev_zero (p q : string) : lev p q = 0%nat <-> p = q.
Proof.
  revert q. induction p as [| c p IHp]; intros q.
  - rewrite lev_nil_l. destruct q; simpl; split; congruence.
  - induction q as [| d q IHq].
    + rewrite lev_nil_r. simpl. split; congruence.
    + rewrite lev_cons_cons. destruct (Ascii.eqb_spec c d) as [-> | Hne].
      * rewrite IHp. split; congruence.
      * split; [lia | congruence].
Qed.

Lemma lev_lower (p q : string) :
  (String.length p - String.length q <= lev p q
   /\ String.length q - String.length p <= lev p q)%nat.
Proof.
  revert q. induction p as [| c p IHp]; intros q.
  - rewrite lev_nil_l. simpl. lia.
  - induction q as [| d q IHq].
    + rewrite lev_nil_r. simpl. lia.
    + rewrite lev_cons_cons.
      pose proof (IHp q). pose proof (IHp (String d q)).
      cbn [String.length] in *.
      destruct (Ascii.eqb c d); lia.
Qed.

Lemma rev_onto_length (s acc : string) :
  String.length (rev_onto s acc) = (String.length s + String.length acc)%nat.
Proof.
  revert acc. induction s as [| c s IH]; intros acc; simpl.
  - reflexivity.
  - rewrite IH. simpl. lia.
Qed.

Lemma rev_onto_app (s t acc : string) :
  rev_onto (s ++ t) acc = rev_onto t (rev_onto s acc).
Proof.
  revert acc. induction s as [| c s IH]; intros acc; simpl; [reflexivity | apply IH].
Qed.

Lemma rev_onto_rev_onto (s acc : string) :
  rev_onto (rev_onto s acc) EmptyString = rev_onto acc s.
Proof.
  revert acc. induction s as [| c s IH]; intros acc; simpl.
  - reflexivity.
  - rewrite IH. reflexivity.
Qed.

Lemma lev_step_both (n : nat) (p q : string) :
  (String.length p + String.length q <= n)%nat ->
  forall c,
    (lev (String c p) q <= lev p q + 1 /\ lev p q <= lev (String c p) q + 1)%nat.
Proof.
  revert p q. induction n as [| n IH]; intros p q Hn c.
  - destruct p, q; simpl in Hn; try lia. simpl. lia.
  - destruct q as [| d q].
    + rewrite !lev_nil_r. simpl. lia.
    + cbn [String.length] in Hn.
      assert (Hqp : (String.length q + String.length p <= n)%nat) by lia.
      assert (Hpq : (String.length p + String.length q <= n)%nat) by lia.
      destruct (IH q p Hqp d) as [Aq A'q].
      rewrite (lev_sym (String d q) p), (lev_sym q p) in Aq, A'q.
      destruct (IH p q Hpq c) as [Ap A'p].
      rewrite lev_cons_cons. destruct (Ascii.eqb c d); lia.
Qed.

Lemma lev_cons_l (c : ascii) (p q : string) :
  (lev (String c p) q <= lev p q + 1 /\ lev p q <= lev (String c p) q + 1)%nat.
Proof. exact (lev_step_both _ p q (Nat.le_refl _) c). Qed.

Lemma lev_textbook (c d : ascii) (p q : string) :
  lev (String c p) (String d q)
  = Nat.min (lev p q + if Ascii.eqb c d then 0 else 1)
            (Nat.min (lev (String c p) q + 1) (lev p (String d q) + 1)).
Proof.
  rewrite lev_cons_cons. destruct (Ascii.eqb c d); [| reflexivity].
  destruct (lev_cons_l c p q) as [_ H1].
  destruct (lev_cons_l d q p) as [_ H2].
  rewrite (lev_sym (String d q) p), (lev_sym q p) in H2. lia.
Qed.

Lemma rev_onto_inj (s t : string) :
  rev_onto s EmptyString = rev_onto t EmptyString -> s = t.
Proof.
  intros H. apply (f_equal (fun x => rev_onto x EmptyString)) in H.
  now rewrite !rev_onto_rev_onto in H.
Qed.

Lemma rev_onto_snoc (s : string) (c : ascii) :
  rev_onto (s ++ String c EmptyString) EmptyString
  = String c (rev_onto s EmptyString).
Proof. now rewrite rev_onto_app. Qed.

(** X2: the edit distance lies between the difference and the maximum of
    the two lengths; against the empty text it is the length of the
    other text. *)
Theorem levenshteinDistance_between_lengths (str1 str2 : string) :
  (String.length str1 - String.length str2 <= levenshteinDistance str1 str2
   /\ String.length str2 - String.length str1 <= levenshteinDistance str1 str2
   /\ levenshteinDistance str1 str2 <= Nat.max (String.length str1) (String.length str2)
   /\ levenshteinDistance str1 EmptyString = String.length str1
   /\ levenshteinDistance EmptyString str2 = String.length str2)%nat.
Proof.
  pose proof (levenshteinDistance_le_max str1 str2) as Hmax.
  rewrite !levenshteinDistance_lev in *.
  pose proof (lev_lower (rev_onto str1 EmptyString) (rev_onto str2 EmptyString)) as [H1 H2].
  rewrite !rev_onto_length in H1, H2. simpl in H1, H2. rewrite !Nat.add_0_r in H1, H2.
  repeat split; try assumption.
  - cbn [rev_onto]. rewrite lev_nil_r, rev_onto_length. simpl. lia.
  - cbn [rev_onto]. rewrite lev_nil_l, rev_onto_length. simpl. lia.
Qed.

Lemma lev_upper (p q : string) : (lev p q <= String.length p + String.length q)%nat.
Proof.
  revert q. induction p as [| c p IHp]; intros q.
  - rewrite lev_nil_l. lia.
  - destruct (lev_cons_l c p q) as [H _]. specialize (IHp q).
    cbn [String.length]. lia.
Qed.

Lemma lev_cons_r (d : ascii) (p q : string) :
  (lev p (String d q) <= lev p q + 1 /\ lev p q <= lev p (String d q) + 1)%nat.
Proof.
  rewrite (lev_sym p (String d q)), (lev_sym p q). apply lev_cons_l.
Qed.

Lemma lev_triangle_sized (n : nat) (p q r : string) :
  (String.length p + String.length q + String.length r <= n)%nat ->
  (lev p r <= lev p q + lev q r)%nat.
Proof.
  revert p q r. induction n as [| n IH]; intros p q r Hn.
  - destruct p, q, r; simpl in *; lia.
  - destruct p as [| a p].
    { rewrite !lev_nil_l. pose proof (lev_lower q r). lia. }
    destruct r as [| c r].
    { rewrite !lev_nil_r. pose proof (lev_lower (String a p) q). lia. }
    destruct q as [| b q].
    { rewrite lev_nil_r, lev_nil_l. apply lev_upper. }
    cbn [String.length] in Hn.
    pose proof (IH p (String b q) (String c r)) as T1.
    pose proof (IH (String a p) (String b q) r) as T2.
    pose proof (IH (String a p) q (String c r)) as T3.
    pose proof (IH (String a p) q r) as T4.
    pose proof (IH p q (String c r)) as T5.
    pose proof (IH p q r) as T6.
    cbn [String.length] in T1, T2, T3, T4, T5, T6.
    specialize (T1 ltac:(lia)). specialize (T2 ltac:(lia)). specialize (T3 ltac:(lia)).
    specialize (T4 ltac:(lia)). specialize (T5 ltac:(lia)). specialize (T6 ltac:(lia)).
    destruct (lev_cons_l a p (String c r)) as [L1 _].
    destruct (lev_cons_r c (String a p) r) as [L2 _].
    pose proof (lev_textbook a b p q) as E1.
    pose proof (lev_textbook b c q r) as E2.
    pose proof (lev_textbook a c p r) as E3.

    revert E1 E2 E3.
    destruct (Ascii.eqb_spec a b) as [Hab | Hab], (Ascii.eqb_spec b c) as [Hbc | Hbc],
      (Ascii.eqb_spec a c) as [Hac | Hac]; intros E1 E2 E3; try congruence; lia.
Qed.


(** X1: the edit distance is a metric on texts: it does not depend on
    the order of its arguments, it is zero exactly for equal texts, and
    it obeys the triangle inequality. *)
Theorem levenshteinDistance_metric (str1 str2 str3 : string) :
  levenshteinDistance str1 str2 = levenshteinDistance str2 str1
  /\ (levenshteinDistance str1 str2 = 0%nat <-> str1 = str2)
  /\ (levenshteinDistance str1 str3
      <= levenshteinDistance str1 str2 + levenshteinDistance str2 str3)%nat.
Proof.
  rewrite !levenshteinDistance_lev. split; [apply lev_sym |]. split.
  - rewrite lev_zero. split; [apply rev_onto_inj | now intros ->].
  - exact (lev_triangle_sized _ _ _ _ (Nat.le_refl _)).
Qed.

(** X3: on the last characters of two texts the edit distance obeys the
    recurrence of Levenshtein: the least of the distance of the two
    shortened texts, plus one unless the last characters agree, and of
    the two distances with one text shortened, plus one; taking the
    diagonal cell alone for equal characters loses nothing.  One more
    character at the end of a text moves its distance to any other text
    by at most one. *)
Theorem levenshteinDistance_recurrence (str1 str2 : string) (c d : ascii) :
  levenshteinDistance (str1 ++ String c EmptyString) (str2 ++ String d EmptyString)
  = Nat.min
      (levenshteinDistance str1 str2 + if Ascii.eqb c d then 0 else 1)
      (Nat.min
         (levenshteinDistance (str1 ++ String c EmptyString) str2 + 1)
         (levenshteinDistance str1 (str2 ++ String d EmptyString) + 1))
  /\ (levenshteinDistance (str1 ++ String c EmptyString) str2
      <= levenshteinDistance str1 str2 + 1)%nat
  /\ (levenshteinDistance str1 str2
      <= levenshteinDistance (str1 ++ String c EmptyString) str2 + 1)%nat.
Proof.
  rewrite !levenshteinDistance_lev, !rev_onto_snoc.
  split; [apply lev_textbook | apply lev_cons_l].
Qed.

(** ** Similarity of texts *)

Lemma calculateTextSimilarity_swap (text1 text2 : string) :
  calculateTextSimilarity text1 text2 = calculateTextSimilarity text2 text1.
Proof.
  unfold calculateTextSimilarity.
  rewrite (orb_comm (JS.falsy text2)), (String.eqb_sym (normalize text2)),
    (Nat.max_comm (String.length (normalize text2))),
    (levenshteinDistance_lev (normalize text2)), lev_sym, <- levenshteinDistance_lev.
  reflexivity.
Qed.

Lemma ratio_zero (a b : nat) :
  (0 < b)%nat -> (JS.num a / JS.num b == 0 <-> a = 0%nat).
Proof.
  intros Hb. pose proof (num_pos b Hb) as Hpos. split.
  - intros H. destruct a as [| a]; [reflexivity | exfalso].
    assert (Ha : 0 < JS.num (S a)) by (apply num_pos; lia).
    assert (Hq : 0 < JS.num (S a) / JS.num b).
    { apply Qlt_shift_div_l; [assumption | now rewrite Qmult_0_l]. }
    rewrite H in Hq. discriminate Hq.
  - intros ->. unfold Qdiv. apply Qmult_0_l.
Qed.

Lemma ratio_one (a b : nat) :
  (0 < b)%nat -> (JS.num a / JS.num b == 1 <-> a = b).
Proof.
  intros Hb. pose proof (num_pos b Hb) as Hpos. split.
  - intros H.
    assert (Hab : JS.num a == JS.num b).
    { rewrite <- (Qmult_1_l (JS.num b)), <- H. field. intros Hz.
      rewrite Hz in Hpos. discriminate Hpos. }
    unfold JS.num in Hab. apply (proj1 (inject_Z_injective _ _)) in Hab. lia.
  - intros ->. now apply ratio_self.
Qed.

Lemma falsy_spec (s : string) : JS.falsy s = true <-> s = EmptyString.
Proof. destruct s; simpl; split; congruence. Qed.

Lemma length_zero_string (s : string) : String.length s = 0%nat -> s = EmptyString.
Proof. destruct s; [reflexivity | discriminate]. Qed.

(** X5: the similarity by edit distance is 1 exactly when both texts are
    non-empty and agree after normalisation (lower case, trimmed,
    punctuation removed). *)
Theorem calculateTextSimilarity_one_iff (text1 text2 : string) :
  calculateTextSimilarity text1 text2 == 1
  <-> text1 <> EmptyString /\ text2 <> EmptyString /\ normalize text1 = normalize text2.
Proof.
  unfold calculateTextSimilarity.
  destruct text1 as [| c1 t1]; [cbn; split; [discriminate | tauto] |].
  destruct text2 as [| c2 t2]; [cbn; split; [discriminate | tauto] |].
  cbn [JS.falsy orb].
  set (n1 := normalize (String c1 t1)). set (n2 := normalize (String c2 t2)).
  destruct (String.eqb_spec n1 n2) as [Heq | Hne].
  - split; [intros _; repeat split; congruence | reflexivity].
  - destruct (Nat.eqb_spec (Nat.max (String.length n1) (String.length n2)) 0)
      as [Hz | Hnz].
    + exfalso. apply Hne.
      rewrite (length_zero_string n1), (length_zero_string n2) by lia. reflexivity.
    + split; [| tauto]. intros H. exfalso. apply Hne.
      apply rev_onto_inj, lev_zero. rewrite <- levenshteinDistance_lev.
      apply (ratio_zero _ (Nat.max (String.length n1) (String.length n2)));
        [lia | lra].
Qed.

(** X6: when both texts are non-empty and exactly one of them is empty
    after normalisation, the similarity by edit distance is 0. *)
Theorem calculateTextSimilarity_against_nothing (text1 text2 : string) :
  text1 <> EmptyString ->
  text2 <> EmptyString ->
  normalize text1 = EmptyString ->
  normalize text2 <> EmptyString ->
  calculateTextSimilarity text1 text2 == 0
  /\ calculateTextSimilarity text2 text1 == 0.
Proof.
  intros H1 H2 Hn1 Hn2.
  rewrite (calculateTextSimilarity_swap text2 text1).
  assert (H : calculateTextSimilarity text1 text2 == 0); [| now split].
  unfold calculateTextSimilarity.
  destruct text1; [congruence |]. destruct text2; [congruence |].
  cbn [JS.falsy orb]. rewrite Hn1.
  destruct (String.eqb_spec EmptyString (normalize (String a0 text2)));
    [congruence |].
  rewrite levenshteinDistance_lev. cbn [rev_onto].
  rewrite lev_nil_l, rev_onto_length, Nat.add_0_r. cbn [String.length Nat.max].
  destruct (normalize (String a0 text2)) as [| c n2] eqn:E; [congruence |].
  cbn [String.length Nat.eqb].
  rewrite ratio_self by lia. reflexivity.
Qed.

Lemma calculateTextSimilarity_against_nothing_witness :
  normalize "!!!" = EmptyString
  /\ calculateTextSimilarity "!!!" "Tech Fest" == 0.
Proof.
  split; [reflexivity |].
  apply (calculateTextSimilarity_against_nothing "!!!" "Tech Fest");
    [discriminate | discriminate | reflexivity | discriminate].
Defined.

Lemma calculateJaccardSimilarity_swap (text1 text2 : string) :
  calculateJaccardSimilarity text1 text2 = calculateJaccardSimilarity text2 text1.
Proof.
  unfold calculateJaccardSimilarity.
  rewrite (orb_comm (JS.falsy text2)).
  assert (Hi : JS.size (JS.new_Set (filter (JS.has (words text1)) (words text2)))
               = JS.size (JS.new_Set (filter (JS.has (words text2)) (words text1)))).
  { apply new_Set_same_size. intros w. rewrite !filter_In, !has_In. tauto. }
  assert (Hu : JS.size (JS.new_Set (words text2 ++ words text1))
               = JS.size (JS.new_Set (words text1 ++ words text2))).
  { apply new_Set_same_size. intros w. rewrite !in_app_iff. tauto. }
  rewrite Hi, Hu. reflexivity.
Qed.

(** X4: the three similarities of texts, by edit distance, by word sets
    and combined, do not depend on the order of the two texts. *)
Theorem text_similarities_symmetric (text1 text2 : string) :
  calculateTextSimilarity text1 text2 = calculateTextSimilarity text2 text1
  /\ calculateJaccardSimilarity text1 text2 = calculateJaccardSimilarity text2 text1
  /\ calculateCombinedSimilarity text1 text2 = calculateCombinedSimilarity text2 text1.
Proof.
  pose proof (calculateTextSimilarity_swap text1 text2) as Ht.
  pose proof (calculateJaccardSimilarity_swap text1 text2) as Hj.
  split; [exact Ht |]. split; [exact Hj |].
  unfold calculateCombinedSimilarity. now rewrite Ht, Hj.
Qed.

(** X7: the similarity of word sets is 1 exactly when both texts are
    non-empty and have the same, non-empty set of words of more than two
    characters. *)
Theorem calculateJaccardSimilarity_one_iff (text1 text2 : string) :
  calculateJaccardSimilarity text1 text2 == 1
  <-> text1 <> EmptyString /\ text2 <> EmptyString
      /\ words text1 <> []
      /\ (forall w, In w (words text1) <-> In w (words text2)).
Proof.
  unfold calculateJaccardSimilarity.
  destruct text1 as [| c1 t1]; [cbn; split; [discriminate | tauto] |].
  destruct text2 as [| c2 t2]; [cbn; split; [discriminate | tauto] |].
  cbn [JS.falsy orb].
  set (w1 := words (String c1 t1)). set (w2 := words (String c2 t2)).
  destruct (Nat.eqb_spec (JS.size (JS.new_Set (w1 ++ w2))) 0) as [Hz | Hnz].
  - split; [discriminate |]. intros (_ & _ & Hne & _). exfalso. apply Hne.
    unfold JS.size in Hz. apply length_zero_iff_nil in Hz.
    apply (proj1 (new_Set_nil _)) in Hz. now apply app_eq_nil in Hz.
  - rewrite ratio_one by lia. split.
    + intros Hsize.
      assert (Hincl : incl (JS.new_Set (w1 ++ w2))
                           (JS.new_Set (filter (JS.has w2) w1))).
      { apply NoDup_length_incl.
        - apply new_Set_NoDup.
        - unfold JS.size in Hsize. lia.
        - intros w Hw. rewrite new_Set_In in *. apply filter_In in Hw.
          apply in_or_app. tauto. }
      assert (Hboth : forall w, In w w1 \/ In w w2 -> In w w1 /\ In w w2).
      { intros w Hw. assert (Hu : In w (JS.new_Set (w1 ++ w2))).
        { apply new_Set_In, in_or_app. exact Hw. }
        apply Hincl in Hu. rewrite new_Set_In, filter_In, has_In in Hu. exact Hu. }
      repeat split; try discriminate.
      * intros Hnil. apply Hnz. unfold JS.size. apply length_zero_iff_nil.
        apply new_Set_nil. destruct w2 as [| w w2'].
        -- now rewrite Hnil.
        -- destruct (Hboth w (or_intror (or_introl eq_refl))) as [Hin _].
           rewrite Hnil in Hin. destruct Hin.
      * intros Hw. apply Hboth. now left.
      * intros Hw. apply Hboth. now right.
    + intros (_ & _ & _ & Hsame). apply new_Set_same_size. intros w.
      rewrite filter_In, in_app_iff, has_In. specialize (Hsame w). tauto.
Qed.

(** X8: the similarity of word sets is 0 exactly when one of the texts
    is empty or the two texts share no word of more than two
    characters. *)
Theorem calculateJaccardSimilarity_zero_iff (text1 text2 : string) :
  calculateJaccardSimilarity text1 text2 == 0
  <-> text1 = EmptyString \/ text2 = EmptyString
      \/ (forall w, In w (words text1) -> ~ In w (words text2)).
Proof.
  unfold calculateJaccardSimilarity.
  destruct text1 as [| c1 t1]; [cbn; split; [tauto | reflexivity] |].
  destruct text2 as [| c2 t2]; [cbn; split; [tauto | reflexivity] |].
  cbn [JS.falsy orb].
  set (w1 := words (String c1 t1)). set (w2 := words (String c2 t2)).
  assert (Hcommon : JS.size (JS.new_Set (filter (JS.has w2) w1)) = 0%nat
                    <-> (forall w, In w w1 -> ~ In w w2)).
  { unfold JS.size. rewrite length_zero_iff_nil, new_Set_nil. split.
    - intros Hnil w Hw1 Hw2.
      assert (Hin : In w (filter (JS.has w2) w1)) by (apply filter_In; now rewrite has_In).
      rewrite Hnil in Hin. destruct Hin.
    - intros Hno. apply filter_none. intros w Hw. apply not_true_is_false.
      rewrite has_In. now apply Hno. }
  destruct (Nat.eqb_spec (JS.size (JS.new_Set (w1 ++ w2))) 0) as [Hz | Hnz].
  - split; [| reflexivity]. intros _. right. right. intros w Hw1 _.
    unfold JS.size in Hz. apply length_zero_iff_nil in Hz.
    apply (proj1 (new_Set_nil _)) in Hz. apply app_eq_nil in Hz.
    destruct Hz as [Hz _]. rewrite Hz in Hw1. destruct Hw1.
  - rewrite ratio_zero by lia. rewrite Hcommon. split.
    + intros H. right. right. exact H.
    + intros [H | [H | H]]; [discriminate | discriminate | exact H].
Qed.

(** ** Proximity of dates *)

Lemma calculateDateProximity_by_quotient (date1 date2 : Z) :
  calculateDateProximity date1 date2
  = let days := (- ((- Z.abs (date1 - date2)) / ms_per_day))%Z in
    if (days =? 0)%Z then 1
    else if (days >? 7)%Z then 0
    else 1 - inject_Z days / inject_Z 7.
Proof.
  unfold calculateDateProximity. rewrite diffDays_as_quotient. reflexivity.
Qed.

Lemma sevenths (days : Z) : 1 - inject_Z days / inject_Z 7 == (7 - days) # 7.
Proof.
  rewrite (Qmake_Qdiv (7 - days) 7). unfold Z.sub.
  rewrite inject_Z_plus, inject_Z_opp. field.
Qed.

Lemma calculateDateProximity_swap (date1 date2 : Z) :
  calculateDateProximity date1 date2 = calculateDateProximity date2 date1.
Proof.
  unfold calculateDateProximity.
  now replace (Z.abs (date2 - date1)) with (Z.abs (date1 - date2)) by lia.
Qed.

(** X9: the proximity of two dates is 1 only for one and the same
    instant, and it is 0 as soon as the instants are more than six days
    apart: between six and seven days the seventh started day already
    gives [1 - 7/7]. *)
Theorem calculateDateProximity_extremes (date1 date2 : Z) :
  (calculateDateProximity date1 date2 == 1 <-> date1 = date2)
  /\ (calculateDateProximity date1 date2 == 0
      <-> (6 * 86400000 < Z.abs (date1 - date2))%Z).
Proof.
  rewrite calculateDateProximity_by_quotient. cbv zeta. unfold ms_per_day.
  set (days := (- (- Z.abs (date1 - date2) / 86400000))%Z).
  assert (Hdays : ((days - 1) * 86400000 < Z.abs (date1 - date2) <= days * 86400000)%Z).
  { subst days. Z.to_euclidean_division_equations. lia. }
  destruct (Z.eqb_spec days 0) as [Hz | Hnz].
  - split; split; intros H; try reflexivity; try lia. discriminate H.
  - destruct (Z.gtb_spec days 7) as [Hgt | Hle].
    + split; split; intros H; try reflexivity; try lia. discriminate H.
    + rewrite sevenths. unfold Qeq. cbn [Qnum Qden]. split; split; intros H; lia.
Qed.

(** X10: the proximity of two dates depends only on how far apart they
    are, not on their order nor on a common shift; it never grows with
    that distance, and it is always one of the eight values 0, 1/7, ...,
    6/7, 1. *)
Theorem calculateDateProximity_monotone (date1 date2 date3 date4 : Z) :
  ((Z.abs (date1 - date2) <= Z.abs (date3 - date4))%Z ->
   calculateDateProximity date3 date4 <= calculateDateProximity date1 date2)
  /\ calculateDateProximity date1 date2 = calculateDateProximity date2 date1
  /\ calculateDateProximity (date1 + date3) (date2 + date3)
     = calculateDateProximity date1 date2
  /\ exists k : Z, (0 <= k <= 7)%Z /\ calculateDateProximity date1 date2 == k # 7.
Proof.
  split; [| split; [| split]].
  - rewrite !calculateDateProximity_by_quotient. cbv zeta. unfold ms_per_day.
    set (d12 := (- (- Z.abs (date1 - date2) / 86400000))%Z).
    set (d34 := (- (- Z.abs (date3 - date4) / 86400000))%Z).
    assert (H12 : ((d12 - 1) * 86400000 < Z.abs (date1 - date2) <= d12 * 86400000)%Z).
    { subst d12. Z.to_euclidean_division_equations. lia. }
    assert (H34 : ((d34 - 1) * 86400000 < Z.abs (date3 - date4) <= d34 * 86400000)%Z).
    { subst d34. Z.to_euclidean_division_equations. lia. }
    intros Hle. assert (Hd : (0 <= d12 <= d34)%Z) by lia.
    destruct (Z.eqb_spec d12 0), (Z.eqb_spec d34 0),
      (Z.gtb_spec d12 7), (Z.gtb_spec d34 7);
      rewrite ?sevenths; unfold Qle; cbn [Qnum Qden]; lia.
  - unfold calculateDateProximity.
    now replace (Z.abs (date2 - date1)) with (Z.abs (date1 - date2)) by lia.
  - unfold calculateDateProximity.
    now replace (date1 + date3 - (date2 + date3))%Z with (date1 - date2)%Z by lia.
  - rewrite calculateDateProximity_by_quotient. cbv zeta. unfold ms_per_day.
    set (d12 := (- (- Z.abs (date1 - date2) / 86400000))%Z).
    assert (H12 : ((d12 - 1) * 86400000 < Z.abs (date1 - date2) <= d12 * 86400000)%Z).
    { subst d12. Z.to_euclidean_division_equations. lia. }
    destruct (Z.eqb_spec d12 0); [exists 7%Z; split; [lia | reflexivity] |].
    destruct (Z.gtb_spec d12 7); [exists 0%Z; split; [lia | reflexivity] |].
    exists (7 - d12)%Z. split; [lia | apply sevenths].
Qed.

Lemma calculateDateProximity_monotone_witness :
  (Z.abs (0 - 86400000) <= Z.abs (0 - 172800000))%Z
  /\ calculateDateProximity 0 172800000 <= calculateDateProximity 0 86400000.
Proof.
  split; [vm_compute; discriminate |].
  apply (proj1 (calculateDateProximity_monotone 0 86400000 0 172800000)).
  vm_compute. discriminate.
Defined.

(** ** Tiers, venues and pairs *)

(** X11: a higher probability never gets a lower tier. *)
Theorem getConfidenceLevel_monotone (p q : Q) :
  p <= q -> (tier_rank (getConfidenceLevel p) <= tier_rank (getConfidenceLevel q))%nat.
Proof.
  intros Hpq. unfold getConfidenceLevel.
  destruct (JS.ge p (9 # 10)) eqn:P9; destruct (JS.ge p (8 # 10)) eqn:P8;
    destruct (JS.ge p (6 # 10)) eqn:P6; destruct (JS.ge p (4 # 10)) eqn:P4;
    destruct (JS.ge q (9 # 10)) eqn:Q9; destruct (JS.ge q (8 # 10)) eqn:Q8;
    destruct (JS.ge q (6 # 10)) eqn:Q6; destruct (JS.ge q (4 # 10)) eqn:Q4;
    cbn [tier_rank]; try lia;
    repeat match goal with
           | H : JS.ge _ _ = true |- _ => apply ge_spec in H
           | H : JS.ge _ _ = false |- _ => apply ge_false in H
           end;
    exfalso; lra.
Qed.

Lemma getConfidenceLevel_monotone_witness :
  6 # 10 <= 9 # 10
  /\ (tier_rank (getConfidenceLevel (6 # 10)) <= tier_rank (getConfidenceLevel (9 # 10)))%nat.
Proof.
  split; [discriminate |].
  apply (getConfidenceLevel_monotone (6 # 10) (9 # 10)). discriminate.
Defined.

Lemma geoProximity_without_coordinates (calculateDistance : Q -> Q -> Q -> Q -> Q)
  (venue1 venue2 : Venue) :
  has_coordinates venue1 && has_coordinates venue2 = false ->
  geoProximity calculateDistance venue1 venue2 = 0.
Proof.
  unfold has_coordinates, geoProximity.
  destruct (coordinates venue1) as [c1 |]; [| reflexivity].
  destruct (coordinates venue2) as [c2 |]; [| reflexivity].
  now intros ->.
Qed.

(** X12: when one of the two venues has no usable coordinates, the venue
    proximity is at most 0.7 whatever the names and addresses are, so it
    never passes the 0.8 that the venue clause of the explanation asks
    for; when one of them has no address either, it is at most 0.5. *)
Theorem venue_proximity_without_coordinates (calculateDistance : Q -> Q -> Q -> Q -> Q)
  (venue1 venue2 : Venue) :
  has_coordinates venue1 && has_coordinates venue2 = false ->
  calculateVenueProximity calculateDistance venue1 venue2 <= 7 # 10
  /\ JS.gt (calculateVenueProximity calculateDistance venue1 venue2) (8 # 10) = false
  /\ (address venue1 = None \/ address venue2 = None ->
      calculateVenueProximity calculateDistance venue1 venue2 <= 5 # 10).
Proof.
  intros Hc. unfold calculateVenueProximity.
  rewrite (geoProximity_without_coordinates _ _ _ Hc).
  pose proof (calculateCombinedSimilarity_bounds (name venue1) (name venue2)) as [? ?].
  pose proof (addressSimilarity_bounds venue1 venue2) as [? ?].
  split; [lra |]. split.
  - apply not_true_is_false. intros Hgt. apply gt_spec in Hgt. lra.
  - intros Ha. assert (Hz : addressSimilarity venue1 venue2 = 0).
    { unfold addressSimilarity. destruct Ha as [-> | ->]; [reflexivity |].
      now destruct (address venue1). }
    rewrite Hz. lra.
Qed.

Lemma venue_proximity_without_coordinates_witness :
  has_coordinates scenario_venue && has_coordinates scenario_venue = false
  /\ calculateVenueProximity no_distance scenario_venue scenario_venue <= 7 # 10.
Proof.
  split; [reflexivity |].
  apply (venue_proximity_without_coordinates no_distance scenario_venue scenario_venue).
  reflexivity.
Defined.

(** X13: coordinates on the equator or on the prime meridian count as no
    coordinates: a latitude or longitude of zero is falsy, and the
    geographic term is 0 without any distance being computed. *)
Theorem zero_coordinate_is_no_coordinate (calculateDistance : Q -> Q -> Q -> Q -> Q)
  (venue1 venue2 : Venue) (c : Coordinates) :
  coordinates venue1 = Some c ->
  latitude c == 0 \/ longitude c == 0 ->
  has_coordinates venue1 = false
  /\ geoProximity calculateDistance venue1 venue2 = 0
  /\ geoProximity calculateDistance venue2 venue1 = 0.
Proof.
  intros Hc Hzero.
  assert (H : has_coordinates venue1 = false).
  { unfold has_coordinates, truthy_coordinates, JS.falsy_num. rewrite Hc.
    destruct Hzero as [Hz | Hz]; apply Qeq_bool_iff in Hz; rewrite Hz;
      [reflexivity | apply andb_false_r]. }
  split; [exact H |]. split; apply geoProximity_without_coordinates; rewrite H;
    [reflexivity | apply andb_false_r].
Qed.

Lemma zero_coordinate_is_no_coordinate_witness :
  geoProximity no_distance
    {| name := "Quito Hall"; address := None;
       coordinates := Some {| latitude := 0; longitude := -78 |} |}
    {| name := "Quito Hall"; address := None;
       coordinates := Some {| latitude := 0; longitude := -78 |} |}
  = 0.
Proof.
  apply (zero_coordinate_is_no_coordinate no_distance
           {| name := "Quito Hall"; address := None;
              coordinates := Some {| latitude := 0; longitude := -78 |} |}
           {| name := "Quito Hall"; address := None;
              coordinates := Some {| latitude := 0; longitude := -78 |} |}
           {| latitude := 0; longitude := -78 |});
    [reflexivity | left; reflexivity].
Defined.

(** X14: a pair is scored exactly when both events carry a venue, a
    start and an organizer; otherwise the scoring throws a TypeError. *)
Theorem scoring_succeeds_iff_well_formed (calculateDistance : Q -> Q -> Q -> Q -> Q)
  (event1 event2 : Event) :
  ((exists a, calculateDuplicateProbability calculateDistance event1 event2 = Ok a)
   <-> well_formed event1 = true /\ well_formed event2 = true)
  /\ (forall err,
        calculateDuplicateProbability calculateDistance event1 event2 = Throw err ->
        exists msg, err = TypeError msg).
Proof.
  unfold calculateDuplicateProbability, well_formed.
  destruct (dateTime event1) as [dt1 |], (dateTime event2) as [dt2 |],
    (venue event1) as [v1 |], (venue event2) as [v2 |],
    (organizer event1) as [o1 |], (organizer event2) as [o2 |];
    cbn [deref bind]; (split; [split |]);
    try (intros [a Ha]; discriminate Ha);
    try (intros [H1 H2]; discriminate);
    try (intros _; split; reflexivity);
    try (intros _; eexists; reflexivity);
    try (intros err Herr; injection Herr as <-; eexists; reflexivity);
    try (intros err Herr; discriminate Herr).
Qed.

Lemma calculateCombinedSimilarity_swap (text1 text2 : string) :
  calculateCombinedSimilarity text1 text2 = calculateCombinedSimilarity text2 text1.
Proof.
  unfold calculateCombinedSimilarity.
  now rewrite calculateTextSimilarity_swap, calculateJaccardSimilarity_swap.
Qed.

Lemma geoProximity_symmetric (calculateDistance : Q -> Q -> Q -> Q -> Q)
  (venue1 venue2 : Venue) :
  (forall lat1 lon1 lat2 lon2,
      calculateDistance lat1 lon1 lat2 lon2 == calculateDistance lat2 lon2 lat1 lon1) ->
  geoProximity calculateDistance venue1 venue2
  == geoProximity calculateDistance venue2 venue1.
Proof.
  intros Hsym. unfold geoProximity.
  destruct (coordinates venue1) as [c1 |], (coordinates venue2) as [c2 |];
    try reflexivity.
  rewrite (andb_comm (truthy_coordinates c2)).
  destruct (truthy_coordinates c1 && truthy_coordinates c2); [| reflexivity].
  pose proof (Hsym (latitude c1) (longitude c1) (latitude c2) (longitude c2)) as Hd.
  set (d12 := calculateDistance (latitude c1) (longitude c1) (latitude c2) (longitude c2))
    in *.
  set (d21 := calculateDistance (latitude c2) (longitude c2) (latitude c1) (longitude c1))
    in *.
  destruct (Qle_bool d12 venueProximityKm) eqn:E12,
    (Qle_bool d21 venueProximityKm) eqn:E21.
  - now rewrite Hd.
  - apply Qle_bool_iff in E12. rewrite Hd in E12. apply Qle_bool_iff in E12. congruence.
  - apply Qle_bool_iff in E21. rewrite <- Hd in E21. apply Qle_bool_iff in E21.
    congruence.
  - reflexivity.
Qed.

(** X15: when the distance between two places does not depend on their
    order, neither does the score of a pair: both orders are scored, with
    the same probability and the same venue proximity. *)
Theorem scoring_symmetric (calculateDistance : Q -> Q -> Q -> Q -> Q)
  (event1 event2 : Event) :
  (forall lat1 lon1 lat2 lon2,
      calculateDistance lat1 lon1 lat2 lon2 == calculateDistance lat2 lon2 lat1 lon1) ->
  well_formed event1 = true ->
  well_formed event2 = true ->
  exists a b,
    calculateDuplicateProbability calculateDistance event1 event2 = Ok a
    /\ calculateDuplicateProbability calculateDistance event2 event1 = Ok b
    /\ probability a == probability b
    /\ venueProximity (factors a) == venueProximity (factors b).
Proof.
  intros Hsym H1 H2.
  destruct (well_formed_fields _ H1) as (v1 & dt1 & o1 & Hv1 & Hdt1 & Ho1).
  destruct (well_formed_fields _ H2) as (v2 & dt2 & o2 & Hv2 & Hdt2 & Ho2).
  unfold calculateDuplicateProbability.
  rewrite Hv1, Hv2, Hdt1, Hdt2, Ho1, Ho2. cbn [deref bind].
  eexists _, _. split; [reflexivity |]. split; [reflexivity |].
  cbn [probability factors venueProximity].
  assert (Hvenue : calculateVenueProximity calculateDistance v1 v2
                   == calculateVenueProximity calculateDistance v2 v1).
  { unfold calculateVenueProximity.
    rewrite (geoProximity_symmetric calculateDistance v1 v2 Hsym).
    rewrite (calculateCombinedSimilarity_swap (name v1) (name v2)).
    assert (Ha : addressSimilarity v1 v2 = addressSimilarity v2 v1).
    { unfold addressSimilarity. destruct (address v1), (address v2); try reflexivity.
      apply calculateCombinedSimilarity_swap. }
    rewrite Ha. reflexivity. }
  split; [| exact Hvenue].
  rewrite Hvenue.
  rewrite (calculateCombinedSimilarity_swap (title event1) (title event2)).
  rewrite (calculateCombinedSimilarity_swap (description event1) (description event2)).
  rewrite (calculateDateProximity_swap (start dt1) (start dt2)).
  rewrite (String.eqb_sym (category event1)), (String.eqb_sym o1).
  reflexivity.
Qed.

Lemma no_distance_symmetric (lat1 lon1 lat2 lon2 : Q) :
  no_distance lat1 lon1 lat2 lon2 == no_distance lat2 lon2 lat1 lon1.
Proof. reflexivity. Defined.

Lemma scoring_symmetric_witness :
  exists a b,
    calculateDuplicateProbability no_distance
      (scenario_candidate 0 "u1") (scenario_stored 0 "u2") = Ok a
    /\ calculateDuplicateProbability no_distance
         (scenario_stored 0 "u2") (scenario_candidate 0 "u1") = Ok b
    /\ probability a == probability b.
Proof.
  destruct (scoring_symmetric no_distance (scenario_candidate 0 "u1")
              (scenario_stored 0 "u2") no_distance_symmetric eq_refl eq_refl)
    as (a & b & Ha & Hb & Hp & _).
  exists a, b. repeat split; assumption.
Defined.

(** ** What [checkForDuplicates] retrieves and reports *)

Lemma firstn_In_any {A : Type} (n : nat) (xs : list A) (x : A) :
  In x (firstn n xs) -> In x xs.
Proof.
  revert n. induction xs as [| y xs IH]; intros [| n]; simpl; try tauto.
  intros [-> | H]; [now left | right; now apply (IH n)].
Qed.

Lemma apply_limit_In (n : nat) (xs : list Event) (e : Event) :
  In e (apply_limit n xs) -> In e xs.
Proof.
  unfold apply_limit. destruct (n =? 0)%nat; [tauto | apply firstn_In_any].
Qed.

Lemma retrieve_inv (newEvent : Event) (options : Options) (store : Store)
  (pool : list Event) :
  retrieve newEvent options store = Ok pool ->
  exists dt query,
    dateTime newEvent = Some dt
    /\ build_query newEvent (excludeEventId options) = Ok query
    /\ find_rejects store = false
    /\ pool = apply_limit (limit_of options) (filter (matches query) (docs store)).
Proof.
  unfold retrieve, build_query, Event_find.
  destruct (dateTime newEvent) as [dt |]; cbn [deref bind]; [| discriminate].
  destruct (find_rejects store); [discriminate |].
  intros H. injection H as <-. exists dt. eexists. repeat split.
Qed.

Lemma retrieved_document (newEvent : Event) (options : Options) (store : Store)
  (pool : list Event) (e : Event) :
  retrieve newEvent options store = Ok pool ->
  In e pool ->
  In e (docs store)
  /\ (status e = "draft" \/ status e = "published")
  /\ category e = category newEvent
  /\ (exists dt dt',
        dateTime newEvent = Some dt /\ dateTime e = Some dt'
        /\ (Z.abs (start dt' - start dt) <= 7 * 86400000)%Z)
  /\ (forall id,
        excludeEventId options = Some id -> id <> EmptyString ->
        event_id e <> id).
Proof.
  intros Hret He.
  destruct (retrieve_inv _ _ _ _ Hret) as (dt & query & Hdt & Hq & _ & ->).
  unfold build_query in Hq. rewrite Hdt in Hq. cbn [deref bind] in Hq.
  injection Hq as <-.
  apply apply_limit_In in He. apply filter_In in He.
  destruct He as [Hin Hm]. unfold matches in Hm.
  cbn [q_status_in q_category q_start_gte q_start_lte q_id_ne existsb] in Hm.
  apply andb_prop in Hm. destruct Hm as [Hm Hid].
  apply andb_prop in Hm. destruct Hm as [Hm Hdate].
  apply andb_prop in Hm. destruct Hm as [Hstatus Hcat].
  split; [exact Hin |]. split.
  { apply orb_prop in Hstatus. destruct Hstatus as [H | H].
    - left. now apply String.eqb_eq.
    - apply orb_prop in H. destruct H as [H | H]; [| discriminate H].
      right. now apply String.eqb_eq. }
  split; [now apply String.eqb_eq |]. split.
  { destruct (dateTime e) as [dt' |]; [| discriminate].
    exists dt, dt'. split; [exact Hdt |]. split; [reflexivity |].
    unfold dateProximityDays in Hdate.
    apply andb_prop in Hdate. destruct Hdate as [H1 H2].
    apply Z.leb_le in H1, H2. lia. }
  intros id Hex Hne. rewrite Hex in Hid.
  destruct id as [| c id]; [congruence |]. cbn [JS.falsy] in Hid.
  apply negb_true_iff, String.eqb_neq in Hid. exact Hid.
Qed.

(** X16: the look-up of [checkForDuplicates] fails exactly when the
    candidate has no [dateTime] or the store rejects the query; otherwise
    every retrieved document is a stored document in status draft or
    published, of the candidate's category, starting at most seven days
    before or after the candidate, and is not the excluded document; and
    a non-zero limit bounds their number. *)
Theorem retrieve_sound (newEvent : Event) (options : Options) (store : Store) :
  ((exists pool, retrieve newEvent options store = Ok pool)
   <-> dateTime newEvent <> None /\ find_rejects store = false)
  /\ forall pool,
       retrieve newEvent options store = Ok pool ->
       (limit_of options <> 0%nat -> (List.length pool <= limit_of options)%nat)
       /\ forall e,
            In e pool ->
            In e (docs store)
            /\ (status e = "draft" \/ status e = "published")
            /\ category e = category newEvent
            /\ (exists dt dt',
                  dateTime newEvent = Some dt /\ dateTime e = Some dt'
                  /\ (Z.abs (start dt' - start dt) <= 7 * 86400000)%Z)
            /\ (forall id,
                  excludeEventId options = Some id -> id <> EmptyString ->
                  event_id e <> id).
Proof.
  split.
  - unfold retrieve, build_query, Event_find.
    destruct (dateTime newEvent) as [dt |]; cbn [deref bind].
    + destruct (find_rejects store); split.
      * intros [pool H]. discriminate H.
      * intros [_ H]. discriminate H.
      * intros _. split; [discriminate | reflexivity].
      * intros _. eexists. reflexivity.
    + split; [intros [pool H]; discriminate H | intros [H _]; congruence].
  - intros pool Hret. split.
    + destruct (retrieve_inv _ _ _ _ Hret) as (dt & query & _ & _ & _ & ->).
      intros Hlim. unfold apply_limit.
      destruct (Nat.eqb_spec (limit_of options) 0); [contradiction |].
      apply firstn_le_length.
    + intros e He. exact (retrieved_document _ _ _ _ _ Hret He).
Qed.

Lemma retrieve_sound_witness :
  retrieve (scenario_candidate 0 "u1") default_options healthy_store
  = Ok [scenario_stored 0 "u2"; scenario_stored 0 "u1"]
  /\ category (scenario_stored 0 "u2") = category (scenario_candidate 0 "u1").
Proof.
  split; [reflexivity |].
  apply (proj2 (retrieve_sound (scenario_candidate 0 "u1") default_options healthy_store)
           [scenario_stored 0 "u2"; scenario_stored 0 "u1"] eq_refl).
  left. reflexivity.
Defined.

Lemma score_loop_ok_inv (calculateDistance : Q -> Q -> Q -> Q -> Q) (newEvent : Event)
  (threshold : Q) (pool : list Event) (duplicates0 suggestions0 : list Verdict)
  (out : list Verdict * list Verdict) :
  score_loop calculateDistance newEvent threshold pool duplicates0 suggestions0 = Ok out ->
  exists analyses, Forall2 (scores calculateDistance newEvent) pool analyses.
Proof.
  revert duplicates0 suggestions0.
  induction pool as [| e pool IH]; intros duplicates0 suggestions0 H.
  - exists []. constructor.
  - cbn [score_loop] in H.
    destruct (calculateDuplicateProbability calculateDistance newEvent e) as [a | err]
      eqn:E; cbn [bind] in H; [| discriminate H].
    assert (Hrest : exists analyses,
               Forall2 (scores calculateDistance newEvent) pool analyses).
    { destruct (JS.ge (probability a) threshold);
        [| destruct (JS.ge (probability a) (5 # 10))]; exact (IH _ _ H). }
    destruct Hrest as [analyses Hrest]. exists (a :: analyses). now constructor.
Qed.

Lemma checkForDuplicates_ok_inv (calculateDistance : Q -> Q -> Q -> Q -> Q)
  (newEvent : Event) (options : Options) (store : Store) (r : AnalysisResult) :
  checkForDuplicates calculateDistance newEvent options store = Ok r ->
  exists pool analyses,
    retrieve newEvent options store = Ok pool
    /\ Forall2 (scores calculateDistance newEvent) pool analyses
    /\ duplicates r
       = firstn 5 (sort_by_probability
                     (bucket goes_to_duplicates (threshold_of options) pool analyses))
    /\ suggestions r
       = firstn 3 (sort_by_probability
                     (bucket goes_to_suggestions (threshold_of options) pool analyses))
    /\ analysis r
       = {| totalChecked := List.length pool;
            threshold_used := threshold_of options;
            highConfidenceDuplicates :=
              count_confidence HIGH
                (sort_by_probability
                   (bucket goes_to_duplicates (threshold_of options) pool analyses));
            mediumConfidenceDuplicates :=
              count_confidence MEDIUM
                (sort_by_probability
                   (bucket goes_to_duplicates (threshold_of options) pool analyses)) |}.
Proof.
  unfold checkForDuplicates, analyse.
  destruct (retrieve newEvent options store) as [pool | err] eqn:Hret;
    cbn [bind try_catch]; [| discriminate].
  destruct (score_loop calculateDistance newEvent (threshold_of options) pool [] [])
    as [out | err] eqn:Hloop; cbn [bind try_catch]; [| discriminate].
  destruct (score_loop_ok_inv _ _ _ _ _ _ _ Hloop) as [analyses Hsc].
  rewrite (score_loop_result calculateDistance newEvent options pool analyses Hsc)
    in Hloop.
  injection Hloop as <-. cbn [fst snd]. intros H. injection H as <-.
  exists pool, analyses. repeat split; assumption.
Qed.

Lemma scored_categoryMatch (calculateDistance : Q -> Q -> Q -> Q -> Q)
  (event1 event2 : Event) (a : Analysis) :
  calculateDuplicateProbability calculateDistance event1 event2 = Ok a ->
  categoryMatch (factors a)
  = if String.eqb (category event1) (category event2) then 1 else 0.
Proof.
  unfold calculateDuplicateProbability.
  destruct (dateTime event1), (dateTime event2), (venue event1), (venue event2),
    (organizer event1), (organizer event2); cbn [deref bind]; try discriminate.
  intros H. injection H as <-. reflexivity.
Qed.

Lemma in_reported (calculateDistance : Q -> Q -> Q -> Q -> Q) (newEvent : Event)
  (threshold : Q) (pool : list Event) (analyses : list Analysis)
  (test : Q -> Event * Analysis -> bool) (n : nat) (v : Verdict) :
  Forall2 (scores calculateDistance newEvent) pool analyses ->
  In v (firstn n (sort_by_probability (bucket test threshold pool analyses))) ->
  exists e a,
    In e pool
    /\ calculateDuplicateProbability calculateDistance newEvent e = Ok a
    /\ test threshold (e, a) = true
    /\ v = make_verdict e a.
Proof.
  intros Hsc Hin. apply firstn_incl in Hin.
  apply (Permutation_in _ (sort_by_probability_perm _)) in Hin.
  unfold bucket in Hin. apply in_map_iff in Hin.
  destruct Hin as [[e a] [Hv Hin]]. apply filter_In in Hin. destruct Hin as [Hin Ht].
  exists e, a. repeat split.
  - now apply in_combine_l in Hin.
  - exact (scored_combine calculateDistance newEvent pool analyses e a Hsc Hin).
  - exact Ht.
  - now rewrite <- Hv.
Qed.


Lemma filter_two_length {A : Type} (f g : A -> bool) (xs : list A) :
  (forall x, f x && g x = false) ->
  (List.length (filter f xs) + List.length (filter g xs) <= List.length xs)%nat.
Proof.
  intros Hfg. induction xs as [| x xs IH]; simpl; [lia |].
  specialize (Hfg x). destruct (f x), (g x); simpl in *; try discriminate; lia.
Qed.

Lemma combine_length_le (pool : list Event) (analyses : list Analysis) :
  (List.length (combine pool analyses) <= List.length pool)%nat.
Proof. rewrite length_combine. lia. Qed.

Lemma bucket_confidence (threshold : Q) (pool : list Event) (analyses : list Analysis)
  (v : Verdict) :
  In v (sort_by_probability (bucket goes_to_duplicates threshold pool analyses)) ->
  threshold <= v_probability v /\ confidence v = getConfidenceLevel (v_probability v).
Proof.
  intros Hin. apply (Permutation_in _ (sort_by_probability_perm _)) in Hin.
  unfold bucket in Hin. apply in_map_iff in Hin. destruct Hin as [[e a] [<- Hin]].
  apply filter_In in Hin. destruct Hin as [_ Ht].
  apply goes_to_duplicates_spec in Ht. split; [exact Ht | reflexivity].
Qed.

(** X18: in a result of [checkForDuplicates], [totalChecked] is the
    number of retrieved documents and bounds the number of reported
    duplicates and suggestions together; with a threshold of at least
    0.8, as at the creation gate, [mediumConfidenceDuplicates] is 0, and
    with a threshold of at least 0.9 [highConfidenceDuplicates] is 0
    too. *)
Theorem analysis_counts (calculateDistance : Q -> Q -> Q -> Q -> Q)
  (newEvent : Event) (options : Options) (store : Store) (r : AnalysisResult) :
  checkForDuplicates calculateDistance newEvent options store = Ok r ->
  (exists pool,
      retrieve newEvent options store = Ok pool
      /\ totalChecked (analysis r) = List.length pool)
  /\ threshold_used (analysis r) = threshold_of options
  /\ (List.length (duplicates r) + List.length (suggestions r)
      <= totalChecked (analysis r))%nat
  /\ (8 # 10 <= threshold_of options -> mediumConfidenceDuplicates (analysis r) = 0%nat)
  /\ (9 # 10 <= threshold_of options -> highConfidenceDuplicates (analysis r) = 0%nat).
Proof.
  intros Hr.
  destruct (checkForDuplicates_ok_inv _ _ _ _ _ Hr)
    as (pool & analyses & Hret & Hsc & Hd & Hs & Ha).
  rewrite Ha, Hd, Hs. cbn [totalChecked threshold_used mediumConfidenceDuplicates
    highConfidenceDuplicates].
  split; [now exists pool |]. split; [reflexivity |]. split.
  - pose proof (firstn_le_length 5
                  (sort_by_probability
                     (bucket goes_to_duplicates (threshold_of options) pool analyses)))
      as H5.
    pose proof (firstn_le_length 3
                  (sort_by_probability
                     (bucket goes_to_suggestions (threshold_of options) pool analyses)))
      as H3.
    rewrite !length_firstn.
    rewrite !(Permutation_length (sort_by_probability_perm _)).
    unfold bucket. rewrite !length_map.
    pose proof (filter_two_length (goes_to_duplicates (threshold_of options))
                  (goes_to_suggestions (threshold_of options))
                  (combine pool analyses)) as Hf.
    pose proof (combine_length_le pool analyses) as Hc.
    assert (Hdisj : forall x, goes_to_duplicates (threshold_of options) x
                              && goes_to_suggestions (threshold_of options) x = false).
    { intros x. unfold goes_to_duplicates, goes_to_suggestions.
      destruct (JS.ge (probability (snd x)) (threshold_of options)); reflexivity. }
    specialize (Hf Hdisj). lia.
  - split; intros Hthr; unfold count_confidence; rewrite filter_none; try reflexivity;
      intros v Hv; apply bucket_confidence in Hv; destruct Hv as [Hp ->];
      unfold getConfidenceLevel.
    + assert (H8 : JS.ge (v_probability v) (8 # 10) = true) by (apply ge_spec; lra).
      destruct (JS.ge (v_probability v) (9 # 10)); [reflexivity |].
      rewrite H8. reflexivity.
    + assert (H9 : JS.ge (v_probability v) (9 # 10) = true) by (apply ge_spec; lra).
      rewrite H9. reflexivity.
Qed.

Lemma analysis_counts_witness :
  exists r,
    checkForDuplicates no_distance (scenario_candidate 0 "u1") default_options
      healthy_store = Ok r
    /\ totalChecked (analysis r) = 2%nat
    /\ mediumConfidenceDuplicates (analysis r) = 0%nat.
Proof.
  destruct (checkForDuplicates no_distance (scenario_candidate 0 "u1") default_options
              healthy_store) as [r | err] eqn:E; [| vm_compute in E; discriminate E].
  exists r. split; [reflexivity |].
  destruct (analysis_counts no_distance (scenario_candidate 0 "u1") default_options
              healthy_store r E) as ([pool [Hret Htot]] & _ & _ & Hmed & _).
  split.
  - rewrite Htot. vm_compute in Hret. injection Hret as <-. reflexivity.
  - apply Hmed. vm_compute. discriminate.
Defined.

Lemma descending_firstn_skipn (n : nat) (xs : list Verdict) (d v : Verdict) :
  descending xs -> In d (firstn n xs) -> In v (skipn n xs) ->
  v_probability v <= v_probability d.
Proof.
  unfold descending. intros H. revert n.
  induction H as [| b xs Hxs IH Hb]; intros [| n]; simpl; try tauto.
  intros [<- | Hd] Hv.
  - rewrite Forall_forall in Hb. apply Hb.
    rewrite <- (firstn_skipn n xs). apply in_or_app. now right.
  - now apply (IH n).
Qed.

(** X19: the duplicates that [checkForDuplicates] returns are the best
    of the bucket: a verdict of the bucket that is left out has at most
    the probability of every verdict that is returned, and a bucket of at
    most five verdicts is returned whole; likewise for the suggestions
    and three. *)
Theorem reported_are_the_best (calculateDistance : Q -> Q -> Q -> Q -> Q)
  (newEvent : Event) (options : Options) (store : Store) (r : AnalysisResult) :
  checkForDuplicates calculateDistance newEvent options store = Ok r ->
  exists pool dups suggs,
    retrieve newEvent options store = Ok pool
    /\ score_loop calculateDistance newEvent (threshold_of options) pool [] []
       = Ok (dups, suggs)
    /\ (forall d v,
          In d (duplicates r) -> In v dups ->
          In v (duplicates r) \/ v_probability v <= v_probability d)
    /\ (forall s v,
          In s (suggestions r) -> In v suggs ->
          In v (suggestions r) \/ v_probability v <= v_probability s)
    /\ ((List.length dups <= 5)%nat -> Permutation (duplicates r) dups)
    /\ ((List.length suggs <= 3)%nat -> Permutation (suggestions r) suggs).
Proof.
  intros Hr.
  destruct (checkForDuplicates_ok_inv _ _ _ _ _ Hr)
    as (pool & analyses & Hret & Hsc & Hd & Hs & _).
  exists pool. eexists _, _. split; [exact Hret |].
  split; [exact (score_loop_result calculateDistance newEvent options pool analyses Hsc) |].
  rewrite Hd, Hs.
  assert (Hbest : forall n xs d v,
             In d (firstn n (sort_by_probability xs)) -> In v xs ->
             In v (firstn n (sort_by_probability xs))
             \/ v_probability v <= v_probability d).
  { intros n xs d v Hdin Hv.
    apply (Permutation_in _ (Permutation_sym (sort_by_probability_perm xs))) in Hv.
    rewrite <- (firstn_skipn n (sort_by_probability xs)) in Hv.
    apply in_app_or in Hv. destruct Hv as [Hv | Hv]; [now left | right].
    exact (descending_firstn_skipn n _ d v (sort_by_probability_descending xs) Hdin Hv). }
  assert (Hall : forall n xs,
             (List.length xs <= n)%nat ->
             Permutation (firstn n (sort_by_probability xs)) xs).
  { intros n xs Hlen. rewrite firstn_all2; [apply sort_by_probability_perm |].
    now rewrite (Permutation_length (sort_by_probability_perm xs)). }
  repeat split; auto.
Qed.

Lemma reported_are_the_best_witness :
  exists r pool,
    checkForDuplicates no_distance (scenario_candidate 0 "u1") default_options
      healthy_store = Ok r
    /\ retrieve (scenario_candidate 0 "u1") default_options healthy_store = Ok pool.
Proof.
  destruct (checkForDuplicates no_distance (scenario_candidate 0 "u1") default_options
              healthy_store) as [r | err] eqn:E; [| vm_compute in E; discriminate E].
  destruct (reported_are_the_best no_distance (scenario_candidate 0 "u1") default_options
              healthy_store r E) as (pool & dups & suggs & Hret & _).
  exists r, pool. split; [reflexivity | exact Hret].
Defined.

Lemma insert_verdict_ties (q : Q) (a : Verdict) (xs : list Verdict) :
  descending xs ->
  filter (fun v => Qeq_bool (v_probability v) q) (insert_verdict a xs)
  = filter (fun v => Qeq_bool (v_probability v) q) (a :: xs).
Proof.
  unfold descending. intros H. induction H as [| b xs Hxs IH Hb]; [reflexivity |].
  cbn [insert_verdict]. destruct (comes_after a b) eqn:E; [| reflexivity].
  apply comes_after_spec in E. cbn [filter] in *. rewrite IH.
  destruct (Qeq_bool (v_probability a) q) eqn:Ea; [| reflexivity].
  destruct (Qeq_bool (v_probability b) q) eqn:Eb; [| reflexivity].
  apply Qeq_bool_iff in Ea, Eb. exfalso. rewrite Ea, Eb in E.
  exact (Qlt_irrefl _ E).
Qed.

(** X20: sorting by probability is stable: the verdicts of one and the
    same probability keep the order in which they were pushed. *)
Theorem sort_by_probability_stable (q : Q) (xs : list Verdict) :
  filter (fun v => Qeq_bool (v_probability v) q) (sort_by_probability xs)
  = filter (fun v => Qeq_bool (v_probability v) q) xs.
Proof.
  induction xs as [| a xs IH]; [reflexivity |].
  cbn [sort_by_probability fold_right].
  rewrite insert_verdict_ties by apply sort_by_probability_descending.
  cbn [filter]. fold (sort_by_probability xs). rewrite IH. reflexivity.
Qed.

Lemma explanation_fallback_tests (analysis : Verdict) :
  generateExplanation analysis = "General similarity detected"
  <-> JS.gt (titleSimilarity (v_factors analysis)) (8 # 10) = false
      /\ JS.gt (descriptionSimilarity (v_factors analysis)) (7 # 10) = false
      /\ JS.gt (dateProximity (v_factors analysis)) (8 # 10) = false
      /\ JS.gt (venueProximity (v_factors analysis)) (8 # 10) = false
      /\ Qeq_bool (categoryMatch (v_factors analysis)) 1 = false
      /\ Qeq_bool (organizerMatch (v_factors analysis)) 1 = false.
Proof.
  unfold generateExplanation.
  destruct (JS.gt (titleSimilarity (v_factors analysis)) (8 # 10));
    destruct (JS.gt (descriptionSimilarity (v_factors analysis)) (7 # 10));
    destruct (JS.gt (dateProximity (v_factors analysis)) (8 # 10));
    destruct (JS.gt (venueProximity (v_factors analysis)) (8 # 10));
    destruct (Qeq_bool (categoryMatch (v_factors analysis)) 1);
    destruct (Qeq_bool (organizerMatch (v_factors analysis)) 1);
    cbn [push_if concat app List.length Nat.ltb Nat.leb JS.join String.append];
    split; intros H; try discriminate H; try reflexivity;
    try (repeat split; reflexivity);
    try (destruct H as (H1 & H2 & H3 & H4 & H5 & H6); discriminate).
Qed.

(** The explanation of a scored pair of events of one category names the
    category. *)
Lemma same_category_is_explained (calculateDistance : Q -> Q -> Q -> Q -> Q)
  (event1 event2 : Event) (a : Analysis) :
  calculateDuplicateProbability calculateDistance event1 event2 = Ok a ->
  category event1 = category event2 ->
  generateExplanation (make_verdict event2 a) <> "General similarity detected".
Proof.
  intros Ha Hcat Hfall. apply explanation_fallback_tests in Hfall.
  destruct Hfall as (_ & _ & _ & _ & Hc & _). cbn [make_verdict v_factors] in Hc.
  rewrite (scored_categoryMatch _ _ _ _ Ha), Hcat, String.eqb_refl in Hc.
  discriminate Hc.
Qed.



(** ** The creation route *)

Lemma sorted_head_is_best (xs : list Verdict) (v : Verdict) :
  In v xs ->
  exists h rest,
    sort_by_probability xs = h :: rest
    /\ In h xs
    /\ v_probability v <= v_probability h.
Proof.
  intros Hv.
  pose proof (sort_by_probability_perm xs) as Hperm.
  pose proof (sort_by_probability_descending xs) as Hdesc.
  destruct (sort_by_probability xs) as [| h rest] eqn:E.
  - apply Permutation_nil in Hperm. subst xs. destruct Hv.
  - exists h, rest. split; [reflexivity |]. split.
    + apply (Permutation_in _ Hperm). now left.
    + apply (Permutation_in _ (Permutation_sym Hperm)) in Hv.
      destruct Hv as [-> | Hv]; [apply Qle_refl |].
      unfold descending in Hdesc. inversion Hdesc as [| ? ? _ Hall]; subst.
      rewrite Forall_forall in Hall. now apply Hall.
Qed.

Lemma very_high_iff (p : Q) : getConfidenceLevel p = VERY_HIGH <-> 9 # 10 <= p.
Proof.
  split; [| apply getConfidenceLevel_very_high].
  unfold getConfidenceLevel. destruct (JS.ge p (9 # 10)) eqn:E.
  - intros _. now apply ge_spec.
  - destruct (JS.ge p (8 # 10)); [discriminate |].
    destruct (JS.ge p (6 # 10)); [discriminate |].
    destruct (JS.ge p (4 # 10)); discriminate.
Qed.

(** A verdict of tier VERY_HIGH is among the first [n] of the sorted
    bucket as soon as it is in the bucket at all. *)
Lemma very_high_survives (n : nat) (threshold : Q) (pool : list Event)
  (analyses : list Analysis) :
  threshold <= 9 # 10 ->
  ((exists v,
       In v (firstn (S n)
               (sort_by_probability
                  (bucket goes_to_duplicates threshold pool analyses)))
       /\ confidence v = VERY_HIGH)
   <-> exists p, In p (combine pool analyses) /\ 9 # 10 <= probability (snd p)).
Proof.
  intros Hthr. split.
  - intros (v & Hin & Hc). apply firstn_incl in Hin.
    apply (Permutation_in _ (sort_by_probability_perm _)) in Hin.
    unfold bucket in Hin. apply in_map_iff in Hin. destruct Hin as [p [<- Hin]].
    apply filter_In in Hin. exists p. split; [tauto |].
    now apply very_high_iff in Hc.
  - intros (p & Hin & Hp).
    assert (Hb : In (verdict_of p) (bucket goes_to_duplicates threshold pool analyses)).
    { unfold bucket. apply in_map, filter_In. split; [exact Hin |].
      apply goes_to_duplicates_spec. lra. }
    destruct (sorted_head_is_best _ _ Hb) as (h & rest & Hsort & Hh & Hle).
    exists h. rewrite Hsort. split; [now left |].
    unfold bucket in Hh. apply in_map_iff in Hh. destruct Hh as [ph [<- _]].
    apply very_high_iff. cbn in Hle |- *. lra.
Qed.

Lemma filter_nonempty_iff {A : Type} (f : A -> bool) (xs : list A) :
  (0 <? List.length (filter f xs))%nat = true <-> exists x, In x xs /\ f x = true.
Proof.
  rewrite Nat.ltb_lt. split.
  - intros H. destruct (filter f xs) as [| x rest] eqn:E; [simpl in H; lia |].
    exists x. apply filter_In. rewrite E. now left.
  - intros (x & Hin & Hf). assert (Hx : In x (filter f xs)) by now apply filter_In.
    destruct (filter f xs); [destruct Hx | simpl; lia].
Qed.

Lemma confidence_eqb_spec (a b : ConfidenceLevel) :
  ConfidenceLevel_eqb a b = true <-> a = b.
Proof. destruct a, b; simpl; split; congruence. Qed.

Lemma duplicate_gate_spec (calculateDistance : Q -> Q -> Q -> Q -> Q) (req : Request)
  (store : Store) (pool : list Event) (analyses : list Analysis) :
  skipDuplicateCheck req = false ->
  retrieve (with_organizer req) gate_options store = Ok pool ->
  Forall2 (scores calculateDistance (with_organizer req)) pool analyses ->
  ((exists p, In p (combine pool analyses) /\ 9 # 10 <= probability (snd p)) ->
   exists ds,
     duplicate_gate calculateDistance req store = Ok (Some (DuplicateDetected ds))
     /\ ds <> []
     /\ forall d, In d ds ->
          confidence (fst d) = VERY_HIGH /\ snd d = generateExplanation (fst d))
  /\ (~ (exists p, In p (combine pool analyses) /\ 9 # 10 <= probability (snd p)) ->
      duplicate_gate calculateDistance req store = Ok None).
Proof.
  intros Hskip Hret Hsc.
  destruct (checkForDuplicates_result calculateDistance (with_organizer req) gate_options
              store pool analyses Hret Hsc) as (r & Hr & _ & Hd & _).
  unfold duplicate_gate. rewrite Hskip, Hr. cbn [negb bind].
  set (vh := filter (fun d => ConfidenceLevel_eqb (confidence d) VERY_HIGH) (duplicates r)).
  assert (Hiff : (0 <? List.length vh)%nat = true
                 <-> exists p, In p (combine pool analyses)
                               /\ 9 # 10 <= probability (snd p)).
  { subst vh. rewrite filter_nonempty_iff, Hd.
    rewrite <- (very_high_survives 4 (threshold_of gate_options) pool analyses)
      by (cbn; lra).
    split; intros (v & Hin & Hc); exists v; split; try assumption;
      now apply confidence_eqb_spec. }
  split.
  - intros Hex. rewrite (proj2 Hiff Hex). eexists. split; [reflexivity |]. split.
    + apply Hiff in Hex. destruct vh; [simpl in Hex; discriminate | discriminate].
    + intros d Hin. apply in_map_iff in Hin. destruct Hin as [v [<- Hv]].
      subst vh. apply filter_In in Hv. cbn [fst snd]. split; [| reflexivity].
      now apply confidence_eqb_spec.
  - intros Hno. destruct (0 <? List.length vh)%nat eqn:E; [| reflexivity].
    exfalso. apply Hno, Hiff. reflexivity.
Qed.



(** What [create_event] does, by the first of its three awaited
    operations that rejects. *)
Lemma create_event_outcomes (req : Request) (store : Store) :
  ((exists error, create_event req store = Throw error)
   /\ ((body_sets_maxAttendees req = false /\ venue (body req) = None)
       \/ create_rejects store = true
       \/ (body_has_id req = true
           /\ In (event_id (body req)) (map event_id (docs store)))
       \/ (body_has_status req = true /\ ~ In (status (body req)) status_enum)))
  \/ exists doc stored,
       Event_create (with_organizer req) (body_has_id req) (body_has_status req) store
       = Ok (doc, stored)
       /\ docs stored = (docs store ++ [doc])%list
       /\ eventsCreated stored = eventsCreated store
       /\ populate_rejects stored = populate_rejects store
       /\ stats_update_rejects stored = stats_update_rejects store
       /\ organizer doc = Some (user_id req)
       /\ status doc = (if body_has_status req then status (body req) else "draft")
       /\ In (status doc) status_enum
       /\ (body_has_id req = true -> ~ In (event_id (body req)) (map event_id (docs store)))
       /\ ((populate_rejects store = true
            /\ create_event req store
               = Ok (ServerError "Server error creating event", stored))
           \/ (populate_rejects store = false
               /\ stats_update_rejects store = true
               /\ create_event req store
                  = Ok (ServerError "Server error creating event", stored))
           \/ (populate_rejects store = false
               /\ stats_update_rejects store = false
               /\ exists counted,
                    create_event req store = Ok (Created doc, counted)
                    /\ docs counted = docs stored
                    /\ eventsCreated counted (user_id req)
                       = (eventsCreated store (user_id req) + 1)%Z)).
Proof.
  assert (Hvenue : (body_sets_maxAttendees req = false /\ venue (body req) = None)
                   \/ (if body_sets_maxAttendees req then Ok tt
                       else venue <- deref "venue" (venue (body req)) ;; Ok tt) = Ok tt).
  { destruct (body_sets_maxAttendees req); [now right |].
    destruct (venue (body req)); [now right | now left]. }
  unfold create_event. destruct Hvenue as [[Hset Hnone] | ->].
  { left. rewrite Hset, Hnone. cbn [deref bind]. split; [eexists; reflexivity | now left]. }
  cbn [bind]. unfold Event_create, Event_populate, User_count_created.
  cbn [with_organizer event_id status].
  destruct (create_rejects store) eqn:Hc; cbn [orb bind];
    [left; split; [eexists; reflexivity | right; now left] |].
  destruct (body_has_id req && existsb (String.eqb (event_id (body req)))
                                       (map event_id (docs store))) eqn:Hid;
    cbn [orb bind].
  { left. split; [eexists; reflexivity |]. right. right. left.
    apply andb_true_iff in Hid. destruct Hid as [Hown Hex]. split; [exact Hown |].
    apply existsb_exists in Hex. destruct Hex as (x & Hin & Hx).
    apply String.eqb_eq in Hx. now subst x. }
  destruct (body_has_status req && negb (existsb (String.eqb (status (body req)))
                                                 status_enum)) eqn:Hst;
    cbn [orb bind].
  { left. split; [eexists; reflexivity |]. right. right. right.
    apply andb_true_iff in Hst. destruct Hst as [Hown Hex]. split; [exact Hown |].
    intros Hin. apply negb_true_iff in Hex.
    assert (Ht : existsb (String.eqb (status (body req))) status_enum = true).
    { apply existsb_exists. exists (status (body req)). split; [exact Hin |].
      apply String.eqb_refl. }
    congruence. }
  right. eexists. eexists. split; [reflexivity |].
  cbn [docs eventsCreated populate_rejects stats_update_rejects organizer status fst snd].
  repeat (split; [reflexivity |]). split.
  { destruct (body_has_status req); [| cbn; tauto].
    cbn [andb] in Hst. apply negb_false_iff in Hst. apply existsb_exists in Hst.
    destruct Hst as (x & Hin & Hx). apply String.eqb_eq in Hx. now subst x. }
  split.
  { intros Hown Hin. rewrite Hown in Hid. cbn [andb] in Hid.
    assert (Ht : existsb (String.eqb (event_id (body req))) (map event_id (docs store))
                 = true).
    { apply existsb_exists. exists (event_id (body req)). split; [exact Hin |].
      apply String.eqb_refl. }
    congruence. }
  destruct (populate_rejects store); [left; split; reflexivity |].
  right. destruct (stats_update_rejects store); [left; repeat split |].
  right. split; [reflexivity |]. split; [reflexivity |].
  eexists. split; [reflexivity |]. cbn [docs eventsCreated].
  split; [reflexivity |]. now rewrite String.eqb_refl.
Qed.

(** A valid request that skips the check goes straight to the creation
    steps. *)
Lemma post_event_skipping (calculateDistance : Q -> Q -> Q -> Q -> Q) (now : Z)
  (req : Request) (store : Store) (dt : DateTime) :
  validation_errors req = false ->
  dateTime (body req) = Some dt ->
  (now < start dt)%Z ->
  (start dt < finish dt)%Z ->
  skipDuplicateCheck req = true ->
  post_event calculateDistance now req store
  = match create_event req store with
    | Ok out => out
    | Throw _ => (ServerError "Server error creating event", store)
    end.
Proof.
  intros Hval Hdt Hstart Hend Hskip.
  unfold post_event, duplicate_gate. rewrite Hval, Hdt, Hskip. cbn [deref bind negb].
  rewrite (proj2 (Z.leb_gt (start dt) now) Hstart).
  rewrite (proj2 (Z.leb_gt (finish dt) (start dt)) Hend).
  cbn [bind]. reflexivity.
Qed.

(** X23: a valid request that sets [skipDuplicateCheck] is never checked:
    whatever the store holds and whatever the distance function is, and
    even when the look-ups of the store reject, the answer is that of the
    creation steps alone.  It is 201 when [Event.create], [populate] and
    [updateOne] all succeed; the new document then belongs to the
    authenticated user and has the status that the body asks for, or
    ['draft'] when the body names none.  [venue] is there for every body
    that passes the validators. *)
Theorem skip_flag_bypasses_the_detector (calculateDistance : Q -> Q -> Q -> Q -> Q)
  (now : Z) (req : Request) (store : Store) (dt : DateTime) :
  validation_errors req = false ->
  dateTime (body req) = Some dt ->
  (now < start dt)%Z ->
  (start dt < finish dt)%Z ->
  venue (body req) <> None ->
  skipDuplicateCheck req = true ->
  post_event calculateDistance now req store
  = match create_event req store with
    | Ok out => out
    | Throw _ => (ServerError "Server error creating event", store)
    end
  /\ (create_rejects store = false ->
      populate_rejects store = false ->
      stats_update_rejects store = false ->
      (body_has_id req = true ->
       ~ In (event_id (body req)) (map event_id (docs store))) ->
      (body_has_status req = true -> In (status (body req)) status_enum) ->
      exists doc,
        fst (post_event calculateDistance now req store) = Created doc
        /\ docs (snd (post_event calculateDistance now req store))
           = (docs store ++ [doc])%list
        /\ organizer doc = Some (user_id req)
        /\ status doc = (if body_has_status req then status (body req) else "draft")
        /\ eventsCreated (snd (post_event calculateDistance now req store)) (user_id req)
           = (eventsCreated store (user_id req) + 1)%Z).
Proof.
  intros Hval Hdt Hstart Hend Hvenue Hskip.
  pose proof (post_event_skipping calculateDistance now req store dt
                Hval Hdt Hstart Hend Hskip) as Hpost.
  split; [exact Hpost |].
  intros Hcreate Hpop Hstats Hid Hstatus. rewrite Hpost.
  destruct (create_event_outcomes req store)
    as [[_ [[_ Hnone] | [Hc | [[Hown Hin] | [Hown Hin]]]]]
       | (doc & stored & _ & Hdocs & _ & _ & _ & Horg & Hst & _ & _ & Hout)].
  - contradiction.
  - congruence.
  - exfalso. exact (Hid Hown Hin).
  - exfalso. exact (Hin (Hstatus Hown)).
  - destruct Hout as [[Hp _] | [(_ & Hs & _) | (_ & _ & counted & Hce & Hcd & Hcount)]];
      [congruence | congruence |].
    rewrite Hce. cbn [fst snd]. exists doc. split; [reflexivity |].
    split; [now rewrite Hcd |]. split; [exact Horg |]. split; [exact Hst | exact Hcount].
Qed.

Lemma skip_flag_bypasses_the_detector_witness :
  find_rejects store_without_find = true
  /\ exists doc,
       fst (post_event no_distance 0 skipping_request store_without_find) = Created doc
       /\ status doc = "published".
Proof.
  split; [reflexivity |].
  destruct (skip_flag_bypasses_the_detector no_distance 0 skipping_request
              store_without_find {| start := 1000; finish := 1000 + 7200000 |}
              eq_refl eq_refl eq_refl eq_refl ltac:(discriminate) eq_refl)
    as [_ H].
  destruct H as (doc & Hfst & _ & _ & Hst & _);
    [reflexivity | reflexivity | reflexivity | discriminate | |].
  - intros _. cbn. tauto.
  - exists doc. split; [exact Hfst | exact Hst].
Defined.

Lemma duplicate_gate_response (calculateDistance : Q -> Q -> Q -> Q -> Q) (req : Request)
  (store : Store) (response : Response) :
  duplicate_gate calculateDistance req store = Ok (Some response) ->
  exists ds, response = DuplicateDetected ds.
Proof.
  unfold duplicate_gate. destruct (negb (skipDuplicateCheck req)); [| discriminate].
  destruct (checkForDuplicates calculateDistance (with_organizer req) gate_options store)
    as [r | err]; cbn [bind]; [| discriminate].
  match goal with |- context [if ?c then _ else _] => destruct c end;
    [| discriminate].
  intros H. injection H as <-. eexists. reflexivity.
Qed.

(** X24: whatever the request, the creation handler answers 400, 409,
    201 or 500.  With 400 or 409 the store is left as it was.  With 201
    one document has been appended, which belongs to the authenticated
    user whatever the body says and has the status of the body or
    ['draft'], and the counter of the user has been raised by one.  With
    500 the store is left as it was unless [populate] or [updateOne]
    rejected after [Event.create] had succeeded: the document is then
    stored all the same, and the counter is not raised. *)
Theorem post_event_effect (calculateDistance : Q -> Q -> Q -> Q -> Q) (now : Z)
  (req : Request) (store : Store) :
  In (status_code (fst (post_event calculateDistance now req store)))
     [400; 409; 201; 500]%nat
  /\ (status_code (fst (post_event calculateDistance now req store)) = 400%nat
      \/ status_code (fst (post_event calculateDistance now req store)) = 409%nat ->
      snd (post_event calculateDistance now req store) = store)
  /\ (status_code (fst (post_event calculateDistance now req store)) = 201%nat ->
      exists doc,
        fst (post_event calculateDistance now req store) = Created doc
        /\ docs (snd (post_event calculateDistance now req store))
           = (docs store ++ [doc])%list
        /\ organizer doc = Some (user_id req)
        /\ status doc = (if body_has_status req then status (body req) else "draft")
        /\ In (status doc) status_enum
        /\ eventsCreated (snd (post_event calculateDistance now req store)) (user_id req)
           = (eventsCreated store (user_id req) + 1)%Z)
  /\ (status_code (fst (post_event calculateDistance now req store)) = 500%nat ->
      snd (post_event calculateDistance now req store) = store
      \/ exists doc,
           docs (snd (post_event calculateDistance now req store))
           = (docs store ++ [doc])%list
           /\ organizer doc = Some (user_id req)
           /\ eventsCreated (snd (post_event calculateDistance now req store))
              = eventsCreated store
           /\ create_rejects store = false
           /\ (populate_rejects store = true \/ stats_update_rejects store = true))
  /\ (forall dt,
        validation_errors req = false ->
        dateTime (body req) = Some dt ->
        (now < start dt)%Z ->
        (start dt < finish dt)%Z ->
        venue (body req) <> None ->
        skipDuplicateCheck req = true ->
        create_rejects store = false ->
        (body_has_id req = true ->
         ~ In (event_id (body req)) (map event_id (docs store))) ->
        (body_has_status req = true -> In (status (body req)) status_enum) ->
        populate_rejects store = true \/ stats_update_rejects store = true ->
        status_code (fst (post_event calculateDistance now req store)) = 500%nat
        /\ exists doc,
             docs (snd (post_event calculateDistance now req store))
             = (docs store ++ [doc])%list).
Proof.
  assert (Hcreate : forall out,
             out = match create_event req store with
                   | Ok o => o
                   | Throw _ => (ServerError "Server error creating event", store)
                   end ->
             (status_code (fst out) = 500%nat
              /\ (snd out = store
                  \/ exists doc,
                       docs (snd out) = (docs store ++ [doc])%list
                       /\ organizer doc = Some (user_id req)
                       /\ eventsCreated (snd out) = eventsCreated store
                       /\ create_rejects store = false
                       /\ (populate_rejects store = true
                           \/ stats_update_rejects store = true)))
             \/ exists doc,
                  fst out = Created doc
                  /\ docs (snd out) = (docs store ++ [doc])%list
                  /\ organizer doc = Some (user_id req)
                  /\ status doc = (if body_has_status req then status (body req)
                                   else "draft")
                  /\ In (status doc) status_enum
                  /\ eventsCreated (snd out) (user_id req)
                     = (eventsCreated store (user_id req) + 1)%Z).
  { intros out ->.
    destruct (create_event_outcomes req store)
      as [[[error ->] _]
         | (doc & stored & Hec & Hdocs & Hev & _ & _ & Horg & Hst & Henum & _ & Hout)].
    - left. cbn. split; [reflexivity | now left].
    - assert (Hcr : create_rejects store = false).
      { unfold Event_create in Hec. destruct (create_rejects store); [discriminate Hec |].
        reflexivity. }
      destruct Hout as [[Hp ->] | [(_ & Hs & ->) | (_ & _ & counted & -> & Hcd & Hcount)]];
        cbn [fst snd status_code].
      + left. split; [reflexivity |]. right. exists doc. tauto.
      + left. split; [reflexivity |]. right. exists doc. tauto.
      + right. exists doc. rewrite Hcd. tauto. }
  assert (Hold : forall response,
             In (status_code response) [400; 409]%nat ->
             post_event calculateDistance now req store = (response, store) ->
             In (status_code (fst (post_event calculateDistance now req store)))
                [400; 409; 201; 500]%nat
             /\ In (status_code (fst (post_event calculateDistance now req store)))
                   [400; 409]%nat
             /\ snd (post_event calculateDistance now req store) = store).
  { intros response Hin ->. cbn [fst snd]. split; [| split; [exact Hin | reflexivity]].
    cbn in Hin |- *. tauto. }
  assert (Hmain :
            (In (status_code (fst (post_event calculateDistance now req store)))
                [400; 409]%nat
             /\ snd (post_event calculateDistance now req store) = store)
            \/ (status_code (fst (post_event calculateDistance now req store)) = 500%nat
                /\ snd (post_event calculateDistance now req store) = store)
            \/ post_event calculateDistance now req store
               = match create_event req store with
                 | Ok o => o
                 | Throw _ => (ServerError "Server error creating event", store)
                 end).
  { unfold post_event.
    destruct (validation_errors req); [left; cbn; tauto |].
    destruct (dateTime (body req)) as [dt |]; cbn [deref bind];
      [| right; left; cbn; tauto].
    destruct (start dt <=? now)%Z; [left; cbn; tauto |].
    destruct (finish dt <=? start dt)%Z; [left; cbn; tauto |].
    destruct (duplicate_gate calculateDistance req store) as [[response |] | err] eqn:G;
      cbn [bind].
    - destruct (duplicate_gate_response _ _ _ _ G) as [ds ->]. left. cbn. tauto.
    - right. right. reflexivity.
    - right. left. cbn. tauto. }
  split; [| split; [| split; [| split]]].
  - destruct Hmain as [[Hin _] | [[H500 _] | Heq]].
    + cbn in Hin |- *. tauto.
    + rewrite H500. cbn. tauto.
    + destruct (Hcreate _ Heq) as [[H500 _] | (doc & Hfst & _)].
      * rewrite H500. cbn. tauto.
      * rewrite Hfst. cbn. tauto.
  - intros Hcode. destruct Hmain as [[_ Hsame] | [[H500 _] | Heq]]; [exact Hsame | |].
    + rewrite H500 in Hcode. destruct Hcode; discriminate.
    + destruct (Hcreate _ Heq) as [[H500 _] | (doc & Hfst & _)].
      * rewrite H500 in Hcode. destruct Hcode; discriminate.
      * rewrite Hfst in Hcode. cbn in Hcode. destruct Hcode; discriminate.
  - intros Hcode. destruct Hmain as [[Hin _] | [[H500 _] | Heq]].
    + rewrite Hcode in Hin. cbn in Hin. intuition discriminate.
    + rewrite H500 in Hcode. discriminate.
    + destruct (Hcreate _ Heq) as [[H500 _] | Hdoc]; [| exact Hdoc].
      rewrite H500 in Hcode. discriminate.
  - intros Hcode. destruct Hmain as [[Hin _] | [[_ Hsame] | Heq]].
    + rewrite Hcode in Hin. cbn in Hin. intuition discriminate.
    + now left.
    + destruct (Hcreate _ Heq) as [[_ Hstore] | (doc & Hfst & _)]; [exact Hstore |].
      rewrite Hfst in Hcode. discriminate.
  - intros dt Hval Hdt Hstart Hend Hvenue Hskip Hcr Hid Hst Hrej.
    rewrite (post_event_skipping calculateDistance now req store dt
               Hval Hdt Hstart Hend Hskip).
    destruct (create_event_outcomes req store)
      as [[_ [[_ Hnone] | [Hc | [[Hown Hin] | [Hown Hin]]]]]
         | (doc & stored & _ & Hdocs & _ & _ & _ & _ & _ & _ & _ & Hout)];
      [contradiction | congruence | exfalso; exact (Hid Hown Hin)
       | exfalso; exact (Hin (Hst Hown)) |].
    destruct Hout as [[_ ->] | [(_ & _ & ->) | (Hp & Hs & _)]]; cbn [fst snd status_code].
    + split; [reflexivity |]. now exists doc.
    + split; [reflexivity |]. now exists doc.
    + destruct Hrej; congruence.
Qed.

Lemma post_event_effect_witness :
  status_code (fst (post_event no_distance 0 skipping_request store_without_populate))
  = 500%nat
  /\ exists doc,
       docs (snd (post_event no_distance 0 skipping_request store_without_populate))
       = [doc].
Proof.
  apply (proj2 (proj2 (proj2 (proj2
           (post_event_effect no_distance 0 skipping_request store_without_populate))))
           {| start := 1000; finish := 1000 + 7200000 |});
    try reflexivity.
  - discriminate.
  - discriminate.
  - intros _. cbn. tauto.
  - now left.
Defined.

(** ** The advisory route *)

Lemma existsb_very_high (xs : list Verdict) :
  existsb (fun d => ConfidenceLevel_eqb (confidence d) VERY_HIGH) xs = true
  <-> exists v, In v xs /\ confidence v = VERY_HIGH.
Proof.
  rewrite existsb_exists. split; intros (v & Hin & Hc); exists v; split;
    try assumption; now apply confidence_eqb_spec.
Qed.

Lemma very_high_decidable (pool : list Event) (analyses : list Analysis) :
  (exists p, In p (combine pool analyses) /\ 9 # 10 <= probability (snd p))
  \/ ~ (exists p, In p (combine pool analyses) /\ 9 # 10 <= probability (snd p)).
Proof.
  destruct (existsb (fun p : Event * Analysis => Qle_bool (9 # 10) (probability (snd p)))
                    (combine pool analyses)) eqn:E.
  - left. apply existsb_exists in E. destruct E as (p & Hin & Hp).
    exists p. split; [exact Hin | now apply Qle_bool_iff].
  - right. intros (p & Hin & Hp).
    assert (Ht : existsb (fun p : Event * Analysis =>
                            Qle_bool (9 # 10) (probability (snd p)))
                         (combine pool analyses) = true).
    { apply existsb_exists. exists p. split; [exact Hin | now apply Qle_bool_iff]. }
    congruence.
Qed.



(** ** Registration *)

Lemma registrationStatus_open (now : Z) (this : EventDoc) :
  String.eqb (registrationStatus now this) "open" = true
  <-> currentAttendees (registration this) < maxAttendees (registration this)
      /\ (forall d, deadline (registration this) = Some d -> (now <= d)%Z).
Proof.
  unfold registrationStatus.
  destruct (deadline (registration this)) as [d |].
  - destruct (Z.ltb_spec d now).
    + cbn. split; [discriminate |]. intros [_ Hd]. specialize (Hd d eq_refl). lia.
    + destruct (JS.ge (currentAttendees (registration this))
                      (maxAttendees (registration this))) eqn:E.
      * apply ge_spec in E.
        destruct (waitingList (registration this)); cbn;
          (split; [discriminate | intros [Hlt _]; exfalso; lra]).
      * apply ge_false in E. cbn. split; [| reflexivity]. intros _. split; [exact E |].
        intros d' Hd. injection Hd as <-. lia.
  - destruct (JS.ge (currentAttendees (registration this))
                    (maxAttendees (registration this))) eqn:E.
    + apply ge_spec in E.
      destruct (waitingList (registration this)); cbn;
        (split; [discriminate | intros [Hlt _]; exfalso; lra]).
    + apply ge_false in E. cbn. split; [| reflexivity]. intros _.
      split; [exact E | discriminate].
Qed.

Lemma canRegister_spec (now now' : Z) (this : EventDoc) :
  canRegister now now' this = true
  <-> doc_status this = "published"
      /\ currentAttendees (registration this) < maxAttendees (registration this)
      /\ (forall d, deadline (registration this) = Some d ->
                    (now <= d)%Z /\ (now' <= d)%Z).
Proof.
  unfold canRegister. rewrite !andb_true_iff, registrationStatus_open, String.eqb_eq.
  destruct (deadline (registration this)) as [d |].
  - rewrite Z.leb_le. split.
    + intros [[Hs [Hc Hd]] Hn]. split; [exact Hs |]. split; [exact Hc |].
      intros d' Heq. injection Heq as <-. split; [exact Hn | now apply Hd].
    + intros (Hs & Hc & Hd). destruct (Hd d eq_refl) as [Hn Hn'].
      split; [| exact Hn]. split; [exact Hs |]. split; [exact Hc |].
      intros d' Heq. injection Heq as <-. exact Hn'.
  - split.
    + intros [[Hs [Hc _]] _]. split; [exact Hs |]. split; [exact Hc |]. discriminate.
    + intros (Hs & Hc & _). split; [| reflexivity]. split; [exact Hs |].
      split; [exact Hc |]. discriminate.
Qed.

(** X26: [canRegister] holds exactly for a published event whose
    attendance is below its capacity and whose deadline, if it has one,
    has not passed at either of the two instants read.  Such an event
    has a positive number of available spots, the capacity less the
    attendance; since neither count has to be whole, this may be less
    than one. *)
Theorem canRegister_iff (now now' : Z) (this : EventDoc) :
  (canRegister now now' this = true
   <-> doc_status this = "published"
       /\ currentAttendees (registration this) < maxAttendees (registration this)
       /\ (forall d, deadline (registration this) = Some d ->
                     (now <= d)%Z /\ (now' <= d)%Z))
  /\ (canRegister now now' this = true ->
      0 < availableSpots this
      /\ availableSpots this
         == maxAttendees (registration this) - currentAttendees (registration this)).
Proof.
  pose proof (canRegister_spec now now' this) as H.
  split; [exact H |]. intros Hcan. apply H in Hcan. destruct Hcan as (_ & Hfree & _).
  unfold availableSpots, JS.Math_max.
  destruct (Qle_bool 0 (maxAttendees (registration this)
                        - currentAttendees (registration this))) eqn:E.
  - split; [lra | reflexivity].
  - exfalso. assert (Hle : 0 <= maxAttendees (registration this)
                                - currentAttendees (registration this)) by lra.
    apply Qle_bool_iff in Hle. congruence.
Qed.

Lemma canRegister_iff_witness :
  canRegister 0 0 fractional_event = true
  /\ availableSpots fractional_event == 1 # 2.
Proof.
  split; [reflexivity |].
  destruct (proj2 (canRegister_iff 0 0 fractional_event) eq_refl) as [_ H].
  rewrite H. reflexivity.
Defined.

Lemma run_await {A : Type} (operation : action A) (k : A -> Handler) (campus : Campus) :
  run_alone (await operation k) campus
  = match operation campus with
    | (Ok a, campus') => run_alone (k a) campus'
    | (Throw error, campus') => (RegisterServerError, campus')
    end.
Proof.
  unfold await. cbn [run_alone]. destruct (operation campus) as [[a | error] campus'];
    reflexivity.
Qed.

Lemma run_await_logged (operation : action unit) (k : Handler) (campus : Campus) :
  run_alone (await_logged operation k) campus = run_alone k (snd (operation campus)).
Proof.
  unfold await_logged. cbn [run_alone]. destruct (operation campus); reflexivity.
Qed.

Lemma existsb_find_none {A : Type} (f : A -> bool) (xs : list A) :
  find f xs = None -> existsb f xs = false.
Proof.
  induction xs as [| x xs IH]; [reflexivity |]. cbn [find existsb].
  destruct (f x); [discriminate | exact IH].
Qed.

(** What the route can do when it serves one request alone, laid out by
    the point its [try] block reaches. *)
Lemma post_register_outcomes (now now' : Z) (req : RegisterRequest) (campus : Campus) :
  (snd (post_register now now' req campus) = campus
   /\ In (fst (post_register now now' req campus))
         [RegisterValidationFailed; EventNotFound; RegistrationNotAvailable;
          AlreadyRegistered; RegisterServerError])
  \/ exists event,
       register_validation_errors req = false
       /\ find (fun e => String.eqb (doc_id e) (param_id req)) (events campus) = Some event
       /\ canRegister now now' event = true
       /\ find (registration_of (doc_id event) (register_user req)) (registrations campus)
          = None
       /\ registration_create_rejects (faults campus) = false
       /\ ((event_update_rejects (faults campus) = true
            /\ post_register now now' req campus
               = (RegisterServerError,
                  with_registration (registration_data req event) campus))
           \/ (event_update_rejects (faults campus) = false
               /\ user_update_rejects (faults campus) = true
               /\ post_register now now' req campus
                  = (RegisterServerError,
                     with_attendee (doc_id event)
                       (with_registration (registration_data req event) campus)))
           \/ (event_update_rejects (faults campus) = false
               /\ user_update_rejects (faults campus) = false
               /\ post_register now now' req campus
                  = (RegistrationSuccessful (registration_data req event)
                       (negb (String.eqb (pricing_type (pricing event)) "free"))
                       (amount (pricing event)) (currency (pricing event)),
                     with_attended (register_user req)
                       (with_attendee (doc_id event)
                          (with_registration (registration_data req event) campus))))).
Proof.
  remember (post_register now now' req campus) as out eqn:Hout.
  unfold post_register, register_handler in Hout.
  destruct (register_validation_errors req) eqn:Hval;
    [subst out; left; cbn; tauto |].
  rewrite run_await in Hout. unfold Event_findById in Hout.
  destruct (event_findById_rejects (faults campus));
    [subst out; left; cbn; tauto |].
  destruct (find (fun e => String.eqb (doc_id e) (param_id req)) (events campus))
    as [event |] eqn:Hfound; [| subst out; left; cbn; tauto].
  destruct (canRegister now now' event) eqn:Hcan; cbn [negb] in Hout;
    [| subst out; left; cbn; tauto].
  rewrite run_await in Hout. unfold Registration_findOne in Hout.
  destruct (registration_findOne_rejects (faults campus));
    [subst out; left; cbn; tauto |].
  destruct (find (registration_of (doc_id event) (register_user req))
                 (registrations campus)) as [existing |] eqn:Hexisting;
    [subst out; left; cbn; tauto |].
  destruct (proj1 (canRegister_spec now now' event) Hcan) as (_ & Hfree & _).
  rewrite (proj2 (ge_false _ _) Hfree) in Hout.
  rewrite run_await in Hout. unfold Registration_create in Hout.
  change (stored_registration (registration_data req event))
    with (registration_data req event) in Hout.
  cbn [reg_event reg_user registration_data] in Hout.
  rewrite (existsb_find_none _ _ Hexisting), orb_false_r in Hout.
  destruct (registration_create_rejects (faults campus)) eqn:Hcreate;
    [subst out; left; cbn; tauto |].
  right. exists event. repeat (split; [reflexivity || assumption |]).
  rewrite run_await in Hout. unfold Event_increment in Hout. cbn [faults] in Hout.
  destruct (event_update_rejects (faults campus));
    [left; split; [reflexivity | exact Hout] |].
  right. rewrite run_await in Hout. unfold User_increment in Hout. cbn [faults] in Hout.
  destruct (user_update_rejects (faults campus));
    [left | right]; (split; [reflexivity |]); (split; [reflexivity |]);
    [exact Hout |].
  rewrite !run_await_logged in Hout. exact Hout.
Qed.

(** X27: the route never puts anyone on the waiting list and never
    answers that the event is full: an event without a free place fails
    [canRegister] first, so a request for it is answered that
    registration is not available. *)
Theorem waiting_list_is_unreachable (now now' : Z) (req : RegisterRequest)
  (campus : Campus) :
  (forall registration,
      fst (post_register now now' req campus) <> AddedToWaitingList registration)
  /\ fst (post_register now now' req campus) <> EventIsFull
  /\ register_status_code (fst (post_register now now' req campus)) <> 200%nat
  /\ (forall event,
        register_validation_errors req = false ->
        event_findById_rejects (faults campus) = false ->
        find (fun e => String.eqb (doc_id e) (param_id req)) (events campus)
        = Some event ->
        maxAttendees (registration event) <= currentAttendees (registration event) ->
        post_register now now' req campus = (RegistrationNotAvailable, campus)).
Proof.
  assert (Hcases : In (fst (post_register now now' req campus))
                      [RegisterValidationFailed; EventNotFound; RegistrationNotAvailable;
                       AlreadyRegistered; RegisterServerError]
                   \/ exists r b a c,
                        fst (post_register now now' req campus)
                        = RegistrationSuccessful r b a c).
  { destruct (post_register_outcomes now now' req campus)
      as [[_ Hin] | (event & _ & _ & _ & _ & _ & [[_ H] | [(_ & _ & H) | (_ & _ & H)]])].
    - now left.
    - left. rewrite H. cbn. tauto.
    - left. rewrite H. cbn. tauto.
    - right. rewrite H. cbn [fst]. eexists _, _, _, _. reflexivity. }
  split; [| split; [| split]].
  - intros registration Heq. rewrite Heq in Hcases.
    destruct Hcases as [Hin | (r & b & a & c & H)]; [| discriminate H].
    cbn in Hin. intuition discriminate.
  - intros Heq. rewrite Heq in Hcases.
    destruct Hcases as [Hin | (r & b & a & c & H)]; [| discriminate H].
    cbn in Hin. intuition discriminate.
  - destruct Hcases as [Hin | (r & b & a & c & H)].
    + cbn in Hin. destruct Hin as [<- | [<- | [<- | [<- | [<- | []]]]]]; discriminate.
    + rewrite H. discriminate.
  - intros event Hval Hfind Hfound Hfull.
    assert (Hcan : canRegister now now' event = false).
    { apply not_true_is_false. intros Hcan.
      apply canRegister_spec in Hcan. destruct Hcan as (_ & Hfree & _). lra. }
    unfold post_register, register_handler. rewrite Hval, run_await.
    unfold Event_findById. rewrite Hfind, Hfound, Hcan. reflexivity.
Qed.

Lemma waiting_list_is_unreachable_witness :
  waitingList (registration full_event) = true
  /\ post_register 0 0 (register_request "e2") (example_campus no_faults)
     = (RegistrationNotAvailable, example_campus no_faults).
Proof.
  split; [reflexivity |].
  apply (proj2 (proj2 (proj2 (waiting_list_is_unreachable 0 0 (register_request "e2")
                                (example_campus no_faults)))) full_event);
    [reflexivity | reflexivity | reflexivity | discriminate].
Defined.

Lemma find_doc_id (id : string) (es : list EventDoc) (event : EventDoc) :
  find (fun e => String.eqb (doc_id e) id) es = Some event -> doc_id event = id.
Proof.
  intros H. apply find_some in H. now apply String.eqb_eq.
Qed.

Lemma find_update_first (id : string) (es : list EventDoc) (event : EventDoc) :
  find (fun e => String.eqb (doc_id e) id) es = Some event ->
  find (fun e => String.eqb (doc_id e) id) (update_first id es)
  = Some (increment_attendees event).
Proof.
  induction es as [| e es IH]; [discriminate |]. cbn [find update_first].
  destruct (String.eqb (doc_id e) id) eqn:E.
  - intros H. injection H as <-. cbn [find increment_attendees doc_id].
    now rewrite E.
  - intros H. cbn [find]. rewrite E. now apply IH.
Qed.

Lemma find_none_forall {A : Type} (f : A -> bool) (xs : list A) :
  find f xs = None -> forall x, In x xs -> f x = false.
Proof. intros H x Hin. exact (find_none f xs H x Hin). Qed.



Lemma find_app_last (data : Registration) (rs : list Registration) (event user : string) :
  registered_pair data = (event, user) ->
  find (registration_of event user) rs = None ->
  find (registration_of event user) (rs ++ [data]) = Some data.
Proof.
  intros Hpair. unfold registered_pair in Hpair. injection Hpair as He Hu.
  induction rs as [| r rs IH]; cbn [find app].
  - intros _. unfold registration_of. now rewrite He, Hu, !String.eqb_refl.
  - destruct (registration_of event user r); [discriminate | exact IH].
Qed.

(** X30: the registration is not atomic: when the registration is stored
    and the update of the attendance then rejects, the answer is 500 but
    the registration stays, with the attendance of the event unchanged;
    a repeated request is then answered that the user is registered
    already. *)
Theorem registration_is_not_atomic (now now' : Z) (req : RegisterRequest)
  (campus : Campus) (event : EventDoc) :
  register_validation_errors req = false ->
  event_findById_rejects (faults campus) = false ->
  registration_findOne_rejects (faults campus) = false ->
  registration_create_rejects (faults campus) = false ->
  event_update_rejects (faults campus) = true ->
  find (fun e => String.eqb (doc_id e) (param_id req)) (events campus) = Some event ->
  canRegister now now' event = true ->
  find (fun r => String.eqb (reg_event r) (doc_id event)
                 && String.eqb (reg_user r) (register_user req))
       (registrations campus) = None ->
  fst (post_register now now' req campus) = RegisterServerError
  /\ registrations (snd (post_register now now' req campus))
     = (registrations campus ++ [registration_data req event])%list
  /\ events (snd (post_register now now' req campus)) = events campus
  /\ forall later later',
       canRegister later later' event = true ->
       post_register later later' req (snd (post_register now now' req campus))
       = (AlreadyRegistered, snd (post_register now now' req campus)).
Proof.
  intros Hval Hfind HfindOne Hcreate Hupdate Hfound Hcan Hnone.
  change (find (registration_of (doc_id event) (register_user req))
               (registrations campus) = None) in Hnone.
  assert (H : post_register now now' req campus
              = (RegisterServerError,
                 with_registration (registration_data req event) campus)).
  { destruct (post_register_outcomes now now' req campus)
      as [[Hsame Hin] | (event' & _ & Hfound' & _ & _ & _ & Hout)].
    - exfalso. revert Hsame Hin.
      unfold post_register, register_handler. rewrite Hval, run_await.
      unfold Event_findById. rewrite Hfind, Hfound, Hcan. cbn [negb].
      rewrite run_await. unfold Registration_findOne. rewrite HfindOne, Hnone.
      destruct (proj1 (canRegister_spec now now' event) Hcan) as (_ & Hfree & _).
      rewrite (proj2 (ge_false _ _) Hfree), run_await.
      unfold Registration_create.
      change (stored_registration (registration_data req event))
        with (registration_data req event).
      cbn [reg_event reg_user registration_data].
      rewrite (existsb_find_none _ _ Hnone), Hcreate. cbn [orb].
      rewrite run_await. unfold Event_increment. cbn [faults]. rewrite Hupdate.
      cbn [snd]. intros Hsame _.
      apply (f_equal (fun c => List.length (registrations c))) in Hsame.
      cbn [registrations] in Hsame. rewrite length_app in Hsame. cbn in Hsame. lia.
    - rewrite Hfound in Hfound'. injection Hfound' as <-.
      destruct Hout as [[_ H] | [(Hu & _) | (Hu & _)]]; [exact H | congruence | congruence]. }
  rewrite H. cbn [fst snd]. repeat split.
  intros later later' Hlater.
  unfold post_register, register_handler. rewrite Hval, run_await.
  unfold Event_findById. cbn [faults events with_registration].
  rewrite Hfind, Hfound, Hlater. cbn [negb].
  rewrite run_await. unfold Registration_findOne.
  cbn [faults registrations with_registration]. rewrite HfindOne.
  rewrite (find_app_last (registration_data req event) (registrations campus)
             (doc_id event) (register_user req) eq_refl Hnone).
  reflexivity.
Qed.

Lemma registration_is_not_atomic_witness :
  fst (post_register 0 0 (register_request "e1") (example_campus update_fault))
  = RegisterServerError
  /\ registrations
       (snd (post_register 0 0 (register_request "e1") (example_campus update_fault)))
     = [registration_data (register_request "e1") open_event].
Proof.
  destruct (registration_is_not_atomic 0 0 (register_request "e1")
              (example_campus update_fault) open_event
              eq_refl eq_refl eq_refl eq_refl eq_refl eq_refl eq_refl eq_refl)
    as (H500 & Hregs & _).
  split; [exact H500 | exact Hregs].
Defined.

(** *** The invariants of the collections *)

Lemma whole_successor (a b : Q) : whole a -> whole b -> a < b -> a + 1 <= b.
Proof.
  unfold whole. intros Ha Hb Hlt. rewrite <- Ha, <- Hb in Hlt |- *.
  rewrite <- Zlt_Qlt in Hlt.
  change 1 with (inject_Z 1). rewrite <- inject_Z_plus, <- Zle_Qle. lia.
Qed.

Lemma update_first_capacity (id : string) (es : list EventDoc) (event : EventDoc) :
  find (fun e => String.eqb (doc_id e) id) es = Some event ->
  currentAttendees (registration event) + 1 <= maxAttendees (registration event) ->
  Forall (fun e => currentAttendees (registration e) <= maxAttendees (registration e)) es ->
  Forall (fun e => currentAttendees (registration e) <= maxAttendees (registration e))
         (update_first id es).
Proof.
  intros Hfound Hfree Hall. induction Hall as [| e es He Hes IH]; [constructor |].
  cbn [find update_first] in *. destruct (String.eqb (doc_id e) id).
  - injection Hfound as ->. constructor; [exact Hfree | exact Hes].
  - constructor; [exact He | now apply IH].
Qed.

Lemma beyond_capacity (id : string) (campus : Campus) (e : EventDoc) :
  find (fun e => String.eqb (doc_id e) id) (events campus) = Some e ->
  maxAttendees (registration e) < currentAttendees (registration e) ->
  ~ within_capacity campus.
Proof.
  intros Hfound Hover Hcap. apply find_some in Hfound. destruct Hfound as [Hin _].
  unfold within_capacity in Hcap. rewrite Forall_forall in Hcap.
  specialize (Hcap e Hin). lra.
Qed.

Lemma registered_once_append (data : Registration) (rs : list Registration) :
  existsb (registration_of (reg_event data) (reg_user data)) rs = false ->
  NoDup (map registered_pair rs) ->
  NoDup (map registered_pair (rs ++ [data])).
Proof.
  intros Hnew Hrs. rewrite map_app. cbn [map].
  apply NoDup_app_remove_l with (l := []). cbn [app].
  apply Permutation_NoDup with (registered_pair data :: map registered_pair rs).
  - apply Permutation_cons_append.
  - constructor; [| exact Hrs]. intros Hin. apply in_map_iff in Hin.
    destruct Hin as (r & Hpair & Hr).
    assert (Ht : existsb (registration_of (reg_event data) (reg_user data)) rs = true).
    { apply existsb_exists. exists r. split; [exact Hr |].
      unfold registered_pair in Hpair. injection Hpair as He Hu.
      unfold registration_of. now rewrite He, Hu, !String.eqb_refl. }
    congruence.
Qed.

Lemma keeps_await {A : Type} (P : Campus -> Prop) (operation : action A)
  (k : A -> Handler) :
  (forall campus, P campus -> P (snd (operation campus))) ->
  (forall a, keeps P (k a)) ->
  keeps P (await operation k).
Proof.
  intros Hop Hk. unfold await. cbn [keeps]. split; [exact Hop |].
  intros [a | error]; [apply Hk | exact I].
Qed.

Lemma keeps_await_logged (P : Campus -> Prop) (operation : action unit) (k : Handler) :
  (forall campus, P campus -> P (snd (operation campus))) ->
  keeps P k ->
  keeps P (await_logged operation k).
Proof.
  intros Hop Hk. unfold await_logged. cbn [keeps]. split; [exact Hop |].
  intros _. exact Hk.
Qed.

Lemma Registration_create_once (data : Registration) (campus : Campus) :
  registered_once campus -> registered_once (snd (Registration_create data campus)).
Proof.
  unfold Registration_create, registered_once. intros H.
  destruct (registration_create_rejects (faults campus)); cbn [orb snd]; [exact H |].
  destruct (existsb _ (registrations campus)) eqn:E; cbn [snd registrations];
    [exact H |].
  apply registered_once_append; assumption.
Qed.

(** Whatever a handler of the route still does, it writes no second
    registration of one user for one event. *)
Lemma register_handler_once (now now' : Z) (req : RegisterRequest) :
  keeps registered_once (register_handler now now' req).
Proof.
  unfold register_handler.
  destruct (register_validation_errors req); [exact I |].
  apply keeps_await.
  { intros campus H. unfold Event_findById.
    destruct (event_findById_rejects (faults campus)); exact H. }
  intros [event |]; [| exact I].
  destruct (negb (canRegister now now' event)); [exact I |].
  apply keeps_await.
  { intros campus H. unfold Registration_findOne.
    destruct (registration_findOne_rejects (faults campus)); exact H. }
  intros [existing |]; [exact I |].
  destruct (JS.ge _ _).
  - destruct (waitingList (registration event)); [| exact I].
    apply keeps_await; [apply Registration_create_once |]. intros registration. exact I.
  - apply keeps_await; [apply Registration_create_once |]. intros registration.
    apply keeps_await.
    { intros campus H. unfold Event_increment.
      destruct (event_update_rejects (faults campus)); exact H. }
    intros _. apply keeps_await.
    { intros campus H. unfold User_increment.
      destruct (user_update_rejects (faults campus)); exact H. }
    intros _. apply keeps_await_logged; [intros campus H; exact H |].
    apply keeps_await_logged; [intros campus H; exact H |]. exact I.
Qed.

Lemma step_keeps (P : Campus -> Prop) (h : Handler) (campus : Campus) :
  keeps P h -> P campus ->
  keeps P (fst (step h campus)) /\ P (snd (step h campus)).
Proof.
  destruct h as [response | A operation resume]; cbn [keeps step].
  - intros _ H. split; [exact I | exact H].
  - intros [Hop Hk] H. specialize (Hop campus H).
    destruct (operation campus) as [outcome campus']. cbn [fst snd] in *.
    split; [apply Hk | exact Hop].
Qed.

Lemma interleave_keeps (P : Campus -> Prop) (schedule : list bool) (h1 h2 : Handler)
  (campus : Campus) :
  keeps P h1 -> keeps P h2 -> P campus ->
  P (snd (interleave schedule h1 h2 campus)).
Proof.
  revert h1 h2 campus.
  induction schedule as [| turn rest IH]; intros h1 h2 campus H1 H2 H;
    [exact H |].
  cbn [interleave]. destruct turn.
  - destruct (step_keeps P h1 campus H1 H) as [H1' H'].
    destruct (step h1 campus) as [h1' campus']. now apply IH.
  - destruct (step_keeps P h2 campus H2 H) as [H2' H'].
    destruct (step h2 campus) as [h2' campus']. now apply IH.
Qed.

Lemma step_await {A : Type} (operation : action A) (k : A -> Handler) (campus : Campus) :
  step (await operation k) campus
  = (match fst (operation campus) with
     | Ok a => k a
     | Throw error => Respond RegisterServerError
     end,
     snd (operation campus)).
Proof.
  unfold await. cbn [step]. destruct (operation campus); reflexivity.
Qed.

Lemma step_await_logged (operation : action unit) (k : Handler) (campus : Campus) :
  step (await_logged operation k) campus = (k, snd (operation campus)).
Proof.
  unfold await_logged. cbn [step]. destruct (operation campus); reflexivity.
Qed.

Lemma interleave_first (rest : list bool) (h1 h2 : Handler) (campus : Campus) :
  interleave (true :: rest) h1 h2 campus
  = interleave rest (fst (step h1 campus)) h2 (snd (step h1 campus)).
Proof. cbn [interleave]. destruct (step h1 campus); reflexivity. Qed.

Lemma interleave_second (rest : list bool) (h1 h2 : Handler) (campus : Campus) :
  interleave (false :: rest) h1 h2 campus
  = interleave rest h1 (fst (step h2 campus)) (snd (step h2 campus)).
Proof. cbn [interleave]. destruct (step h2 campus); reflexivity. Qed.

Lemma find_other_user (data : Registration) (rs : list Registration) (event user : string) :
  reg_user data <> user ->
  find (registration_of event user) rs = None ->
  find (registration_of event user) (rs ++ [data]) = None.
Proof.
  intros Hother. induction rs as [| r rs IH]; cbn [find app].
  - intros _. unfold registration_of.
    destruct (String.eqb_spec (reg_user data) user); [contradiction |].
    now rewrite andb_false_r.
  - destruct (registration_of event user r); [discriminate | exact IH].
Qed.

(** The awaited operations on collections without faults. *)
Lemma Event_findById_run (id : string) (campus : Campus) :
  faults campus = no_faults ->
  Event_findById id campus
  = (Ok (find (fun e => String.eqb (doc_id e) id) (events campus)), campus).
Proof. intros H. unfold Event_findById. now rewrite H. Qed.

Lemma Registration_findOne_run (event user : string) (campus : Campus) :
  faults campus = no_faults ->
  Registration_findOne event user campus
  = (Ok (find (registration_of event user) (registrations campus)), campus).
Proof. intros H. unfold Registration_findOne. now rewrite H. Qed.

Lemma Registration_create_run (data : Registration) (campus : Campus) :
  faults campus = no_faults ->
  find (registration_of (reg_event data) (reg_user data)) (registrations campus) = None ->
  Registration_create data campus
  = (Ok (stored_registration data), with_registration (stored_registration data) campus).
Proof.
  intros H Hnone. unfold Registration_create, with_registration.
  now rewrite H, (existsb_find_none _ _ Hnone).
Qed.

Lemma Event_increment_run (id : string) (campus : Campus) :
  faults campus = no_faults ->
  Event_increment id campus = (Ok tt, with_attendee id campus).
Proof. intros H. unfold Event_increment, with_attendee. now rewrite H. Qed.

Lemma User_increment_run (user : string) (campus : Campus) :
  faults campus = no_faults ->
  User_increment user campus = (Ok tt, with_attended user campus).
Proof. intros H. unfold User_increment, with_attended. now rewrite H. Qed.

(** Two requests of different users for one event, served turn by turn:
    each handler reads the event before the other has written. *)
Lemma turn_by_turn_run (now1 now1' now2 now2' : Z) (req1 req2 : RegisterRequest)
  (campus : Campus) (event : EventDoc) :
  faults campus = no_faults ->
  register_validation_errors req1 = false ->
  register_validation_errors req2 = false ->
  param_id req2 = param_id req1 ->
  register_user req1 <> register_user req2 ->
  find (fun e => String.eqb (doc_id e) (param_id req1)) (events campus) = Some event ->
  canRegister now1 now1' event = true ->
  canRegister now2 now2' event = true ->
  find (registration_of (doc_id event) (register_user req1)) (registrations campus)
  = None ->
  find (registration_of (doc_id event) (register_user req2)) (registrations campus)
  = None ->
  interleave (turn_by_turn 7)
    (register_handler now1 now1' req1) (register_handler now2 now2' req2) campus
  = (Respond (RegistrationSuccessful (registration_data req1 event)
                (negb (String.eqb (pricing_type (pricing event)) "free"))
                (amount (pricing event)) (currency (pricing event))),
     Respond (RegistrationSuccessful (registration_data req2 event)
                (negb (String.eqb (pricing_type (pricing event)) "free"))
                (amount (pricing event)) (currency (pricing event))),
     with_attended (register_user req2)
       (with_attended (register_user req1)
          (with_attendee (doc_id event)
             (with_attendee (doc_id event)
                (with_registration (registration_data req2 event)
                   (with_registration (registration_data req1 event) campus)))))).
Proof.
  intros Hfaults Hval1 Hval2 Hid Huser Hfound Hcan1 Hcan2 Hnone1 Hnone2.
  destruct (proj1 (canRegister_spec now1 now1' event) Hcan1) as (_ & Hfree & _).
  apply (proj2 (ge_false _ _)) in Hfree.
  unfold register_handler. rewrite Hval1, Hval2, Hid. cbn [turn_by_turn].
  (* both handlers load the event *)
  rewrite interleave_first, step_await, (Event_findById_run _ _ Hfaults).
  cbn [fst snd]. rewrite Hfound, Hcan1. cbn [negb].
  rewrite interleave_second, step_await, (Event_findById_run _ _ Hfaults).
  cbn [fst snd]. rewrite Hfound, Hcan2. cbn [negb].
  (* both look for a registration of their user *)
  rewrite interleave_first, step_await, (Registration_findOne_run _ _ _ Hfaults).
  cbn [fst snd]. rewrite Hnone1, ?Hfree.
  rewrite interleave_second, step_await, (Registration_findOne_run _ _ _ Hfaults).
  cbn [fst snd]. rewrite Hnone2, ?Hfree.
  (* both store their registration *)
  rewrite interleave_first, step_await.
  rewrite (Registration_create_run (registration_data req1 event) campus Hfaults Hnone1).
  change (stored_registration (registration_data req1 event))
    with (registration_data req1 event).
  cbn [fst snd].
  rewrite interleave_second, step_await.
  rewrite (Registration_create_run (registration_data req2 event)
             (with_registration (registration_data req1 event) campus) Hfaults).
  2: { cbn [registrations with_registration reg_event reg_user registration_data].
       apply find_other_user; [exact Huser | exact Hnone2]. }
  change (stored_registration (registration_data req2 event))
    with (registration_data req2 event).
  cbn [fst snd].
  (* both raise the attendance *)
  rewrite interleave_first, step_await, Event_increment_run
    by (cbn [faults with_registration with_attendee with_attended]; exact Hfaults).
  cbn [fst snd].
  rewrite interleave_second, step_await, Event_increment_run
    by (cbn [faults with_registration with_attendee with_attended]; exact Hfaults).
  cbn [fst snd].
  (* both raise the counter of their user *)
  rewrite interleave_first, step_await, User_increment_run
    by (cbn [faults with_registration with_attendee with_attended]; exact Hfaults).
  cbn [fst snd].
  rewrite interleave_second, step_await, User_increment_run
    by (cbn [faults with_registration with_attendee with_attended]; exact Hfaults).
  cbn [fst snd].
  (* the e-mails *)
  rewrite interleave_first, step_await_logged. cbn [fst snd send_email].
  rewrite interleave_second, step_await_logged. cbn [fst snd send_email].
  rewrite interleave_first, step_await_logged. cbn [fst snd send_email].
  rewrite interleave_second, step_await_logged. cbn [fst snd send_email].
  reflexivity.
Qed.

Lemma full_event_is_refused (now now' : Z) (req : RegisterRequest) (campus : Campus)
  (event : EventDoc) :
  register_validation_errors req = false ->
  event_findById_rejects (faults campus) = false ->
  find (fun e => String.eqb (doc_id e) (param_id req)) (events campus) = Some event ->
  maxAttendees (registration event) <= currentAttendees (registration event) ->
  post_register now now' req campus = (RegistrationNotAvailable, campus).
Proof.
  intros Hval Hfind Hfound Hfull.
  assert (Hcan : canRegister now now' event = false).
  { apply not_true_is_false. intros Hcan.
    apply canRegister_spec in Hcan. destruct Hcan as (_ & Hfree & _). lra. }
  unfold post_register, register_handler. rewrite Hval, run_await.
  unfold Event_findById. rewrite Hfind, Hfound, Hcan. reflexivity.
Qed.

Lemma post_register_without_faults (now now' : Z) (req : RegisterRequest)
  (campus : Campus) (event : EventDoc) :
  faults campus = no_faults ->
  register_validation_errors req = false ->
  find (fun e => String.eqb (doc_id e) (param_id req)) (events campus) = Some event ->
  canRegister now now' event = true ->
  find (registration_of (doc_id event) (register_user req)) (registrations campus)
  = None ->
  post_register now now' req campus
  = (RegistrationSuccessful (registration_data req event)
       (negb (String.eqb (pricing_type (pricing event)) "free"))
       (amount (pricing event)) (currency (pricing event)),
     with_attended (register_user req)
       (with_attendee (doc_id event)
          (with_registration (registration_data req event) campus))).
Proof.
  intros Hfaults Hval Hfound Hcan Hnone.
  destruct (proj1 (canRegister_spec now now' event) Hcan) as (_ & Hfree & _).
  unfold post_register, register_handler. rewrite Hval, run_await.
  rewrite (Event_findById_run _ _ Hfaults), Hfound, Hcan. cbn [negb].
  rewrite run_await, (Registration_findOne_run _ _ _ Hfaults), Hnone.
  rewrite (proj2 (ge_false _ _) Hfree), run_await.
  rewrite (Registration_create_run (registration_data req event) campus Hfaults Hnone).
  change (stored_registration (registration_data req event))
    with (registration_data req event).
  rewrite run_await, Event_increment_run by exact Hfaults.
  rewrite run_await, User_increment_run by exact Hfaults.
  rewrite !run_await_logged. reflexivity.
Qed.



(** ** Instances of the further properties *)

